(** * Benchmark executor and LLM judge of customer-service-llm

    A shallow embedding of the scoring pipeline of the benchmark
    ([src/benchmark/src/evaluation/judge.py], [multi_judge.py], [models.py])
    and of the executor ([src/benchmark/src/benchmark/executor.py]).

    Conventions.
    - A Python [str] is a list of Unicode code points ([list N]); [lit]
      turns a Rocq string literal into such a text.
    - A Python [dict] is an association list kept in insertion order, since
      the code iterates over [.items()].
    - A Python [float] is a binary64 number ([PrimFloat.float]).
    - Code that may raise returns a [result]: [Ok v] or [Raise e]. *)

From Stdlib Require Import String Ascii.
From Stdlib Require Import ZArith NArith Bool Lia Arith List.
From Stdlib Require Import Floats.
Import ListNotations.

Set Implicit Arguments.
Set Warnings "-register-all,-inexact-float".

(** ** Python text *)

Module Text.

Definition char := N.
Definition str := list char.

Definition lit (s : string) : str :=
  List.map N_of_ascii (list_ascii_of_string s).

Definition chr (a : ascii) : char := N_of_ascii a.

(** A text written with an apostrophe wherever it has a double quote
    (used to write JSON texts). *)
Definition jlit (s : string) : str :=
  List.map (fun c => if (c =? 39)%N then 34%N else c) (lit s).

Fixpoint str_eqb (a b : str) : bool :=
  match a, b with
  | [], [] => true
  | x :: a', y :: b' => N.eqb x y && str_eqb a' b'
  | _, _ => false
  end.

(** [str.isspace] on one code point (CPython's [Py_UNICODE_ISSPACE]). *)
Definition isspace (c : char) : bool :=
  ((9 <=? c) && (c <=? 13) || (28 <=? c) && (c <=? 32)
   || (c =? 133) || (c =? 160) || (c =? 5760)
   || (8192 <=? c) && (c <=? 8202)
   || (c =? 8232) || (c =? 8233) || (c =? 8239) || (c =? 8287)
   || (c =? 12288))%N.

Fixpoint lstrip (s : str) : str :=
  match s with
  | [] => []
  | c :: t => if isspace c then lstrip t else s
  end.

Definition rstrip (s : str) : str := rev (lstrip (rev s)).

(** [s.strip()] *)
Definition strip (s : str) : str := rstrip (lstrip s).

(** [s.startswith(p)] *)
Fixpoint startswith (p s : str) : bool :=
  match p, s with
  | [], _ => true
  | x :: p', y :: s' => N.eqb x y && startswith p' s'
  | _ :: _, [] => false
  end.

(** [s.endswith(p)] *)
Definition endswith (p s : str) : bool := startswith (rev p) (rev s).

(** [s.find(c)] for a one-character needle: the first index, or [-1]. *)
Fixpoint find_from (c : char) (s : str) (i : Z) : Z :=
  match s with
  | [] => (-1)%Z
  | x :: t => if N.eqb x c then i else find_from c t (i + 1)%Z
  end.

Definition find (c : char) (s : str) : Z := find_from c s 0%Z.

(** [s.rfind(c)]: the last index, or [-1]. *)
Fixpoint rfind_from (c : char) (s : str) (i last : Z) : Z :=
  match s with
  | [] => last
  | x :: t => rfind_from c t (i + 1)%Z (if N.eqb x c then i else last)
  end.

Definition rfind (c : char) (s : str) : Z := rfind_from c s 0%Z (-1)%Z.

(** [s[i:]] and [s[:j]] for non-negative [i], [j]. *)
Definition slice_from (i : Z) (s : str) : str := skipn (Z.to_nat i) s.
Definition slice_to (j : Z) (s : str) : str := firstn (Z.to_nat j) s.

(** [s[:-k]] *)
Definition drop_last (k : nat) (s : str) : str := firstn (length s - k) s.

(** [needle in s] *)
Fixpoint contains (needle s : str) : bool :=
  startswith needle s ||
  match s with
  | [] => false
  | _ :: t => contains needle t
  end.

(** ["sep".join(parts)] *)
Fixpoint join (sep : str) (parts : list str) : str :=
  match parts with
  | [] => []
  | [p] => p
  | p :: rest => p ++ sep ++ join sep rest
  end.

Definition has (c : char) (s : str) : bool := existsb (N.eqb c) s.

(** Decimal rendering of an [int] ([str(n)]). *)
Fixpoint dec_digits (fuel : nat) (n : N) (acc : str) : str :=
  match fuel with
  | O => acc
  | S f =>
      let acc' := (48 + n mod 10)%N :: acc in
      if (n <? 10)%N then acc' else dec_digits f (n / 10)%N acc'
  end.

Definition dec_N (n : N) : str := dec_digits (S (N.to_nat (N.log2 n))) n [].

Definition dec (z : Z) : str :=
  if (z <? 0)%Z then 45%N :: dec_N (Z.to_N (- z)) else dec_N (Z.to_N z).

Definition dec_nat (n : nat) : str := dec (Z.of_nat n).

(** [str(xs)] for a list of ints. *)
Definition dec_list (xs : list Z) : str :=
  lit "[" ++ join (lit ", ") (List.map dec xs) ++ lit "]".

(** A [dict] with text keys, as an association list in insertion order:
    [d.get(k)] and [d[k] = v]. *)
Fixpoint assoc_get {V : Type} (k : str) (d : list (str * V)) : option V :=
  match d with
  | [] => None
  | (k', v) :: t => if str_eqb k k' then Some v else assoc_get k t
  end.

Fixpoint assoc_set {V : Type} (k : str) (v : V) (d : list (str * V)) : list (str * V) :=
  match d with
  | [] => [(k, v)]
  | (k', v') :: t =>
      if str_eqb k k' then (k', v) :: t else (k', v') :: assoc_set k v t
  end.

End Text.
Import Text.

(** ** The judge's text trimming ([LLMJudge._parse_evaluation_response], lines 225-241) *)

Module Trim.

Definition LBRACE : char := chr "{".
Definition RBRACE : char := chr "}".
Definition FENCE_JSON : str := lit "```json".
Definition FENCE : str := lit "```".

Definition extract_json_text (response_content : str) : str :=
  let c := strip response_content in
  let c := if startswith FENCE_JSON c then slice_from 7 c else c in
  let c := if endswith FENCE c then drop_last 3 c else c in
  let json_start := find LBRACE c in
  let c := if (0 <? json_start)%Z then slice_from json_start c else c in
  let json_end := rfind RBRACE c in
  let c := if ((0 <? json_end) && (json_end <? Z.of_nat (length c) - 1))%Z
           then slice_to (json_end + 1) c else c in
  strip c.

(** The same trimming as the specification words it: strip the fence
    markers, discard what precedes the first opening brace, discard what
    follows the last closing brace. *)
Fixpoint from_first (c : char) (s : str) : str :=
  match s with
  | [] => []
  | x :: t => if N.eqb x c then s else from_first c t
  end.

Definition upto_last (c : char) (s : str) : str :=
  rev (from_first c (rev s)).

Definition spec_extract (response_content : str) : str :=
  let c := strip response_content in
  let c := if startswith FENCE_JSON c then skipn (length FENCE_JSON) c else c in
  let c := if endswith FENCE c then drop_last (length FENCE) c else c in
  let c := if has LBRACE c then from_first LBRACE c else c in
  let c := if has RBRACE c then upto_last RBRACE c else c in
  strip c.

End Trim.

(** ** JSON values and CPython's [json] decoder

    [json.loads] and [JSONDecoder.raw_decode] belong to the interpreter's
    library; they are modelled here after CPython's scanner so that
    [safe_json_loads] and the judge's parser can be run on concrete texts.
    The nesting depth is bounded by fuel taken from the length of the text
    ([RecursionError] is not modelled). *)

Module Json.

Inductive json :=
| JNull
| JBool (b : bool)
| JInt (z : Z)
| JFloat (literal : str)   (* a float, kept as the literal that denotes it *)
| JStr (s : str)
| JArr (items : list json)
| JObj (members : list (str * json)).

(** A [dict] with text keys, in insertion order. *)
Definition dict := list (str * json).

Definition dict_get (k : str) (d : dict) : option json := assoc_get k d.
Definition dict_set (k : str) (v : json) (d : dict) : dict := assoc_set k v d.

Definition dict_of_pairs (ps : list (str * json)) : dict :=
  fold_left (fun d kv => dict_set (fst kv) (snd kv) d) ps [].

(** The messages of [json.JSONDecodeError]. *)
Inductive decode_msg :=
| ExtraData
| ExpectingValue
| ExpectingPropertyName
| ExpectingColon
| ExpectingComma
| UnterminatedString
| InvalidControlCharacter
| InvalidEscape
| InvalidUnicodeEscape
| UnexpectedBOM.

(** A scanner returns the value, the text left and the index reached, or
    a message with the index at which it gave up. *)
Definition sres (A : Type) : Type := (decode_msg * nat) + (A * str * nat).

Definition json_ws (c : char) : bool :=
  ((c =? 32) || (c =? 9) || (c =? 10) || (c =? 13))%N.

Fixpoint skip_ws (s : str) (i : nat) : str * nat :=
  match s with
  | c :: t => if json_ws c then skip_ws t (S i) else (s, i)
  | [] => ([], i)
  end.

Definition is_digit (c : char) : bool := ((48 <=? c) && (c <=? 57))%N.

Definition hexval (c : char) : option N :=
  if ((48 <=? c) && (c <=? 57))%N then Some (c - 48)%N
  else if ((97 <=? c) && (c <=? 102))%N then Some (c - 87)%N
  else if ((65 <=? c) && (c <=? 70))%N then Some (c - 55)%N
  else None.

Definition hex4 (a b c d : char) : option N :=
  match hexval a, hexval b, hexval c, hexval d with
  | Some x, Some y, Some z, Some w => Some (((x * 16 + y) * 16 + z) * 16 + w)%N
  | _, _, _, _ => None
  end.

Definition simple_escape (c : char) : option char :=
  if (c =? 34)%N then Some 34%N          (* quote *)
  else if (c =? 92)%N then Some 92%N     (* backslash *)
  else if (c =? 47)%N then Some 47%N     (* slash *)
  else if (c =? 98)%N then Some 8%N      (* backspace *)
  else if (c =? 102)%N then Some 12%N    (* form feed *)
  else if (c =? 110)%N then Some 10%N    (* line feed *)
  else if (c =? 114)%N then Some 13%N    (* carriage return *)
  else if (c =? 116)%N then Some 9%N     (* tab *)
  else None.

Definition is_high_surrogate (c : N) : bool := ((55296 <=? c) && (c <=? 56319))%N.
Definition is_low_surrogate (c : N) : bool := ((56320 <=? c) && (c <=? 57343))%N.
Definition join_surrogates (hi lo : N) : N :=
  (65536 + (hi - 55296) * 1024 + (lo - 56320))%N.

(** [scanstring] in strict mode, entered after the opening quote; [i] is
    the index of the next character, [start] that of the opening quote. *)
Fixpoint scanstring (s : str) (i start : nat) (acc : str) : sres str :=
  match s with
  | [] => inl (UnterminatedString, start)
  | c :: t =>
      if (c =? 34)%N then inr (rev acc, t, S i)
      else if (c =? 92)%N then
        match t with
        | [] => inl (UnterminatedString, start)
        | e :: t1 =>
            if (e =? 117)%N then
              match t1 with
              | h1 :: h2 :: h3 :: h4 :: t2 =>
                  match hex4 h1 h2 h3 h4 with
                  | None => inl (InvalidUnicodeEscape, S i)
                  | Some u =>
                      match t2 with
                      | b :: u' :: g1 :: g2 :: g3 :: g4 :: ((_ :: _) as t3) =>
                          if (is_high_surrogate u && (b =? 92) && (u' =? 117))%N
                          then
                            match hex4 g1 g2 g3 g4 with
                            | None => inl (InvalidUnicodeEscape, 7 + i)
                            | Some u2 =>
                                if is_low_surrogate u2
                                then scanstring t3 (12 + i) start
                                       (join_surrogates u u2 :: acc)
                                else scanstring t2 (6 + i) start (u :: acc)
                            end
                          else scanstring t2 (6 + i) start (u :: acc)
                      | _ => scanstring t2 (6 + i) start (u :: acc)
                      end
                  end
              | _ => inl (InvalidUnicodeEscape, S i)
              end
            else
              match simple_escape e with
              | Some ch => scanstring t1 (2 + i) start (ch :: acc)
              | None => inl (InvalidEscape, i)
              end
        end
      else if (c <=? 31)%N then inl (InvalidControlCharacter, i)
      else scanstring t (S i) start (c :: acc)
  end.

Fixpoint span_digits (s : str) : str * str :=
  match s with
  | c :: t =>
      if is_digit c then let (ds, r) := span_digits t in (c :: ds, r)
      else ([], s)
  | [] => ([], [])
  end.

Definition digits_value (ds : str) : Z :=
  fold_left (fun acc c => (acc * 10 + Z.of_N (c - 48))%Z) ds 0%Z.

(** The number matcher of the scanner: an optional sign, an integer part
    without superfluous leading zero, an optional fraction and an optional
    exponent.  Returns the value and the text left. *)
Definition match_number (s : str) : option (json * str) :=
  let '(neg, s1) :=
    match s with
    | c :: t => if (c =? 45)%N then (true, t) else (false, s)
    | [] => (false, s)
    end in
  match s1 with
  | [] => None
  | d :: t =>
      let int_part :=
        if (d =? 48)%N then Some ([d], t)
        else if is_digit d then
          let (ds, r) := span_digits t in Some (d :: ds, r)
        else None in
      match int_part with
      | None => None
      | Some (ip, r) =>
          let '(frac, r1) :=
            match r with
            | p :: d2 :: r' =>
                if ((p =? 46)%N && is_digit d2)%bool
                then let (fs, r'') := span_digits r' in (p :: d2 :: fs, r'')
                else ([], r)
            | _ => ([], r)
            end in
          let '(ex, r2) :=
            match r1 with
            | e :: r' =>
                if ((e =? 101) || (e =? 69))%N then
                  let '(sg, r'') :=
                    match r' with
                    | g :: x => if ((g =? 43) || (g =? 45))%N then ([g], x) else ([], r')
                    | [] => ([], r')
                    end in
                  let (es, r3) := span_digits r'' in
                  match es with
                  | [] => ([], r1)
                  | _ => (e :: sg ++ es, r3)
                  end
                else ([], r1)
            | [] => ([], r1)
            end in
          let sign := if neg then [45%N] else [] in
          match frac, ex with
          | [], [] =>
              Some (JInt (if neg then - digits_value ip else digits_value ip)%Z, r2)
          | _, _ => Some (JFloat (sign ++ ip ++ frac ++ ex), r2)
          end
      end
  end.

Definition advance (s rest : str) (i : nat) : nat := i + (length s - length rest).

(** [scan_once], with the object and array parsers it is mutually
    recursive with.  [parse_members] is entered after a key's opening quote
    has been seen to follow; [parse_items] at the start of an item. *)
Fixpoint scan_once (fuel : nat) (s : str) (i : nat) {struct fuel} : sres json :=
  match fuel with
  | O => inl (ExpectingValue, i)
  | S f =>
      match s with
      | [] => inl (ExpectingValue, i)
      | c :: t =>
          if (c =? 34)%N then
            match scanstring t (S i) i [] with
            | inl e => inl e
            | inr (v, r, j) => inr (JStr v, r, j)
            end
          else if (c =? 123)%N then
            let (t', i') := skip_ws t (S i) in
            match t' with
            | c' :: r =>
                if (c' =? 125)%N then inr (JObj [], r, S i')
                else parse_members f t' i' []
            | [] => inl (ExpectingPropertyName, i')
            end
          else if (c =? 91)%N then
            let (t', i') := skip_ws t (S i) in
            match t' with
            | c' :: r =>
                if (c' =? 93)%N then inr (JArr [], r, S i')
                else parse_items f t' i' []
            | [] => inl (ExpectingValue, i')
            end
          else if startswith (lit "null") s then inr (JNull, skipn 4 s, 4 + i)
          else if startswith (lit "true") s then inr (JBool true, skipn 4 s, 4 + i)
          else if startswith (lit "false") s then inr (JBool false, skipn 5 s, 5 + i)
          else if startswith (lit "NaN") s then inr (JFloat (lit "NaN"), skipn 3 s, 3 + i)
          else if startswith (lit "Infinity") s
               then inr (JFloat (lit "Infinity"), skipn 8 s, 8 + i)
          else if startswith (lit "-Infinity") s
               then inr (JFloat (lit "-Infinity"), skipn 9 s, 9 + i)
          else
            match match_number s with
            | Some (v, r) => inr (v, r, advance s r i)
            | None => inl (ExpectingValue, i)
            end
      end
  end

with parse_members (fuel : nat) (s : str) (i : nat) (acc : list (str * json))
       {struct fuel} : sres json :=
  match fuel with
  | O => inl (ExpectingValue, i)
  | S f =>
      match s with
      | c :: t =>
          if (c =? 34)%N then
            match scanstring t (S i) i [] with
            | inl e => inl e
            | inr (k, r, j) =>
                let (r1, j1) := skip_ws r j in
                match r1 with
                | c1 :: r2 =>
                    if (c1 =? 58)%N then
                      let (r3, j3) := skip_ws r2 (S j1) in
                      match scan_once f r3 j3 with
                      | inl e => inl e
                      | inr (v, r4, j4) =>
                          let (r5, j5) := skip_ws r4 j4 in
                          match r5 with
                          | c5 :: r6 =>
                              if (c5 =? 125)%N
                              then inr (JObj (dict_of_pairs (rev ((k, v) :: acc))), r6, S j5)
                              else if (c5 =? 44)%N then
                                let (r7, j7) := skip_ws r6 (S j5) in
                                parse_members f r7 j7 ((k, v) :: acc)
                              else inl (ExpectingComma, j5)
                          | [] => inl (ExpectingComma, j5)
                          end
                      end
                    else inl (ExpectingColon, j1)
                | [] => inl (ExpectingColon, j1)
                end
            end
          else inl (ExpectingPropertyName, i)
      | [] => inl (ExpectingPropertyName, i)
      end
  end

with parse_items (fuel : nat) (s : str) (i : nat) (acc : list json)
       {struct fuel} : sres json :=
  match fuel with
  | O => inl (ExpectingValue, i)
  | S f =>
      match scan_once f s i with
      | inl e => inl e
      | inr (v, r, j) =>
          let (r1, j1) := skip_ws r j in
          match r1 with
          | c1 :: r2 =>
              if (c1 =? 93)%N then inr (JArr (rev (v :: acc)), r2, S j1)
              else if (c1 =? 44)%N then
                let (r3, j3) := skip_ws r2 (S j1) in
                parse_items f r3 j3 (v :: acc)
              else inl (ExpectingComma, j1)
          | [] => inl (ExpectingComma, j1)
          end
      end
  end.

Definition fuel_for (s : str) : nat := 2 * length s + 2.

(** Line and column of a position, as [JSONDecodeError.__init__] computes them. *)
Definition lineno (doc : str) (pos : nat) : nat :=
  S (count_occ N.eq_dec (firstn pos doc) 10%N).

Definition colno (doc : str) (pos : nat) : nat :=
  let before := firstn pos doc in
  let k := rfind 10%N before in
  Z.to_nat (Z.of_nat pos - k).

End Json.
Import Json.

(** ** Exceptions and fallible code *)

Module Py.

(** The exceptions the modelled code can meet.  Only subclasses of
    [Exception] occur; [OtherError] stands for any exception class of a
    collaborator (a provider, the callback, the file system), given by its
    class name and its message. *)
Inductive exn :=
| JSONDecodeError (msg : decode_msg) (pos line col : nat)
| KeyError (key : str)
| EnumValueError (value : json) (enum : str)
| ValidationError (model : str) (fields : list str)
| TypeError (value : json) (op : str)
| AttributeError (value : json) (attr : str)
| TimeoutError
| OtherError (cls msg : str).

(** [isinstance(e, KeyError)] and [isinstance(e, ValueError)]:
    [json.JSONDecodeError] and pydantic's [ValidationError] derive from
    [ValueError]. *)
Definition is_KeyError (e : exn) : bool :=
  match e with KeyError _ => true | _ => false end.

Definition is_ValueError (e : exn) : bool :=
  match e with
  | JSONDecodeError _ _ _ _ | EnumValueError _ _ | ValidationError _ _ => true
  | _ => false
  end.

Definition is_TimeoutError (e : exn) : bool :=
  match e with TimeoutError => true | _ => false end.

Inductive result (A : Type) : Type :=
| Ok (a : A)
| Raise (e : exn).
Arguments Ok {A} a.
Arguments Raise {A} e.

Definition bind {A B : Type} (c : result A) (k : A -> result B) : result B :=
  match c with
  | Ok a => k a
  | Raise e => Raise e
  end.

Definition decode_error (doc : str) (m : decode_msg) (pos : nat) : exn :=
  JSONDecodeError m pos (lineno doc pos) (colno doc pos).

Definition decode_msg_text (m : decode_msg) : str :=
  match m with
  | ExtraData => lit "Extra data"
  | ExpectingValue => lit "Expecting value"
  | ExpectingPropertyName => lit "Expecting property name enclosed in double quotes"
  | ExpectingColon => lit "Expecting ':' delimiter"
  | ExpectingComma => lit "Expecting ',' delimiter"
  | UnterminatedString => lit "Unterminated string starting at"
  | InvalidControlCharacter => lit "Invalid control character at"
  | InvalidEscape => lit "Invalid \escape"
  | InvalidUnicodeEscape => lit "Invalid \uXXXX escape"
  | UnexpectedBOM => lit "Unexpected UTF-8 BOM (decode using utf-8-sig)"
  end.

(** [str(e)] for a [JSONDecodeError]: "msg: line l column c (char p)". *)
Definition decode_error_str (m : decode_msg) (pos line col : nat) : str :=
  decode_msg_text m ++ lit ": line " ++ dec_nat line ++ lit " column "
  ++ dec_nat col ++ lit " (char " ++ dec_nat pos ++ lit ")".

(** [JSONDecoder.raw_decode(s)]: scanning starts at index 0, without
    skipping white space; the text left over is returned in place of the
    end index. *)
Definition raw_decode (s : str) : result (json * str) :=
  match scan_once (fuel_for s) s 0 with
  | inr (v, rest, _) => Ok (v, rest)
  | inl (m, p) => Raise (decode_error s m p)
  end.

(** [json.loads(s)]: white space is skipped on both sides of the value,
    and anything left after it is "Extra data". *)
Definition json_loads (s : str) : result json :=
  if startswith [65279%N] s then Raise (decode_error s UnexpectedBOM 0)
  else
    let (s0, i0) := skip_ws s 0 in
    match scan_once (fuel_for s) s0 i0 with
    | inl (m, p) => Raise (decode_error s m p)
    | inr (v, rest, j) =>
        let (rest', j') := skip_ws rest j in
        match rest' with
        | [] => Ok v
        | _ :: _ => Raise (decode_error s ExtraData j')
        end
    end.

(** [d[key]] on an arbitrary value. *)
Definition subscript (v : json) (key : str) : result json :=
  match v with
  | JObj d =>
      match dict_get key d with
      | Some x => Ok x
      | None => Raise (KeyError key)
      end
  | _ => Raise (TypeError v (lit "[]"))
  end.

(** [v.items()] *)
Definition items (v : json) : result (list (str * json)) :=
  match v with
  | JObj d => Ok d
  | _ => Raise (AttributeError v (lit "items"))
  end.

(** [v.get(key)] and [v.get(key, default)] *)
Definition get (v : json) (key : str) (default : json) : result json :=
  match v with
  | JObj d =>
      match dict_get key d with
      | Some x => Ok x
      | None => Ok default
      end
  | _ => Raise (AttributeError v (lit "get"))
  end.

(** The significand of a float literal (what precedes the exponent mark). *)
Fixpoint break_exponent (l : str) : str * str :=
  match l with
  | [] => ([], [])
  | c :: t =>
      if ((c =? 101) || (c =? 69))%N then ([], l)
      else let (a, b) := break_exponent t in (c :: a, b)
  end.

(** Truth value of an object; a float is false when it is zero (a zero
    significand; underflow of the exponent is not considered). *)
Definition truthy (v : json) : bool :=
  match v with
  | JNull => false
  | JBool b => b
  | JInt z => negb (z =? 0)%Z
  | JFloat l => negb (forallb (fun c => negb (is_digit c) || (c =? 48)%N)
                        (fst (break_exponent l)))
  | JStr s => match s with [] => false | _ => true end
  | JArr l => match l with [] => false | _ => true end
  | JObj d => match d with [] => false | _ => true end
  end.

(** pydantic's validation of a [str] field and of an [Optional[str]] one. *)
Definition as_str (v : json) : option str :=
  match v with JStr s => Some s | _ => None end.

Definition as_optional_str (v : json) : option (option str) :=
  match v with
  | JStr s => Some (Some s)
  | JNull => Some None
  | _ => None
  end.

Definition as_dict (v : json) : option dict :=
  match v with JObj d => Some d | _ => None end.

Fixpoint all_dicts (vs : list json) : option (list dict) :=
  match vs with
  | [] => Some []
  | v :: t =>
      match as_dict v, all_dicts t with
      | Some d, Some ds => Some (d :: ds)
      | _, _ => None
      end
  end.

End Py.
Import Py.

Declare Scope py_scope.
Delimit Scope py_scope with py.
Notation "x <- c ;; k" := (bind c (fun x => k))
  (at level 61, c at next level, right associativity) : py_scope.
Open Scope py_scope.

(** ** Data model ([evaluation/models.py], [benchmark/models.py], [providers/base.py]) *)

Module Models.

Inductive EvaluationCriteria :=
| TASK_PERFORMANCE
| RESPONSE_QUALITY
| LANGUAGE_QUALITY
| TOOL_USAGE
| FACTUAL_ACCURACY.

Definition criteria_value (c : EvaluationCriteria) : str :=
  match c with
  | TASK_PERFORMANCE => lit "task_performance"
  | RESPONSE_QUALITY => lit "response_quality"
  | LANGUAGE_QUALITY => lit "language_quality"
  | TOOL_USAGE => lit "tool_usage"
  | FACTUAL_ACCURACY => lit "factual_accuracy"
  end.

(** [for criteria in EvaluationCriteria]: the members in definition order. *)
Definition all_criteria : list EvaluationCriteria :=
  [TASK_PERFORMANCE; RESPONSE_QUALITY; LANGUAGE_QUALITY; TOOL_USAGE; FACTUAL_ACCURACY].

Definition criteria_eqb (a b : EvaluationCriteria) : bool :=
  match a, b with
  | TASK_PERFORMANCE, TASK_PERFORMANCE
  | RESPONSE_QUALITY, RESPONSE_QUALITY
  | LANGUAGE_QUALITY, LANGUAGE_QUALITY
  | TOOL_USAGE, TOOL_USAGE
  | FACTUAL_ACCURACY, FACTUAL_ACCURACY => true
  | _, _ => false
  end.

(** [EvaluationCriteria(name)]: lookup of a member by value. *)
Definition EvaluationCriteria_of (name : str) : result EvaluationCriteria :=
  match List.find (fun c => str_eqb name (criteria_value c)) all_criteria with
  | Some c => Ok c
  | None => Raise (EnumValueError (JStr name) (lit "EvaluationCriteria"))
  end.

Inductive ScoreLevel :=
| EXCELLENT
| GOOD
| SATISFACTORY
| POOR
| VERY_POOR.

Definition level_value (l : ScoreLevel) : str :=
  match l with
  | EXCELLENT => lit "excellent"
  | GOOD => lit "good"
  | SATISFACTORY => lit "satisfactory"
  | POOR => lit "poor"
  | VERY_POOR => lit "very_poor"
  end.

Definition all_levels : list ScoreLevel :=
  [EXCELLENT; GOOD; SATISFACTORY; POOR; VERY_POOR].

(** [ScoreLevel(v)] for an arbitrary value [v]. *)
Definition ScoreLevel_of (v : json) : result ScoreLevel :=
  match v with
  | JStr s =>
      match List.find (fun l => str_eqb s (level_value l)) all_levels with
      | Some l => Ok l
      | None => Raise (EnumValueError v (lit "ScoreLevel"))
      end
  | _ => Raise (EnumValueError v (lit "ScoreLevel"))
  end.

Definition SCORE_VALUES (l : ScoreLevel) : Z :=
  match l with
  | EXCELLENT => 5
  | GOOD => 4
  | SATISFACTORY => 3
  | POOR => 2
  | VERY_POOR => 1
  end.

Record CriteriaScore := {
  criteria : EvaluationCriteria;
  score : ScoreLevel;
  reasoning : str;
  score_value : Z
}.

(** [CriteriaScore.__init__] with keyword data: [score_value] is filled in from
    [SCORE_VALUES] when the caller does not pass it; [reasoning] is
    validated as a [str]. *)
Definition CriteriaScore_init (criteria : EvaluationCriteria) (score : ScoreLevel)
    (reasoning : json) (score_value : option Z) : result CriteriaScore :=
  let value :=
    match score_value with
    | Some v => v
    | None => SCORE_VALUES score
    end in
  match as_str reasoning with
  | Some r => Ok {| criteria := criteria; score := score;
                    reasoning := r; score_value := value |}
  | None => Raise (ValidationError (lit "CriteriaScore") [lit "reasoning"])
  end.

Record ModelResponse := {
  content : str;
  usage : option (list (str * Z));
  model : str;
  provider : str;
  tool_calls : list dict;
  mr_error : option str;
  latency_ms : option float
}.

Record ToolCall := {
  tc_name : str;
  arguments : dict;
  call_id : option str
}.

Record Message := {
  role : str;
  msg_content : str;
  msg_tool_calls : list ToolCall;
  tool_call_id : option str
}.

Record ModelConfig := {
  model_name : str;
  temperature : float;
  max_tokens : Z
}.

Record TestCase := {
  id : str;
  tc_scenario_type : str;
  tc_user_query : str;
  tc_expected_behavior : str
}.

(** A [datetime], as seconds on the clock that [time.time()] reads. *)
Definition datetime := float.

Record TestResult := {
  test_case_id : str;
  model_id : str;
  scenario_type : str;
  user_query : str;
  model_response : ModelResponse;
  tool_calls_made : list dict;
  tool_results : list dict;
  execution_time_ms : float;
  timestamp : datetime;
  error : option str
}.

Record EvaluationResult := {
  ev_test_case_id : str;
  ev_model_id : str;
  ev_scenario_type : str;
  ev_user_query : str;
  ev_model_response : str;
  expected_behavior : str;
  scores : list CriteriaScore;
  overall_score : float;
  ev_tool_calls_made : list dict;
  ev_tool_results : list dict;
  judge_model : str;
  evaluation_timestamp : str;
  additional_notes : option str
}.

Record EvaluationConfig := {
  cfg_judge_model : str;
  cfg_temperature : float;
  criteria_weights : list (EvaluationCriteria * float);
  max_retries : Z;
  timeout_seconds : Z
}.

(** [weights.get(criteria, default)] *)
Fixpoint weights_get (w : list (EvaluationCriteria * float))
    (c : EvaluationCriteria) (default : float) : float :=
  match w with
  | [] => default
  | (c', x) :: t => if criteria_eqb c c' then x else weights_get t c default
  end.

(** The default of [EvaluationConfig.criteria_weights]. *)
Definition default_weights : list (EvaluationCriteria * float) :=
  [(TASK_PERFORMANCE, 0.30%float);
   (RESPONSE_QUALITY, 0.25%float);
   (LANGUAGE_QUALITY, 0.15%float);
   (TOOL_USAGE, 0.15%float);
   (FACTUAL_ACCURACY, 0.15%float)].

Definition default_config : EvaluationConfig :=
  {| cfg_judge_model := lit "gpt-4o";
     cfg_temperature := 0.1%float;
     criteria_weights := default_weights;
     max_retries := 2;
     timeout_seconds := 60 |}.

Inductive BenchmarkStatus :=
| PENDING
| RUNNING
| COMPLETED
| FAILED
| CANCELLED.

Record ModelBenchmarkResults := {
  mb_model_id : str;
  test_results : list TestResult;
  summary_stats : dict;
  status : BenchmarkStatus;
  start_time : option datetime;
  end_time : option datetime;
  total_duration_ms : option float
}.

Record BenchmarkConfig := {
  concurrent_models : Z;
  timeout_per_test : Z;
  save_intermediate_results : bool;
  include_tool_execution : bool
}.

Record BenchmarkProgress := {
  total_tests : nat;
  completed_tests : nat;
  failed_tests : nat;
  current_model : option str;
  progress_percentage : float
}.

(** [ToolCall(name=..., arguments=..., call_id=...)]: pydantic validates a
    [str], a [dict] and an optional [str]. *)
Definition ToolCall_init (name arguments call_id : json) : result ToolCall :=
  match as_str name, as_dict arguments, as_optional_str call_id with
  | Some n, Some a, Some c =>
      Ok {| tc_name := n; Models.arguments := a; Models.call_id := c |}
  | _, _, _ => Raise (ValidationError (lit "ToolCall") [])
  end.

(** [TestResult(...)] as the executor calls it: [tool_results] must be a
    list of dicts; the other arguments are already of their field's type. *)
Definition TestResult_init (test_case : TestCase) (model_id : str)
    (model_response : ModelResponse) (tool_calls_made : list dict)
    (tool_results : list json) (execution_time_ms : float) (timestamp : datetime)
    (error : option str) : result TestResult :=
  match all_dicts tool_results with
  | Some results =>
      Ok {| test_case_id := test_case.(id);
            Models.model_id := model_id;
            scenario_type := test_case.(tc_scenario_type);
            user_query := test_case.(tc_user_query);
            Models.model_response := model_response;
            Models.tool_calls_made := tool_calls_made;
            Models.tool_results := results;
            Models.execution_time_ms := execution_time_ms;
            Models.timestamp := timestamp;
            Models.error := error |}
  | None => Raise (ValidationError (lit "TestResult") [lit "tool_results"])
  end.

End Models.
Import Models.

(** ** What the interpreter and the collaborators decide

    [render_exn e] is [str(e)] for the exceptions whose text the
    interpreter or a library words ([KeyError], enum lookups, pydantic, ...);
    a [JSONDecodeError] has the fixed format above.
    [create_evaluation_prompt] is [LLMJudge._create_evaluation_prompt]: it
    only formats text for the judge model (and may raise while doing so);
    no result below depends on the prompt other than through the provider
    that receives it.  [json_dumps] is [json.dumps(_, ensure_ascii=False)]. *)
Class Interp := {
  render_exn : exn -> str;
  create_evaluation_prompt : TestResult -> dict -> result str;
  json_dumps : json -> str
}.

(** [str(e)] *)
Definition exn_str {I : Interp} (e : exn) : str :=
  match e with
  | JSONDecodeError m pos line col => decode_error_str m pos line col
  | _ => render_exn e
  end.

(** ** Numbers *)

Module Num.

(** An [int] as a [float] (exact below 2^53). *)
Definition Z2F (z : Z) : float :=
  if (z <? 0)%Z then PrimFloat.opp (PrimFloat.of_uint63 (Uint63.of_Z (- z)))
  else PrimFloat.of_uint63 (Uint63.of_Z z).

(** The built-in [sum] over floats: left to right from [0] (CPython up to
    3.11; later versions compensate the rounding errors). *)
Definition py_sum (xs : list float) : float :=
  fold_left PrimFloat.add xs 0%float.

Definition Zsum (xs : list Z) : Z := fold_left Z.add xs 0%Z.

(** Round half to even of [m * 2^e], for [m >= 0]. *)
Definition round_half_even (m e : Z) : Z :=
  if (0 <=? e)%Z then (m * 2 ^ e)%Z
  else
    let d := (2 ^ (- e))%Z in
    let q := (m / d)%Z in
    let r := (m mod d)%Z in
    if (2 * r <? d)%Z then q
    else if (d <? 2 * r)%Z then (q + 1)%Z
    else if Z.even q then q else (q + 1)%Z.

(** The built-in [round(x)] of a float: the nearest integer, ties going to
    the even one; it raises on NaN and on the infinities. *)
Definition py_round (x : float) : result Z :=
  match Prim2SF x with
  | S754_zero _ => Ok 0%Z
  | S754_finite s m e =>
      let n := round_half_even (Zpos m) e in
      Ok (if s then (- n)%Z else n)
  | S754_infinity _ => Raise (OtherError (lit "OverflowError") (lit "cannot convert float infinity to integer"))
  | S754_nan => Raise (OtherError (lit "ValueError") (lit "cannot convert float NaN to integer"))
  end.

(** [round(a / n)] for ints [a] and [n > 0].  The quotient is a float;
    while [|a| < 2^52] the float nearest to [a / n] rounds to the same
    integer as [a / n] itself (a tie is represented exactly), so the result
    is the exact quotient rounded to the nearest integer, ties to even. *)
Definition round_div (a n : Z) : Z :=
  let q := (a / n)%Z in
  let r := (a mod n)%Z in
  if (2 * r <? n)%Z then q
  else if (n <? 2 * r)%Z then (q + 1)%Z
  else if Z.even q then q else (q + 1)%Z.

End Num.
Import Num.

(** ** The LLM judge ([evaluation/judge.py]) *)

Module Judge.

Section WithInterp.
Context {I : Interp}.

(** The judge with what it holds: its configuration, the factory's
    [models_config], and its provider.  [judge_provider messages cfg] is
    [asyncio.wait_for(self.judge_provider.generate_response(messages, cfg),
    timeout)]: a response, or an exception ([TimeoutError] when the call
    does not resolve in time). *)
Record LLMJudge := {
  config : EvaluationConfig;
  models_config : json;
  judge_provider : list Message -> ModelConfig -> result ModelResponse
}.

(** [ctx.get("expected_behavior", default)] with the empty text as default *)
Definition ctx_expected_behavior (test_case_context : dict) : json :=
  match dict_get (lit "expected_behavior") test_case_context with
  | Some v => v
  | None => JStr []
  end.

(** [EvaluationResult(...)] as the judge calls it: the ids and the tool
    data come from the (validated) test result; [expected_behavior] must be
    a [str] and [additional_notes] a [str] or [None]. *)
Definition EvaluationResult_init (test_result : TestResult)
    (expected_behavior : json) (scores : list CriteriaScore)
    (overall_score : float) (judge_model now : str) (additional_notes : json)
    : result EvaluationResult :=
  match as_str expected_behavior, as_optional_str additional_notes with
  | Some eb, Some notes =>
      Ok {| ev_test_case_id := test_result.(test_case_id);
            ev_model_id := test_result.(model_id);
            ev_scenario_type := test_result.(scenario_type);
            ev_user_query := test_result.(user_query);
            ev_model_response := test_result.(model_response).(content);
            expected_behavior := eb;
            scores := scores;
            overall_score := overall_score;
            ev_tool_calls_made := test_result.(tool_calls_made);
            ev_tool_results := test_result.(tool_results);
            judge_model := judge_model;
            evaluation_timestamp := now;
            additional_notes := notes |}
  | eb, notes =>
      Raise (ValidationError (lit "EvaluationResult")
               ((match eb with None => [lit "expected_behavior"] | _ => [] end)
                ++ (match notes with None => [lit "additional_notes"] | _ => [] end)))
  end.

(** A [for] loop that appends one constructed item per element. *)
Fixpoint for_each {A B : Type} (f : A -> result B) (l : list A) : result (list B) :=
  match l with
  | [] => Ok []
  | a :: t => b <- f a ;; bs <- for_each f t ;; Ok (b :: bs)
  end.

Definition _create_fallback_evaluation (self : LLMJudge) (now : str)
    (test_result : TestResult) (test_case_context : dict) (error_msg : str)
    : result EvaluationResult :=
  scores <- for_each (fun criteria =>
              CriteriaScore_init criteria SATISFACTORY
                (JStr (lit "Evaluation failed: " ++ error_msg)) None)
            all_criteria ;;
  EvaluationResult_init test_result (ctx_expected_behavior test_case_context)
    scores 3%float self.(config).(cfg_judge_model) now
    (JStr (lit "Fallback evaluation due to error: " ++ error_msg)).

Definition _calculate_weighted_score (self : LLMJudge) (scores : list CriteriaScore)
    : float :=
  let '(total_score, total_weight) :=
    fold_left
      (fun acc score =>
         let weight := weights_get self.(config).(criteria_weights)
                         score.(criteria) 0.2%float in
         ((fst acc + Z2F score.(score_value) * weight)%float,
          (snd acc + weight)%float))
      scores (0%float, 0%float) in
  if (0 <? total_weight)%float then (total_score / total_weight)%float
  else 3%float.

(** [score_mapping.get(score_value, ScoreLevel.SATISFACTORY)] *)
Definition score_mapping_get (score_value : Z) : ScoreLevel :=
  if (score_value =? 5)%Z then EXCELLENT
  else if (score_value =? 4)%Z then GOOD
  else if (score_value =? 3)%Z then SATISFACTORY
  else if (score_value =? 2)%Z then POOR
  else if (score_value =? 1)%Z then VERY_POOR
  else SATISFACTORY.

(** The body of the inner [try] for one entry of the verdict.  A [bool]
    is an [int] for [isinstance]: [True] is [1] and [False] is [0]. *)
Definition parse_criterion (criteria_name : str) (criteria_data : json)
    : result CriteriaScore :=
  criteria <- EvaluationCriteria_of criteria_name ;;
  score_value <- subscript criteria_data (lit "score") ;;
  score_level <-
    match score_value with
    | JInt z => Ok (score_mapping_get z)
    | JBool b => Ok (score_mapping_get (if b then 1 else 0)%Z)
    | _ => ScoreLevel_of score_value
    end ;;
  reasoning <- subscript criteria_data (lit "reasoning") ;;
  CriteriaScore_init criteria score_level reasoning None.

(** The inner [try] with its [except (KeyError, ValueError)] handler. *)
Definition parse_entry (criteria_name : str) (criteria_data : json)
    : result CriteriaScore :=
  match parse_criterion criteria_name criteria_data with
  | Ok cs => Ok cs
  | Raise e =>
      if is_KeyError e || is_ValueError e then
        criteria <- EvaluationCriteria_of criteria_name ;;
        CriteriaScore_init criteria SATISFACTORY
          (JStr (lit "Failed to parse score: " ++ exn_str e)) None
      else Raise e
  end.

(** The loop over [evaluation_data.items()]. *)
Fixpoint parse_scores (entries : list (str * json)) : result (list CriteriaScore) :=
  match entries with
  | [] => Ok []
  | (criteria_name, criteria_data) :: rest =>
      if str_eqb criteria_name (lit "additional_notes") then parse_scores rest
      else
        cs <- parse_entry criteria_name criteria_data ;;
        more <- parse_scores rest ;;
        Ok (cs :: more)
  end.

(** The body of the outer [try] of [_parse_evaluation_response]. *)
Definition parse_body (self : LLMJudge) (now : str) (response_content : str)
    (test_result : TestResult) (test_case_context : dict)
    : result EvaluationResult :=
  evaluation_data <- json_loads (Trim.extract_json_text response_content) ;;
  entries <- items evaluation_data ;;
  scores <- parse_scores entries ;;
  let overall_score := _calculate_weighted_score self scores in
  notes <- get evaluation_data (lit "additional_notes") JNull ;;
  EvaluationResult_init test_result (ctx_expected_behavior test_case_context)
    scores overall_score self.(config).(cfg_judge_model) now notes.

Definition _parse_evaluation_response (self : LLMJudge) (now : str)
    (response_content : str) (test_result : TestResult) (test_case_context : dict)
    : result EvaluationResult :=
  match parse_body self now response_content test_result test_case_context with
  | Ok ev => Ok ev
  | Raise e =>
      _create_fallback_evaluation self now test_result test_case_context
        (lit "Parse error: " ++ exn_str e)
  end.

(** The statements of [evaluate_test_result] up to the awaited response. *)
Definition judge_call (self : LLMJudge) (test_result : TestResult)
    (test_case_context : dict) : result ModelResponse :=
  evaluation_prompt <- create_evaluation_prompt test_result test_case_context ;;
  let messages := [ {| role := lit "user"; msg_content := evaluation_prompt;
                       msg_tool_calls := []; tool_call_id := None |} ] in
  models <- get self.(models_config) (lit "models") (JObj []) ;;
  judge_model_config <- get models self.(config).(cfg_judge_model) JNull ;;
  actual_model_name <-
    (if truthy judge_model_config
     then get judge_model_config (lit "model_name") JNull
     else Ok (JStr self.(config).(cfg_judge_model))) ;;
  model_config <-
    match as_str actual_model_name with
    | Some n => Ok {| model_name := n;
                      temperature := self.(config).(cfg_temperature);
                      max_tokens := 2000 |}
    | None => Raise (ValidationError (lit "ModelConfig") [lit "model_name"])
    end ;;
  self.(judge_provider) messages model_config.

Definition evaluate_test_result (self : LLMJudge) (now : str)
    (test_result : TestResult) (test_case_context : dict)
    : result EvaluationResult :=
  match
    (response <- judge_call self test_result test_case_context ;;
     _parse_evaluation_response self now response.(content)
       test_result test_case_context)
  with
  | Ok evaluation => Ok evaluation
  | Raise e =>
      _create_fallback_evaluation self now test_result test_case_context (exn_str e)
  end.

End WithInterp.

End Judge.
Import Judge.

(** ** A reference interpretation, to run the model on concrete inputs *)

Module Reference.

(** A short rendering of a value, exact for texts without quotes or
    escapes, for ints, booleans and [None]. *)
Definition repr (v : json) : str :=
  match v with
  | JNull => lit "None"
  | JBool true => lit "True"
  | JBool false => lit "False"
  | JInt z => dec z
  | JFloat l => l
  | JStr s => lit "'" ++ s ++ lit "'"
  | JArr _ => lit "[...]"
  | JObj _ => lit "{...}"
  end.

Definition render (e : exn) : str :=
  match e with
  | JSONDecodeError m pos line col => decode_error_str m pos line col
  | KeyError k => repr (JStr k)
  | EnumValueError v enum => repr v ++ lit " is not a valid " ++ enum
  | ValidationError m fields =>
      dec_nat (length fields) ++ lit " validation error for " ++ m
  | TypeError v op => lit "unsupported operand for " ++ op
  | AttributeError v attr => lit "object has no attribute '" ++ attr ++ lit "'"
  | TimeoutError => []
  | OtherError _ msg => msg
  end.

#[export] Instance interp : Interp := {
  render_exn := render;
  create_evaluation_prompt := fun test_result _ => Ok test_result.(user_query);
  json_dumps := repr
}.

End Reference.

(** ** Consensus of several judges ([evaluation/multi_judge.py]) *)

Module MultiJudge.

Section WithInterp.
Context {I : Interp}.

(** The inner loop over [evaluation.scores] with its [break]: the first
    score of the criterion, if the judge gave one. *)
Definition first_score (criteria : EvaluationCriteria) (evaluation : EvaluationResult)
    : option CriteriaScore :=
  List.find (fun score => criteria_eqb score.(Models.criteria) criteria)
    evaluation.(scores).

(** The loop over [judge_evaluations.items()] for one criterion: the judges
    that scored it, with the score each gave. *)
Fixpoint scored_by (criteria : EvaluationCriteria)
    (judge_evaluations : list (str * EvaluationResult)) : list (str * CriteriaScore) :=
  match judge_evaluations with
  | [] => []
  | (judge_model, evaluation) :: rest =>
      match first_score criteria evaluation with
      | Some score => (judge_model, score) :: scored_by criteria rest
      | None => scored_by criteria rest
      end
  end.

(** [{v: k for k, v in SCORE_VALUES.items()}[value]] *)
Definition score_level_map (value : Z) : result ScoreLevel :=
  match List.find (fun l => (SCORE_VALUES l =? value)%Z) all_levels with
  | Some l => Ok l
  | None => Raise (KeyError (dec value))
  end.

Definition consensus_for_criteria (criteria : EvaluationCriteria)
    (judge_evaluations : list (str * EvaluationResult)) : result (list CriteriaScore) :=
  let found := scored_by criteria judge_evaluations in
  let criteria_scores := List.map (fun js => (snd js).(score_value)) found in
  let criteria_reasonings :=
    List.map (fun js => fst js ++ lit ": " ++ (snd js).(reasoning)) found in
  match criteria_scores with
  | [] => Ok []
  | _ :: _ =>
      let rounded := round_div (Zsum criteria_scores)
                       (Z.of_nat (length criteria_scores)) in
      let consensus_score_value := Z.max 1 (Z.min 5 rounded) in
      consensus_score_level <- score_level_map consensus_score_value ;;
      let combined_reasoning :=
        lit "Consensus from " ++ dec_nat (length criteria_scores)
        ++ lit " judges (scores: " ++ dec_list criteria_scores ++ lit "). "
        ++ join (lit "; ") criteria_reasonings in
      cs <- CriteriaScore_init criteria consensus_score_level
              (JStr combined_reasoning) None ;;
      Ok [cs]
  end.

Fixpoint consensus_scores (cs : list EvaluationCriteria)
    (judge_evaluations : list (str * EvaluationResult)) : result (list CriteriaScore) :=
  match cs with
  | [] => Ok []
  | criteria :: rest =>
      here <- consensus_for_criteria criteria judge_evaluations ;;
      more <- consensus_scores rest judge_evaluations ;;
      Ok (here ++ more)
  end.

Definition combined_notes (judge_evaluations : list (str * EvaluationResult))
    : option str :=
  let additional_notes :=
    flat_map (fun je =>
                match (snd je).(Models.additional_notes) with
                | Some n => match n with
                            | [] => []
                            | _ :: _ => [fst je ++ lit ": " ++ n]
                            end
                | None => []
                end) judge_evaluations in
  match additional_notes with
  | [] => None
  | _ :: _ => Some (join (lit "; ") additional_notes)
  end.

Definition _create_consensus_for_test (now : str) (test_id : str)
    (judge_evaluations : list (str * EvaluationResult)) : result EvaluationResult :=
  match judge_evaluations with
  | [] => Raise (OtherError (lit "ValueError")
                   (lit "No evaluations found for test " ++ test_id))
  | (_, first_eval) :: _ =>
      consensus <- consensus_scores all_criteria judge_evaluations ;;
      let overall_scores :=
        List.map (fun je => (snd je).(overall_score)) judge_evaluations in
      let consensus_overall :=
        (py_sum overall_scores / Z2F (Z.of_nat (length overall_scores)))%float in
      Ok {| ev_test_case_id := first_eval.(ev_test_case_id);
            ev_model_id := first_eval.(ev_model_id);
            ev_scenario_type := first_eval.(ev_scenario_type);
            ev_user_query := first_eval.(ev_user_query);
            ev_model_response := first_eval.(ev_model_response);
            expected_behavior := first_eval.(expected_behavior);
            scores := consensus;
            overall_score := consensus_overall;
            ev_tool_calls_made := first_eval.(ev_tool_calls_made);
            ev_tool_results := first_eval.(ev_tool_results);
            judge_model := lit "consensus_of_" ++ dec_nat (length judge_evaluations)
                           ++ lit "_judges";
            evaluation_timestamp := now;
            additional_notes := combined_notes judge_evaluations |}
  end.

(** [MultiJudgeEvaluation._create_fallback_evaluation] *)
Definition _create_fallback_evaluation (now : str) (test_result : TestResult)
    (test_case_context : dict) (judge_model error_msg : str) : result EvaluationResult :=
  scores <- for_each (fun criteria =>
              CriteriaScore_init criteria SATISFACTORY
                (JStr (lit "Judge " ++ judge_model ++ lit " failed: " ++ error_msg)) None)
            all_criteria ;;
  EvaluationResult_init test_result (ctx_expected_behavior test_case_context)
    scores 3%float judge_model now
    (JStr (lit "Fallback evaluation due to judge failure: " ++ error_msg)).

(** [evaluate_test_result_multi]: every judge evaluates the same result;
    a judge whose evaluation raises is replaced by the fallback above. *)
Fixpoint evaluate_test_result_multi (judges : list (str * LLMJudge)) (now : str)
    (test_result : TestResult) (test_case_context : dict)
    : result (list (str * EvaluationResult)) :=
  match judges with
  | [] => Ok []
  | (judge_model, judge) :: rest =>
      evaluation <-
        match evaluate_test_result judge now test_result test_case_context with
        | Ok ev => Ok ev
        | Raise e =>
            _create_fallback_evaluation now test_result test_case_context
              judge_model (exn_str e)
        end ;;
      more <- evaluate_test_result_multi rest now test_result test_case_context ;;
      Ok ((judge_model, evaluation) :: more)
  end.

End WithInterp.

End MultiJudge.

(** ** The benchmark executor ([benchmark/executor.py]) *)

Module Executor.

Inductive level := DEBUG | INFO | WARNING | ERROR.
Definition log_record : Type := level * str.

(** [re.search(r'\{.*?\}(?=\s*[^\}\s]|$)', s)]: from the first opening
    brace that admits a match, the shortest run without line feed up to a
    closing brace that is followed either by optional white space and a
    character other than a closing brace, or by the end of the text (a
    final line feed allowed). *)
Definition lookahead (rest : str) : bool :=
  match lstrip rest with
  | c :: _ => negb (c =? Trim.RBRACE)%N
  | [] => false
  end
  || match rest with
     | [] => true
     | [c] => (c =? 10)%N
     | _ => false
     end.

Fixpoint lazy_close (s acc : str) : option str :=
  match s with
  | [] => None
  | c :: t =>
      if (c =? Trim.RBRACE)%N then
        if lookahead t then Some (rev (c :: acc)) else lazy_close t (c :: acc)
      else if (c =? 10)%N then None
      else lazy_close t (c :: acc)
  end.

Fixpoint re_search_object (s : str) : option str :=
  match s with
  | [] => None
  | c :: t =>
      match (if (c =? Trim.LBRACE)%N then lazy_close t [c] else None) with
      | Some m => Some m
      | None => re_search_object t
      end
  end.

Section WithInterp.
Context {I : Interp}.

(** [safe_json_loads(json_str)], with the records it logs. *)
Definition safe_json_loads (json_str : json) : list log_record * result json :=
  match json_str with
  | JStr s =>
      match json_loads s with
      | Ok v => ([], Ok v)
      | Raise e =>
          let failed := ([(ERROR, lit "Failed to parse JSON: " ++ s)], Raise e) in
          if contains (lit "Extra data") (exn_str e) then
            match raw_decode s with
            | Ok (obj, rest) =>
                ([(WARNING, lit "Found extra data after JSON: '" ++ rest ++ lit "'")],
                 Ok obj)
            | Raise _ =>
                match re_search_object s with
                | Some m =>
                    match json_loads m with
                    | Ok v => ([], Ok v)
                    | Raise _ => failed
                    end
                | None => failed
                end
            end
          else failed
      end
  | _ => ([], Ok json_str)
  end.

(** The normalisation of one tool call (lines 257-269). *)
Definition normalize_tool_call (tool_call_info : dict) : result ToolCall :=
  func <- match dict_get (lit "function") tool_call_info with
          | Some f => Ok f
          | None => Ok (JObj tool_call_info)
          end ;;
  name <- subscript func (lit "name") ;;
  raw <- subscript func (lit "arguments") ;;
  arguments <- match raw with
               | JStr _ => snd (safe_json_loads raw)
               | _ => Ok raw
               end ;;
  let call_id := match dict_get (lit "id") tool_call_info with
                 | Some v => v
                 | None => JNull
                 end in
  ToolCall_init name arguments call_id.

Section WithWorld.

(** The world outside the executor: the network, the file system and the
    clock.  [clock] is what [time.time()] and [datetime.now()] read;
    [sleep d] is [await asyncio.sleep(d)]. *)
Variable World : Type.
Variable clock : World -> float.
Variable sleep : float -> World -> World.

(** A provider.  [generate_response messages cfg tools timeout] is
    [asyncio.wait_for(provider.generate_response(messages, cfg, tools),
    timeout)]: it raises [TimeoutError] when the call does not resolve
    within [timeout] seconds. *)
Record Provider := {
  provider_name : str;
  get_default_system_prompt : str;
  get_response_formatting_prompt : str;
  get_database_tools : list json;
  generate_response :
    list Message -> ModelConfig -> option (list json) -> Z ->
    World -> result ModelResponse * World;
  execute_tool_call : ToolCall -> World -> result json * World
}.

(** What the executor owns: the world, its rate-limit map and the
    [model_results] of the current run. *)
Record St := {
  world : World;
  last_request_time : list (str * float);
  models_to_test : list str;
  estimated_total_tests : nat;
  model_results : list ModelBenchmarkResults
}.

Definition set_world (w : World) (st : St) : St :=
  {| world := w; last_request_time := st.(last_request_time);
     models_to_test := st.(models_to_test);
     estimated_total_tests := st.(estimated_total_tests);
     model_results := st.(model_results) |}.

Definition set_model_results (rs : list ModelBenchmarkResults) (st : St) : St :=
  {| world := st.(world); last_request_time := st.(last_request_time);
     models_to_test := st.(models_to_test);
     estimated_total_tests := st.(estimated_total_tests);
     model_results := rs |}.

Variable rate_limit_delay : float.

Definition _apply_rate_limit (model_id : str) (st : St) : St :=
  let current_time := clock st.(world) in
  let last_request :=
    match assoc_get model_id st.(last_request_time) with
    | Some t => t
    | None => 0%float
    end in
  let time_since_last := (current_time - last_request)%float in
  let w :=
    if (time_since_last <? rate_limit_delay)%float
    then sleep (rate_limit_delay - time_since_last)%float st.(world)
    else st.(world) in
  {| world := w;
     last_request_time := assoc_set model_id (clock w) st.(last_request_time);
     models_to_test := st.(models_to_test);
     estimated_total_tests := st.(estimated_total_tests);
     model_results := st.(model_results) |}.

Definition format_messages_with_system_prompt (provider : Provider)
    (user_query : str) : list Message :=
  [ {| role := lit "system"; msg_content := provider.(get_default_system_prompt);
       msg_tool_calls := []; tool_call_id := None |};
    {| role := lit "user"; msg_content := user_query;
       msg_tool_calls := []; tool_call_id := None |} ].

(** The variables the tool loop updates. *)
Record Loop := {
  loop_messages : list Message;
  loop_response : ModelResponse;
  calls_made : list dict;
  results : list json
}.

Definition set_content (c : str) (u : option (list (str * Z))) (r : ModelResponse)
    : ModelResponse :=
  {| content := c; usage := u; model := r.(model); provider := r.(provider);
     tool_calls := r.(tool_calls); mr_error := r.(mr_error);
     latency_ms := r.(latency_ms) |}.

(** The merge of the token usage (lines 299-304). *)
Definition merge_usage (mine final : option (list (str * Z)))
    : option (list (str * Z)) :=
  match final with
  | Some ((_ :: _) as fu) =>
      match mine with
      | Some ((_ :: _) as mu) =>
          let a := match assoc_get (lit "total_tokens") mu with Some x => x | None => 0%Z end in
          let b := match assoc_get (lit "total_tokens") fu with Some x => x | None => 0%Z end in
          Some (assoc_set (lit "total_tokens") (a + b)%Z mu)
      | _ => final
      end
  | _ => mine
  end.

Definition error_payload (e : exn) : json :=
  JObj [(lit "error", JStr (exn_str e))].

Definition append_error (e : exn) (lp : Loop) : Loop :=
  {| loop_messages := lp.(loop_messages); loop_response := lp.(loop_response);
     calls_made := lp.(calls_made);
     results := lp.(results) ++ [error_payload e] |}.

Variable config : BenchmarkConfig.

(** One iteration of the loop over [response.tool_calls] (lines 255-308). *)
Definition tool_step (provider : Provider) (model_config : ModelConfig)
    (model_id : str) (acc : Loop * St) (tool_call_info : dict) : Loop * St :=
  let (lp, st) := acc in
  match normalize_tool_call tool_call_info with
  | Raise tool_error => (append_error tool_error lp, st)
  | Ok tool_call =>
      match provider.(execute_tool_call) tool_call st.(world) with
      | (Raise tool_error, w1) => (append_error tool_error lp, set_world w1 st)
      | (Ok tool_result, w1) =>
          let appended :=
            lp.(loop_messages)
            ++ [ {| role := lit "assistant";
                    msg_content := lp.(loop_response).(content);
                    msg_tool_calls := [tool_call]; tool_call_id := None |};
                 {| role := lit "tool";
                    msg_content := json_dumps tool_result;
                    msg_tool_calls := [];
                    tool_call_id := tool_call.(call_id) |} ] in
          let system := {| role := lit "system";
                           msg_content := provider.(get_response_formatting_prompt);
                           msg_tool_calls := []; tool_call_id := None |} in
          let lp1 :=
            {| loop_messages := system :: tl appended;
               loop_response := lp.(loop_response);
               calls_made :=
                 lp.(calls_made)
                 ++ [[(lit "name", JStr tool_call.(tc_name));
                      (lit "arguments", JObj tool_call.(arguments));
                      (lit "id", match tool_call.(call_id) with
                                 | Some c => JStr c
                                 | None => JNull
                                 end)]];
               results := lp.(results) ++ [tool_result] |} in
          let st1 := _apply_rate_limit model_id (set_world w1 st) in
          match provider.(generate_response) lp1.(loop_messages) model_config None
                  config.(timeout_per_test) st1.(world) with
          | (Raise tool_error, w2) => (append_error tool_error lp1, set_world w2 st1)
          | (Ok final_response, w2) =>
              ({| loop_messages := lp1.(loop_messages);
                  loop_response := set_content final_response.(content)
                                (merge_usage lp1.(loop_response).(usage)
                                   final_response.(usage))
                                lp1.(loop_response);
                  calls_made := lp1.(calls_made);
                  results := lp1.(results) |},
               set_world w2 st1)
          end
      end
  end.

(** The two [except] clauses of [_run_single_test]. *)
Definition failed_test (provider : Provider) (model_config : ModelConfig)
    (test_case : TestCase) (model_id : str) (start_time : float) (e : exn)
    (st : St) : TestResult :=
  let execution_time := ((clock st.(world) - start_time) * 1000)%float in
  let described (response_error test_error : str) :=
    {| test_case_id := test_case.(id);
       Models.model_id := model_id;
       scenario_type := test_case.(tc_scenario_type);
       user_query := test_case.(tc_user_query);
       model_response :=
         {| content := []; usage := None;
            model := model_config.(model_name);
            provider := provider.(provider_name);
            tool_calls := []; mr_error := Some response_error;
            latency_ms := None |};
       tool_calls_made := [];
       tool_results := [];
       execution_time_ms := execution_time;
       timestamp := clock st.(world);
       error := Some test_error |} in
  if is_TimeoutError e
  then described (lit "Timeout") (lit "Test timed out")
  else described (exn_str e) (exn_str e).

Definition _run_single_test (provider : Provider) (model_config : ModelConfig)
    (test_case : TestCase) (model_id : str) (st : St) : TestResult * St :=
  let start_time := clock st.(world) in
  let messages := format_messages_with_system_prompt provider
                    test_case.(tc_user_query) in
  let tools := if config.(include_tool_execution)
               then Some provider.(get_database_tools) else None in
  match provider.(generate_response) messages model_config tools
          config.(timeout_per_test) st.(world) with
  | (Raise e, w1) =>
      let st1 := set_world w1 st in
      (failed_test provider model_config test_case model_id start_time e st1, st1)
  | (Ok response, w1) =>
      let st1 := set_world w1 st in
      let start := {| loop_messages := messages; loop_response := response;
                      calls_made := []; results := [] |} in
      let (lp, st2) :=
        match response.(tool_calls) with
        | _ :: _ =>
            if config.(include_tool_execution)
            then fold_left (tool_step provider model_config model_id)
                   response.(tool_calls) (start, st1)
            else (start, st1)
        | [] => (start, st1)
        end in
      let execution_time := ((clock st2.(world) - start_time) * 1000)%float in
      match TestResult_init test_case model_id lp.(loop_response) lp.(calls_made)
              lp.(results) execution_time (clock st2.(world)) None with
      | Ok r => (r, st2)
      | Raise e =>
          (failed_test provider model_config test_case model_id start_time e st2, st2)
      end
  end.

(** *** One model's worker ([_run_model_benchmark], inside the semaphore) *)

(** The factory, the injected callback, pydantic's validation of
    [ModelConfig(...)] built from a configuration dict, the summary and the
    writing of the intermediate file: collaborators of the worker. *)
Record ProviderFactory := {
  get_provider : str -> result (option Provider);
  get_model_config : str -> result json
}.

Variable progress_callback :
  option (BenchmarkProgress -> World -> result unit * World).
Variable validate_model_config : json -> str -> result ModelConfig.
Variable _calculate_model_summary : ModelBenchmarkResults -> dict.
Variable _save_model_results : ModelBenchmarkResults -> World -> result unit * World.

Fixpoint update_nth {A : Type} (n : nat) (f : A -> A) (l : list A) : list A :=
  match l, n with
  | [], _ => []
  | x :: t, O => f x :: t
  | x :: t, S k => x :: update_nth k f t
  end.

Definition update_model (i : nat) (f : ModelBenchmarkResults -> ModelBenchmarkResults)
    (st : St) : St :=
  set_model_results (update_nth i f st.(model_results)) st.

Definition count_results (st : St) : nat :=
  list_sum (List.map (fun mr => length mr.(test_results)) st.(model_results)).

Definition has_error (r : TestResult) : bool :=
  match r.(error) with
  | Some (_ :: _) => true
  | _ => false
  end.

Definition count_failed (st : St) : nat :=
  list_sum (List.map (fun mr => length (filter has_error mr.(test_results)))
              st.(model_results)).

(** [BenchmarkProgress(...)]: the percentage is validated to lie in
    [0, 100]. *)
Definition BenchmarkProgress_init (total completed failed : nat)
    (current : option str) (percentage : float) : result BenchmarkProgress :=
  if ((0 <=? percentage) && (percentage <=? 100))%float
  then Ok {| total_tests := total; completed_tests := completed;
             failed_tests := failed; current_model := current;
             progress_percentage := percentage |}
  else Raise (ValidationError (lit "BenchmarkProgress") [lit "progress_percentage"]).

Definition percentage (completed total : nat) : float :=
  if (0 <? total)%nat
  then (Z2F (Z.of_nat completed) / Z2F (Z.of_nat total) * 100)%float
  else 0%float.

(** The progress report that follows a test (lines 177-189), with the
    [except] clause of the loop body (lines 191-193): an exception raised
    while reporting is appended to the local [test_results]. *)
Definition notify_progress (model_id : str) (n_cases : nat)
    (test_results : list (TestResult + exn)) (st : St)
    : list (TestResult + exn) * St :=
  match progress_callback with
  | None => (test_results, st)
  | Some callback =>
      let total_tests := (n_cases * length st.(models_to_test))%nat in
      let completed_tests := (count_results st + length test_results)%nat in
      match BenchmarkProgress_init total_tests completed_tests 0
              (Some model_id) (percentage completed_tests total_tests) with
      | Raise e => (test_results ++ [inr e], st)
      | Ok progress =>
          match callback progress st.(world) with
          | (Ok _, w) => (test_results, set_world w st)
          | (Raise e, w) => (test_results ++ [inr e], set_world w st)
          end
      end
  end.

(** The loop over the test cases (lines 170-193): what is appended to
    the local [test_results] is a [TestResult] or a caught exception. *)
Fixpoint run_tests (provider : Provider) (model_config : ModelConfig)
    (model_id : str) (n_cases : nat) (test_cases : list TestCase)
    (test_results : list (TestResult + exn)) (st : St)
    : list (TestResult + exn) * St :=
  match test_cases with
  | [] => (test_results, st)
  | test_case :: rest =>
      let st1 := _apply_rate_limit model_id st in
      let (result, st2) :=
        _run_single_test provider model_config test_case model_id st1 in
      let (test_results, st3) :=
        notify_progress model_id n_cases (test_results ++ [inl result]) st2 in
      run_tests provider model_config model_id n_cases rest test_results st3
  end.

(** [if isinstance(result, TestResult)] over the local list (lines 195-199). *)
Fixpoint only_results (l : list (TestResult + exn)) : list TestResult :=
  match l with
  | [] => []
  | inl r :: t => r :: only_results t
  | inr _ :: t => only_results t
  end.

Definition duration_ms (mr : ModelBenchmarkResults) (end_time : datetime)
    : option float :=
  match mr.(start_time) with
  | Some t0 => Some ((end_time - t0) * 1000)%float
  | None => mr.(total_duration_ms)
  end.

Definition _update_progress (st : St) : result unit * St :=
  match progress_callback with
  | None => (Ok tt, st)
  | Some callback =>
      let completed := count_results st in
      let total := st.(estimated_total_tests) in
      let p := percentage completed total in
      match BenchmarkProgress_init total completed (count_failed st) None
              (if (p <? 100)%float then p else 100%float) with
      | Raise e => (Raise e, st)
      | Ok progress =>
          let (r, w) := callback progress st.(world) in (r, set_world w st)
      end
  end.

(** The body of the [try] of [_run_model_benchmark]. *)
Definition worker_body (factory : ProviderFactory) (model_id : str)
    (test_cases : list TestCase) (model_index : nat) (st : St) : result unit * St :=
  let st := update_model model_index
              (fun mr => {| mb_model_id := mr.(mb_model_id);
                            Models.test_results := mr.(Models.test_results);
                            summary_stats := mr.(summary_stats);
                            status := RUNNING;
                            start_time := Some (clock st.(world));
                            end_time := mr.(end_time);
                            total_duration_ms := mr.(total_duration_ms) |}) st in
  match factory.(get_provider) model_id with
  | Raise e => (Raise e, st)
  | Ok None =>
      (Raise (OtherError (lit "Exception")
                (lit "Could not create provider for model " ++ model_id)), st)
  | Ok (Some provider) =>
      match factory.(get_model_config) model_id with
      | Raise e => (Raise e, st)
      | Ok model_config_dict =>
          if negb (truthy model_config_dict) then
            (Raise (OtherError (lit "Exception")
                      (lit "Could not find configuration for model " ++ model_id)), st)
          else
            match validate_model_config model_config_dict model_id with
            | Raise e => (Raise e, st)
            | Ok model_config =>
                let (test_results, st) :=
                  run_tests provider model_config model_id (length test_cases)
                    test_cases [] st in
                let st := update_model model_index
                            (fun mr =>
                               {| mb_model_id := mr.(mb_model_id);
                                  Models.test_results := mr.(Models.test_results)
                                                  ++ only_results test_results;
                                  summary_stats := mr.(summary_stats);
                                  status := mr.(status);
                                  start_time := mr.(start_time);
                                  end_time := mr.(end_time);
                                  total_duration_ms := mr.(total_duration_ms) |}) st in
                let now := clock st.(world) in
                let st := update_model model_index
                            (fun mr =>
                               {| mb_model_id := mr.(mb_model_id);
                                  Models.test_results := mr.(Models.test_results);
                                  summary_stats := _calculate_model_summary mr;
                                  status := COMPLETED;
                                  start_time := mr.(start_time);
                                  end_time := Some now;
                                  total_duration_ms := duration_ms mr now |}) st in
                let (saved, st) :=
                  if config.(save_intermediate_results) then
                    match nth_error st.(model_results) model_index with
                    | Some mr =>
                        let (r, w) := _save_model_results mr st.(world) in
                        (r, set_world w st)
                    | None => (Ok tt, st)
                    end
                  else (Ok tt, st) in
                match saved with
                | Raise e => (Raise e, st)
                | Ok _ => _update_progress st
                end
            end
      end
  end.

(** [_run_model_benchmark], once the semaphore is held.  An index outside
    [model_results] raises before the [try]; the worker then leaves the
    run untouched. *)
Definition _run_model_benchmark (factory : ProviderFactory) (model_id : str)
    (test_cases : list TestCase) (model_index : nat) (st : St) : St :=
  match nth_error st.(model_results) model_index with
  | None => st
  | Some _ =>
      match worker_body factory model_id test_cases model_index st with
      | (Ok _, st') => st'
      | (Raise _, st') =>
          update_model model_index
            (fun mr => {| mb_model_id := mr.(mb_model_id);
                          test_results := mr.(test_results);
                          summary_stats := mr.(summary_stats);
                          status := FAILED;
                          start_time := mr.(start_time);
                          end_time := Some (clock st'.(world));
                          total_duration_ms := mr.(total_duration_ms) |}) st'
      end
  end.

(** The entries [run_benchmark] creates before it starts the workers
    (lines 96-105). *)
Definition initial_model_results (model_ids : list str) : list ModelBenchmarkResults :=
  List.map (fun model_id =>
              {| mb_model_id := model_id; test_results := [];
                 summary_stats := []; status := PENDING;
                 start_time := None; end_time := None;
                 total_duration_ms := None |}) model_ids.

End WithWorld.
End WithInterp.

End Executor.

(** ** Admission of the model workers ([run_benchmark], lines 107-116, and
       the [async with semaphore] of [_run_model_benchmark])

    [run_benchmark] creates one task per model; every task runs
    [_run_model_benchmark], whose whole body is inside
    [async with semaphore].  The tasks interleave at their awaits.  A task
    is followed through the points of that body at which the semaphore or
    the model's status changes. *)

Module Sched.

Inductive pc :=
| Waiting     (* at [async with semaphore], not let in yet *)
| Entered     (* inside the block, before [status = RUNNING] *)
| Testing     (* inside the [try], after [status = RUNNING] *)
| Finishing   (* [status] set to COMPLETED or FAILED, still inside the block *)
| Left.       (* the block has been left and the semaphore released *)

Definition worker : Type := pc * BenchmarkStatus.

(** [permits] is the value of the [asyncio.Semaphore]. *)
Record state := {
  permits : nat;
  workers : list worker
}.

(** One move of one worker, with the semaphore value before and after. *)
Inductive wstep : worker -> nat -> worker -> nat -> Prop :=
| acquire v :
    wstep (Waiting, PENDING) (S v) (Entered, PENDING) v
| start v :
    wstep (Entered, PENDING) v (Testing, RUNNING) v
| escape v :          (* an exception before the [try] *)
    wstep (Entered, PENDING) v (Left, PENDING) (S v)
| complete v :
    wstep (Testing, RUNNING) v (Finishing, COMPLETED) v
| fail v :            (* the [except] clause of the worker *)
    wstep (Testing, RUNNING) v (Finishing, FAILED) v
| fail_late v :       (* an exception after [status = COMPLETED] *)
    wstep (Finishing, COMPLETED) v (Finishing, FAILED) v
| release s v :
    s = COMPLETED \/ s = FAILED ->
    wstep (Finishing, s) v (Left, s) (S v).

Fixpoint set_nth {A : Type} (n : nat) (x : A) (l : list A) : list A :=
  match l, n with
  | [], _ => []
  | _ :: t, O => x :: t
  | y :: t, S k => y :: set_nth k x t
  end.

Inductive step : state -> state -> Prop :=
| step_worker i w w' v v' ws :
    nth_error ws i = Some w ->
    wstep w v w' v' ->
    step {| permits := v; workers := ws |}
         {| permits := v'; workers := set_nth i w' ws |}.

(** [semaphore = asyncio.Semaphore(concurrent_models)] and one pending
    task per model id. *)
Definition initial (concurrent_models n_models : nat) : state :=
  {| permits := concurrent_models;
     workers := repeat (Waiting, PENDING) n_models |}.

Inductive reachable (concurrent_models n_models : nat) : state -> Prop :=
| reach_initial : reachable concurrent_models n_models
                    (initial concurrent_models n_models)
| reach_step s s' :
    reachable concurrent_models n_models s -> step s s' ->
    reachable concurrent_models n_models s'.

Definition is_running (w : worker) : bool :=
  match snd w with RUNNING => true | _ => false end.

Definition holds_permit (w : worker) : bool :=
  match fst w with
  | Entered | Testing | Finishing => true
  | Waiting | Left => false
  end.

Definition running (s : state) : nat := length (filter is_running s.(workers)).
Definition inside (s : state) : nat := length (filter holds_permit s.(workers)).

End Sched.

(** ** Summaries of a run ([benchmark/executor.py], lines 365-435 and 458-466)

    The summaries are dicts with fixed keys; they are given here as records
    with one field per key.  [len] is the built-in of that name. *)

Module Summary.

Definition len {A : Type} (l : list A) : Z := Z.of_nat (length l).

(** A value that is the [int] [0] on one branch and a [float] on the other. *)
Inductive number :=
| Int (z : Z)
| Float (x : float).

(** [a / b] for two ints: the quotient as a float (the operands are
    converted exactly below 2^53). *)
Definition true_div (a b : Z) : float := (Z2F a / Z2F b)%float.

Record ScenarioCounts := {
  total : Z;
  successful : Z;
  failed : Z
}.

Record ModelSummary := {
  total_tests : Z;
  successful_tests : Z;
  failed_tests : Z;
  success_rate : number;
  by_scenario_type : list (str * ScenarioCounts);
  avg_execution_time_ms : number;
  total_tokens_used : Z;
  avg_tokens_per_test : number;
  total_tool_calls : Z;
  successful_tool_calls : Z
}.

(** [not r.error] *)
Definition succeeded (r : TestResult) : bool := negb (Executor.has_error r).

Definition scenario_counts (results : list TestResult) (wanted : str)
    : ScenarioCounts :=
  let scenario_results :=
    filter (fun r => str_eqb r.(scenario_type) wanted) results in
  {| total := len scenario_results;
     successful := len (filter succeeded scenario_results);
     failed := len (filter Executor.has_error scenario_results) |}.

(** [r.model_response.usage["total_tokens"]] when the usage is not empty
    and has the key. *)
Definition tokens_of (r : TestResult) : option Z :=
  match r.(model_response).(usage) with
  | Some ((_ :: _) as u) => assoc_get (lit "total_tokens") u
  | _ => None
  end.

(** [any("error" in tr for tr in r.tool_results)] *)
Definition any_tool_error (r : TestResult) : bool :=
  existsb (fun tr => match dict_get (lit "error") tr with
                     | Some _ => true
                     | None => false
                     end) r.(tool_results).

(** [_calculate_model_summary]; [None] stands for the empty dict. *)
Definition _calculate_model_summary (model_result : ModelBenchmarkResults)
    : option ModelSummary :=
  let results := model_result.(test_results) in
  match results with
  | [] => None
  | _ :: _ =>
      let total_tests := len results in
      let successful_tests := len (filter succeeded results) in
      let failed_tests := (total_tests - successful_tests)%Z in
      let by_scenario :=
        List.map (fun scenario_type =>
                    (scenario_type, scenario_counts results scenario_type))
          [lit "correct"; lit "incorrect"; lit "malicious"] in
      let execution_times :=
        List.map execution_time_ms (filter succeeded results) in
      let avg_execution_time :=
        match execution_times with
        | _ :: _ => Float (py_sum execution_times / Z2F (len execution_times))%float
        | [] => Int 0
        end in
      let '(total_tokens, usage_count) :=
        fold_left (fun acc r =>
                     match tokens_of r with
                     | Some t => (fst acc + t, snd acc + 1)%Z
                     | None => acc
                     end) results (0, 0)%Z in
      let avg_tokens :=
        if (0 <? usage_count)%Z then Float (true_div total_tokens usage_count)
        else Int 0 in
      let total_tool_calls :=
        Zsum (List.map (fun r => len r.(tool_calls_made)) results) in
      let successful_tool_calls :=
        Zsum (List.map (fun r => len r.(tool_calls_made))
                (filter (fun r => negb (any_tool_error r)) results)) in
      Some {| total_tests := total_tests;
              successful_tests := successful_tests;
              failed_tests := failed_tests;
              success_rate :=
                if (0 <? total_tests)%Z
                then Float (true_div successful_tests total_tests) else Int 0;
              by_scenario_type := by_scenario;
              avg_execution_time_ms := avg_execution_time;
              total_tokens_used := total_tokens;
              avg_tokens_per_test := avg_tokens;
              total_tool_calls := total_tool_calls;
              successful_tool_calls := successful_tool_calls |}
  end.

(** What [_calculate_run_summary] passes to [metadata.update]. *)
Record RunSummary := {
  total_tests_executed : Z;
  run_successful_tests : Z;
  overall_success_rate : number;
  model_comparison : list (str * dict)
}.

Definition _calculate_run_summary (model_results : list ModelBenchmarkResults)
    : RunSummary :=
  let all_results :=
    fold_left (fun acc model_result => acc ++ model_result.(test_results))
      model_results [] in
  let total_tests := len all_results in
  let successful_tests := len (filter succeeded all_results) in
  let model_comparison :=
    fold_left (fun d model_result =>
                 assoc_set model_result.(mb_model_id)
                   model_result.(summary_stats) d)
      model_results [] in
  {| total_tests_executed := total_tests;
     run_successful_tests := successful_tests;
     overall_success_rate :=
       if (0 <? total_tests)%Z
       then Float (true_div successful_tests total_tests) else Int 0;
     model_comparison := model_comparison |}.

(** The name of the file [_save_benchmark_results] writes, within the
    output directory; [timestamp] is the formatted clock reading. *)
Definition results_file_name (models_to_test : list str) (timestamp : str) : str :=
  let model_names := join (lit "_") models_to_test in
  let model_names :=
    if (50 <? length model_names)%nat
    then firstn 47 model_names ++ lit "..."
    else model_names in
  lit "benchmark_" ++ model_names ++ lit "_" ++ timestamp ++ lit ".json".

End Summary.

(** ** Statistics over the evaluations ([LLMJudge._calculate_summary_stats],
       [evaluation/judge.py], lines 390-453) *)

Module Stats.

Import Summary.

Record ScoreDistribution := {
  excellent : Z;
  good : Z;
  satisfactory : Z;
  poor : Z;
  very_poor : Z
}.

Record ModelStats := {
  average_score : float;
  total_evaluations : Z;
  score_distribution : ScoreDistribution
}.

Record GroupStats := {
  group_average_score : float;
  group_total_evaluations : Z
}.

Record SummaryStats := {
  all_evaluations : Z;          (* "total_evaluations" *)
  average_overall_score : float;
  by_model : list (str * ModelStats);
  by_scenario_type : list (str * GroupStats);
  by_criteria : list (str * GroupStats);
  evaluation_config : EvaluationConfig
}.

(** The mean of a list of floats, [sum(scores) / len(scores)]. *)
Definition mean (scores : list float) : float :=
  (py_sum scores / Z2F (len scores))%float.

Definition distribution (scores : list float) : ScoreDistribution :=
  {| excellent := len (filter (fun s => 4.5 <=? s)%float scores);
     good := len (filter (fun s => (3.5 <=? s) && (s <? 4.5))%float scores);
     satisfactory := len (filter (fun s => (2.5 <=? s) && (s <? 3.5))%float scores);
     poor := len (filter (fun s => (1.5 <=? s) && (s <? 2.5))%float scores);
     very_poor := len (filter (fun s => s <? 1.5)%float scores) |}.

(** The loops that collect the overall scores under a key, in a dict of
    lists (lines 398-403 and 419-424). *)
Definition collect (key : EvaluationResult -> str)
    (evaluations : list EvaluationResult) : list (str * list float) :=
  fold_left (fun scores eval_result =>
               let k := key eval_result in
               let so_far := match assoc_get k scores with
                             | Some l => l
                             | None => []
                             end in
               assoc_set k (so_far ++ [eval_result.(overall_score)]) scores)
    evaluations [].

(** The values a criterion received, over all scores of all evaluations. *)
Definition criteria_scores (criteria : EvaluationCriteria)
    (evaluations : list EvaluationResult) : list Z :=
  flat_map (fun eval_result =>
              List.map score_value
                (filter (fun score => criteria_eqb score.(Models.criteria) criteria)
                   eval_result.(scores)))
    evaluations.

Definition _calculate_summary_stats (self : LLMJudge)
    (evaluations : list EvaluationResult) : option SummaryStats :=
  match evaluations with
  | [] => None
  | _ :: _ =>
      let overall_scores := List.map overall_score evaluations in
      let by_model :=
        List.map (fun entry =>
                    (fst entry,
                     {| average_score := mean (snd entry);
                        total_evaluations := len (snd entry);
                        score_distribution := distribution (snd entry) |}))
          (collect ev_model_id evaluations) in
      let by_scenario :=
        List.map (fun entry =>
                    (fst entry,
                     {| group_average_score := mean (snd entry);
                        group_total_evaluations := len (snd entry) |}))
          (collect ev_scenario_type evaluations) in
      let criteria_stats :=
        flat_map (fun criteria =>
                    match criteria_scores criteria evaluations with
                    | [] => []
                    | (_ :: _) as values =>
                        [(criteria_value criteria,
                          {| group_average_score := true_div (Zsum values) (len values);
                             group_total_evaluations := len values |})]
                    end) all_criteria in
      Some {| all_evaluations := len evaluations;
              average_overall_score := mean overall_scores;
              by_model := by_model;
              by_scenario_type := by_scenario;
              by_criteria := criteria_stats;
              evaluation_config := self.(Judge.config) |}
  end.

End Stats.

(** ** Evaluation of a whole run ([LLMJudge.evaluate_benchmark_run],
       [evaluation/judge.py], lines 339-388) *)

Module Batch.

(** A test case with the two further fields the judge's context takes
    from it. *)
Record TestCaseEntry := {
  case : TestCase;
  difficulty : Z;
  category : option str
}.

Record BenchmarkRun := {
  test_cases : list TestCaseEntry;
  model_results : list ModelBenchmarkResults
}.

Record BatchEvaluationResult := {
  results : list EvaluationResult;
  summary : option Stats.SummaryStats;
  config : EvaluationConfig;
  total_evaluation_time_ms : float
}.

(** [{tc.id: tc for tc in benchmark_run.test_cases}] *)
Definition test_case_lookup (test_cases : list TestCaseEntry)
    : list (str * TestCaseEntry) :=
  fold_left (fun d tc => assoc_set tc.(case).(id) tc d) test_cases [].

(** The context built for one test result (lines 355-359). *)
Definition context_for (test_case : option TestCaseEntry) : dict :=
  [(lit "expected_behavior",
    JStr match test_case with
         | Some tc => tc.(case).(tc_expected_behavior)
         | None => []
         end);
   (lit "difficulty",
    JInt match test_case with
         | Some tc => tc.(difficulty)
         | None => 1
         end);
   (lit "category",
    match test_case with
    | Some tc => match tc.(category) with
                 | Some c => JStr c
                 | None => JNull
                 end
    | None => JNull
    end)].

Section WithInterp.
Context {I : Interp}.

Section WithWorld.

(** The world outside the judge: the clock, and the judge model behind the
    provider.  [provider w] is the judge's provider as it answers from the
    state [w] of the world, and [asked test_result context w] is the world
    once the judge has evaluated [test_result]; [isoformat_now] reads
    [datetime.now().isoformat()]. *)
Variable World : Type.
Variable clock : World -> float.
Variable isoformat_now : World -> str.
Variable sleep : float -> World -> World.
Variable provider : World -> list Message -> ModelConfig -> result ModelResponse.
Variable asked : TestResult -> dict -> World -> World.

Variable self_config : EvaluationConfig.
Variable models_config : json.

Definition judge_in (w : World) : LLMJudge :=
  {| Judge.config := self_config;
     Judge.models_config := models_config;
     judge_provider := provider w |}.

(** [await self.evaluate_test_result(test_result, context)] *)
Definition evaluate_in (test_result : TestResult) (context : dict) (w : World)
    : result EvaluationResult * World :=
  let w' := asked test_result context w in
  (evaluate_test_result (judge_in w) (isoformat_now w') test_result context, w').

(** The loop over the results of one model (lines 353-369): what is
    appended to [model_evaluations] is an evaluation or a caught exception;
    one second is slept after every result but the last. *)
Fixpoint evaluate_results (lookup : list (str * TestCaseEntry))
    (test_results : list TestResult) (w : World)
    : list (EvaluationResult + exn) * World :=
  match test_results with
  | [] => ([], w)
  | test_result :: rest =>
      let test_case := assoc_get test_result.(test_case_id) lookup in
      let context := context_for test_case in
      let (evaluation, w1) := evaluate_in test_result context w in
      let w2 := match rest with
                | [] => w1
                | _ :: _ => sleep 1 w1
                end in
      let (more, w3) := evaluate_results lookup rest w2 in
      (match evaluation with
       | Ok ev => inl ev
       | Raise e => inr e
       end :: more, w3)
  end.

(** [if isinstance(evaluation, EvaluationResult)] (lines 371-375) *)
Fixpoint only_evaluations (l : list (EvaluationResult + exn))
    : list EvaluationResult :=
  match l with
  | [] => []
  | inl ev :: t => ev :: only_evaluations t
  | inr _ :: t => only_evaluations t
  end.

(** The loop over the models (lines 348-375). *)
Fixpoint evaluate_models (lookup : list (str * TestCaseEntry))
    (model_results : list ModelBenchmarkResults)
    (all_evaluations : list EvaluationResult) (w : World)
    : list EvaluationResult * World :=
  match model_results with
  | [] => (all_evaluations, w)
  | model_result :: rest =>
      let (model_evaluations, w1) :=
        evaluate_results lookup model_result.(Models.test_results) w in
      evaluate_models lookup rest
        (all_evaluations ++ only_evaluations model_evaluations) w1
  end.

Definition evaluate_benchmark_run (benchmark_run : BenchmarkRun) (w : World)
    : BatchEvaluationResult * World :=
  let start_time := clock w in
  let lookup := test_case_lookup benchmark_run.(test_cases) in
  let (all_evaluations, w1) :=
    evaluate_models lookup benchmark_run.(model_results) [] w in
  let summary := Stats._calculate_summary_stats (judge_in w1) all_evaluations in
  let total_time := ((clock w1 - start_time) * 1000)%float in
  ({| results := all_evaluations;
      summary := summary;
      config := self_config;
      total_evaluation_time_ms := total_time |}, w1).

End WithWorld.
End WithInterp.

End Batch.

(** ** Consensus over a run ([MultiJudgeEvaluation.create_consensus_evaluation],
       [evaluation/multi_judge.py], lines 99-119) *)

Module ConsensusRun.

Section WithInterp.
Context {I : Interp}.

(** The dict of dicts [test_evaluations] (lines 104-110): under every test
    id, the evaluation of each judge that gave one. *)
Definition add_evaluation (judge_model : str)
    (test_evaluations : list (str * list (str * EvaluationResult)))
    (eval_result : EvaluationResult) :=
  let test_id := eval_result.(ev_test_case_id) in
  let of_test := match assoc_get test_id test_evaluations with
                 | Some d => d
                 | None => []
                 end in
  assoc_set test_id (assoc_set judge_model eval_result of_test) test_evaluations.

Definition group_by_test (judge_evaluations : list (str * list EvaluationResult))
    : list (str * list (str * EvaluationResult)) :=
  fold_left (fun test_evaluations entry =>
               fold_left (add_evaluation (fst entry)) (snd entry) test_evaluations)
    judge_evaluations [].



End WithInterp.

End ConsensusRun.

(** ** The agreement of the judges
       ([MultiJudgeEvaluation.analyze_judge_agreement],
       [evaluation/multi_judge.py], lines 215-271)

    The log record is left out. *)

Module Agreement.

Import Summary.

Record CriteriaAgreement := {
  avg_difference : float;
  max_difference : Z;
  agreements_within_1_point : float
}.

Record JudgeStatistics := {
  avg_score : number;
  judge_total_evaluations : Z      (* "total_evaluations" *)
}.

(** [agreement_stats] while the comparisons are collected: under
    "criteria_agreement" the lists of differences. *)
Record Differences := {
  compared : Z;                    (* "total_comparisons" *)
  differences : list float;        (* "score_differences" *)
  criteria_differences : list (str * list Z)
}.

(** [agreement_stats] as it is returned: [None] under "criteria_agreement"
    is the empty list that stays there, and [None] for the last two keys
    says that the key is absent. *)
Record AgreementStats := {
  total_comparisons : Z;
  score_differences : list float;
  criteria_agreement : list (str * option CriteriaAgreement);
  judge_statistics : list (str * JudgeStatistics);
  avg_score_difference : option float;
  max_score_difference : option float
}.

(** [d[key]] *)
Definition item {V : Type} (key : str) (d : list (str * V)) : result V :=
  match assoc_get key d with
  | Some v => Ok v
  | None => Raise (KeyError key)
  end.

(** [next((s.score_value for s in scores if s.criteria == criteria), 3)] *)
Definition score_of (criteria : EvaluationCriteria) (evaluation : EvaluationResult) : Z :=
  match List.find (fun s => criteria_eqb s.(Models.criteria) criteria)
          evaluation.(scores) with
  | Some s => s.(score_value)
  | None => 3
  end.

(** The loop over the criteria for one pair of evaluations (lines 243-247). *)
Fixpoint compare_criteria (eval1 eval2 : EvaluationResult)
    (all : list EvaluationCriteria) (criteria_agreement : list (str * list Z))
    : result (list (str * list Z)) :=
  match all with
  | [] => Ok criteria_agreement
  | criteria :: rest =>
      let score1 := score_of criteria eval1 in
      let score2 := score_of criteria eval2 in
      let criteria_diff := Z.abs (score1 - score2) in
      so_far <- item (criteria_value criteria) criteria_agreement ;;
      compare_criteria eval1 eval2 rest
        (assoc_set (criteria_value criteria) (so_far ++ [criteria_diff])
           criteria_agreement)
  end.

(** The loop over [judge_models[i+1:]] (lines 235-247). *)
Fixpoint compare_with (judge_evals : list (str * EvaluationResult))
    (judge1 : str) (later : list str) (agreement_stats : Differences)
    : result Differences :=
  match later with
  | [] => Ok agreement_stats
  | judge2 :: rest =>
      eval1 <- item judge1 judge_evals ;;
      eval2 <- item judge2 judge_evals ;;
      let score_diff :=
        PrimFloat.abs (eval1.(overall_score) - eval2.(overall_score)) in
      compared_criteria <-
        compare_criteria eval1 eval2 all_criteria
          agreement_stats.(criteria_differences) ;;
      compare_with judge_evals judge1 rest
        {| compared := agreement_stats.(compared) + 1;
           differences := agreement_stats.(differences) ++ [score_diff];
           criteria_differences := compared_criteria |}
  end.

(** The loop over [enumerate(judge_models)] (line 234). *)
Fixpoint compare_judges (judge_evals : list (str * EvaluationResult))
    (judge_models : list str) (agreement_stats : Differences)
    : result Differences :=
  match judge_models with
  | [] => Ok agreement_stats
  | judge1 :: later =>
      with_judge1 <- compare_with judge_evals judge1 later agreement_stats ;;
      compare_judges judge_evals later with_judge1
  end.

(** The loop over [test_evaluations.items()] (lines 231-247). *)
Fixpoint compare_tests
    (test_evaluations : list (str * list (str * EvaluationResult)))
    (agreement_stats : Differences) : result Differences :=
  match test_evaluations with
  | [] => Ok agreement_stats
  | (test_id, judge_evals) :: rest =>
      compared_test <-
        compare_judges judge_evals (List.map fst judge_evals) agreement_stats ;;
      compare_tests rest compared_test
  end.

(** [max] of a list that is not empty: the first of the greatest. *)
Definition max_float (first : float) (rest : list float) : float :=
  fold_left (fun greatest x => if (greatest <? x)%float then x else greatest)
    rest first.

Definition max_int (first : Z) (rest : list Z) : Z :=
  fold_left (fun greatest x => if (greatest <? x)%Z then x else greatest)
    rest first.

(** Lines 262-267 for one criterion. *)
Definition summarize (differences : list Z) : option CriteriaAgreement :=
  match differences with
  | [] => None
  | first :: rest =>
      Some {| avg_difference := true_div (Zsum differences) (len differences);
              max_difference := max_int first rest;
              agreements_within_1_point :=
                true_div (len (filter (fun d => (d <=? 1)%Z) differences))
                  (len differences) |}
  end.

(** Lines 249-255: the statistics of the judges that evaluated something. *)
Definition judge_statistics_of (judge_models : list str)
    (judge_evaluations : list (str * list EvaluationResult))
    : list (str * JudgeStatistics) :=
  fold_left
    (fun statistics entry =>
       match snd entry with
       | [] => statistics
       | _ :: _ =>
           assoc_set (fst entry)
             {| avg_score :=
                  Float (Stats.mean (List.map overall_score (snd entry)));
                judge_total_evaluations := len (snd entry) |}
             statistics
       end)
    judge_evaluations
    (fold_left
       (fun statistics judge =>
          assoc_set judge {| avg_score := Int 0; judge_total_evaluations := 0 |}
            statistics)
       judge_models []).

Definition analyze_judge_agreement (judge_models : list str)
    (judge_evaluations : list (str * list EvaluationResult))
    : result AgreementStats :=
  let test_evaluations := ConsensusRun.group_by_test judge_evaluations in
  agreement_stats <-
    compare_tests test_evaluations
      {| compared := 0; differences := [];
         criteria_differences :=
           fold_left (fun d criteria => assoc_set (criteria_value criteria) [] d)
             all_criteria [] |} ;;
  let score_differences := agreement_stats.(differences) in
  Ok {| total_comparisons := agreement_stats.(compared);
        score_differences := score_differences;
        criteria_agreement :=
          List.map (fun entry => (fst entry, summarize (snd entry)))
            agreement_stats.(criteria_differences);
        judge_statistics := judge_statistics_of judge_models judge_evaluations;
        avg_score_difference :=
          match score_differences with
          | [] => None
          | _ :: _ => Some (Stats.mean score_differences)
          end;
        max_score_difference :=
          match score_differences with
          | [] => None
          | first :: rest => Some (max_float first rest)
          end |}.

End Agreement.

(** ** The provider factory ([providers/provider_factory.py]) and the
       constructors of the providers ([providers/base.py], line 44, and
       [providers/openrouter_provider.py], lines 13-25)

    [models_config] is what [yaml.safe_load] returned, taken here as a JSON
    value; [getenv] is [os.getenv].  The log records are left out. *)

Module Factory.

Inductive provider_class :=
| OpenRouterProvider
| ReplicateProvider
| MockProvider.

(** [PROVIDER_MAP.get(name)] *)
Definition PROVIDER_MAP (name : str) : option provider_class :=
  if str_eqb name (lit "openrouter") then Some OpenRouterProvider
  else if str_eqb name (lit "replicate") then Some ReplicateProvider
  else if str_eqb name (lit "mock") then Some MockProvider
  else None.

(** [key in container] for a text [key]: a key of a dict, an element of a
    list, a part of a text; other values are not iterable. *)
Definition contains_key (key : str) (container : json) : result bool :=
  match container with
  | JObj d => Ok match dict_get key d with
                 | Some _ => true
                 | None => false
                 end
  | JArr l => Ok (existsb (fun x => match x with
                                    | JStr s => str_eqb key s
                                    | _ => false
                                    end) l)
  | JStr s => Ok (contains key s)
  | _ => Raise (TypeError container (lit "in"))
  end.

(** [provider_name in self.PROVIDER_MAP], with the class found: the name is
    hashed, which a list and a dict refuse. *)
Definition provider_map_get (provider_name : json)
    : result (option (str * provider_class)) :=
  match provider_name with
  | JStr s => Ok match PROVIDER_MAP s with
                 | Some c => Some (s, c)
                 | None => None
                 end
  | JArr _ | JObj _ => Raise (TypeError provider_name (lit "hash"))
  | _ => Ok None
  end.

Section WithEnvironment.
Variable getenv : str -> option str.

Definition _get_api_key (provider_name : str) : option str :=
  let env_var :=
    if str_eqb provider_name (lit "openrouter") then Some (lit "OPENROUTER_API_KEY")
    else if str_eqb provider_name (lit "replicate") then Some (lit "REPLICATE_API_TOKEN")
    else None in
  match env_var with
  | Some v => getenv v
  | None => None
  end.

(** A provider object, with the attributes its constructor sets. *)
Record ProviderInstance := {
  class : provider_class;
  api_key : str;
  base_url : json;
  provider_name : str
}.

(** [s.rstrip('/')] *)
Fixpoint lstrip_slash (s : str) : str :=
  match s with
  | [] => []
  | c :: t => if (c =? 47)%N then lstrip_slash t else s
  end.

Definition rstrip_slash (s : str) : str := rev (lstrip_slash (rev s)).

(** [provider_class(api_key=..., base_url=...)] *)
Definition construct (c : provider_class) (key : str) (url : json)
    : result ProviderInstance :=
  match c with
  | OpenRouterProvider =>
      let own_key := match key with
                     | _ :: _ => Some key
                     | [] => getenv (lit "OPENROUTER_API_KEY")
                     end in
      stripped <-
        (if truthy url then
           match url with
           | JStr s => Ok (rstrip_slash s)
           | _ => Raise (AttributeError url (lit "rstrip"))
           end
         else Ok (rstrip_slash (lit "https://openrouter.ai/api/v1"))) ;;
      match own_key with
      | Some ((_ :: _) as k) =>
          Ok {| class := c; api_key := k; base_url := JStr stripped;
                provider_name := lit "openrouter" |}
      | _ => Raise (OtherError (lit "ValueError")
                      (lit "OpenRouter API key is required"))
      end
  | ReplicateProvider =>
      Ok {| class := c; api_key := key; base_url := url;
            provider_name := lit "replicate" |}
  | MockProvider =>
      Ok {| class := c; api_key := key; base_url := url;
            provider_name := lit "mock" |}
  end.

Definition get_provider (models_config : json) (model_id : str)
    : result (option ProviderInstance) :=
  models <- get models_config (lit "models") (JObj []) ;;
  configured <- contains_key model_id models ;;
  if negb configured then Ok None
  else
    all_models <- subscript models_config (lit "models") ;;
    model_config <- subscript all_models model_id ;;
    named <- get model_config (lit "provider") JNull ;;
    known <- provider_map_get named ;;
    match known with
    | None => Ok None
    | Some (name, provider_class) =>
        let key := _get_api_key name in
        let no_key := match key with
                      | Some (_ :: _) => false
                      | _ => true
                      end in
        if no_key && negb (str_eqb name (lit "mock")) then Ok None
        else
          providers <- get models_config (lit "providers") (JObj []) ;;
          provider_config <- get providers name (JObj []) ;;
          has_url <- contains_key (lit "base_url") provider_config ;;
          url <- (if has_url then subscript provider_config (lit "base_url")
                  else Ok JNull) ;;
          created <- construct provider_class
                       match key with
                       | Some ((_ :: _) as k) => k
                       | _ => []
                       end url ;;
          Ok (Some created)
    end.

(** [LLMJudge._get_judge_provider] ([evaluation/judge.py], lines 26-33),
    with the configuration of the judge's factory; a provider object is
    true.  The warning is left out. *)
Definition _get_judge_provider (models_config : json) (judge_model : str)
    : result ProviderInstance :=
  provider <- get_provider models_config judge_model ;;
  match provider with
  | Some p => Ok p
  | None => construct MockProvider [] (JStr [])
  end.

End WithEnvironment.

Definition get_model_config (models_config : json) (model_id : str) : result json :=
  models <- get models_config (lit "models") (JObj []) ;;
  get models model_id JNull.

Definition list_available_models (models_config : json) : result json :=
  get models_config (lit "models") (JObj []).

(** [v.items()] and [len(v)] *)
Definition items (v : json) : result dict :=
  match v with
  | JObj d => Ok d
  | _ => Raise (AttributeError v (lit "items"))
  end.

Definition py_len (v : json) : result Z :=
  match v with
  | JObj d => Ok (Z.of_nat (length d))
  | JArr l => Ok (Z.of_nat (length l))
  | JStr s => Ok (Z.of_nat (length s))
  | _ => Raise (TypeError v (lit "len"))
  end.

(** [v == s] for a text [s] *)
Definition is_text (v : json) (s : str) : bool :=
  match v with
  | JStr t => str_eqb t s
  | _ => false
  end.

(** The loop of [get_models_by_provider] (lines 84-86). *)
Fixpoint models_by_provider (provider_name : str) (entries models : dict)
    : result dict :=
  match entries with
  | [] => Ok models
  | (model_id, config) :: rest =>
      provider <- get config (lit "provider") JNull ;;
      models_by_provider provider_name rest
        (if is_text provider provider_name
         then dict_set model_id config models
         else models)
  end.

Definition get_models_by_provider (models_config : json) (provider_name : str)
    : result dict :=
  all_models <- get models_config (lit "models") (JObj []) ;;
  entries <- items all_models ;;
  models_by_provider provider_name entries [].

(** [validate_configuration] (lines 89-119).  [str_of] is [str()], which
    the f-string of line 111 applies to the provider; [list_of_set] is
    [list(set)] of line 117, given the values in the order they were added. *)

Record ValidationResult := {
  valid : bool;
  errors : list str;
  warnings : list str;
  available_models : Z;
  available_providers : list json
}.

Section Validation.
Variable getenv : str -> option str.
Variable str_of : json -> str.
Variable list_of_set : list json -> list json.

(** One turn of the loop (lines 102-115).  Adding the provider to the set
    hashes it, as the lookup in [PROVIDER_MAP] does. *)
Definition validate_model (validation_result : ValidationResult)
    (entry : str * json) : result ValidationResult :=
  let (model_id, config) := entry in
  provider <- get config (lit "provider") JNull ;;
  if negb (truthy provider) then
    Ok {| valid := false;
          errors := validation_result.(errors)
                    ++ [lit "Model " ++ model_id ++ lit " missing provider"];
          warnings := validation_result.(warnings);
          available_models := validation_result.(available_models);
          available_providers := validation_result.(available_providers) |}
  else
    known <- provider_map_get provider ;;
    let not_implemented :=
      match known with
      | None => [lit "Provider " ++ str_of provider ++ lit " not implemented"]
      | Some _ => []
      end in
    let api_key := match provider with
                   | JStr name => _get_api_key getenv name
                   | _ => None
                   end in
    let no_key := match api_key with
                  | Some (_ :: _) => false
                  | _ => true
                  end in
    let key_not_found :=
      if no_key && negb (is_text provider (lit "mock"))
      then [lit "API key not found for provider " ++ str_of provider]
      else [] in
    Ok {| valid := validation_result.(valid);
          errors := validation_result.(errors);
          warnings := validation_result.(warnings) ++ not_implemented
                      ++ key_not_found;
          available_models := validation_result.(available_models);
          available_providers := validation_result.(available_providers)
                                 ++ [provider] |}.

Fixpoint validate_models (entries : dict) (validation_result : ValidationResult)
    : result ValidationResult :=
  match entries with
  | [] => Ok validation_result
  | entry :: rest =>
      checked <- validate_model validation_result entry ;;
      validate_models rest checked
  end.

Definition validate_configuration (models_config : json)
    : result ValidationResult :=
  models <- get models_config (lit "models") (JObj []) ;;
  count <- py_len models ;;
  entries <- items models ;;
  checked <- validate_models entries
               {| valid := true; errors := []; warnings := [];
                  available_models := count; available_providers := [] |} ;;
  Ok {| valid := checked.(valid);
        errors := checked.(errors);
        warnings := checked.(warnings);
        available_models := checked.(available_models);
        available_providers := list_of_set checked.(available_providers) |}.

End Validation.

End Factory.

(** ** The messages sent to OpenRouter ([OpenRouterProvider.generate_response],
       [providers/openrouter_provider.py], lines 39-77)

    [needs_tool_handling] is what lines 34-37 derive from the model's name. *)

Module OpenRouter.

Definition is_tool (msg : Message) : bool := str_eqb msg.(role) (lit "tool").

Definition calls_tools (msg : Message) : bool :=
  str_eqb msg.(role) (lit "assistant")
  && match msg.(msg_tool_calls) with
     | [] => false
     | _ :: _ => true
     end.

(** The inner loop (lines 50-57): the tool messages that follow, with the
    messages left after them. *)
Fixpoint tool_results_after (messages : list Message) (tool_results_content : str)
    : str * list Message :=
  match messages with
  | tool_result :: rest =>
      if is_tool tool_result then
        let separated := match tool_results_content with
                         | [] => []
                         | _ :: _ => tool_results_content ++ [10%N]
                         end in
        tool_results_after rest
          (separated ++ lit "Tool result: " ++ tool_result.(msg_content))
      else (tool_results_content, messages)
  | [] => (tool_results_content, [])
  end.

Definition combined_content (content tool_results_content : str) : str :=
  match tool_results_content with
  | [] => content
  | _ :: _ => content ++ [10%N; 10%N] ++ lit "Based on the search results:"
              ++ [10%N] ++ tool_results_content
  end.

(** The outer loop; every turn consumes at least one message, so that
    the number of messages is fuel enough. *)
Fixpoint format_loop (fuel : nat) (needs_tool_handling : bool)
    (messages : list Message) : list (str * str) :=
  match fuel, messages with
  | S fuel', msg :: rest =>
      if is_tool msg && needs_tool_handling
      then format_loop fuel' needs_tool_handling rest
      else if calls_tools msg && needs_tool_handling then
        let (tool_results_content, after) := tool_results_after rest [] in
        (msg.(role), combined_content msg.(msg_content) tool_results_content)
        :: format_loop fuel' needs_tool_handling after
      else
        (msg.(role), msg.(msg_content))
        :: format_loop fuel' needs_tool_handling rest
  | _, _ => []
  end.

Definition format_messages (needs_tool_handling : bool) (messages : list Message)
    : list (str * str) :=
  format_loop (length messages) needs_tool_handling messages.

End OpenRouter.

(** ** Concrete inputs *)

Module Examples.

Import Reference.

Definition nl : str := [10%N].

Definition answer (text : str) : ModelResponse :=
  {| content := text; usage := None; model := lit "judge-model";
     provider := lit "mock"; tool_calls := []; mr_error := None;
     latency_ms := None |}.

Definition sample_test_result : TestResult :=
  {| test_case_id := lit "correct_001";
     model_id := lit "mock";
     scenario_type := lit "correct";
     user_query := lit "Jakie macie laptopy Lenovo?";
     model_response := answer (lit "Oto laptopy Lenovo.");
     tool_calls_made := [];
     tool_results := [];
     execution_time_ms := 12%float;
     timestamp := 0%float;
     error := None |}.

Definition sample_context : dict :=
  [(lit "expected_behavior", JStr (lit "lists Lenovo laptops"));
   (lit "difficulty", JInt 1)].

Definition now : str := lit "2025-01-01T00:00:00".

(** A judge whose provider answers [text], and one whose call raises [e]. *)
Definition judge_answering (text : str) : LLMJudge :=
  {| Judge.config := default_config; models_config := JObj [];
     judge_provider := fun _ _ => Ok (answer text) |}.

Definition judge_raising (e : exn) : LLMJudge :=
  {| Judge.config := default_config; models_config := JObj [];
     judge_provider := fun _ _ => Raise e |}.

(** The verdict of the specification's example, and the same wrapped in
    chatter. *)
Definition verdict : str :=
  jlit "{'task_performance':{'score':5,'reasoning':'ok'}, 'response_quality':{'score':3,'reasoning':'ok'}, 'language_quality':{'score':4,'reasoning':'ok'}, 'tool_usage':{'score':4,'reasoning':'ok'}, 'factual_accuracy':{'score':2,'reasoning':'ok'}}".

Definition chatty_verdict : str :=
  lit "Sure!" ++ nl ++ verdict ++ nl ++ lit "Hope that helps!".



Definition scored (criteria : EvaluationCriteria) (level : ScoreLevel) : CriteriaScore :=
  {| criteria := criteria; score := level; reasoning := lit "ok";
     score_value := SCORE_VALUES level |}.

(** The scores of the specification's example for the weighted average. *)
Definition sample_scores : list CriteriaScore :=
  [scored TASK_PERFORMANCE EXCELLENT; scored RESPONSE_QUALITY SATISFACTORY;
   scored LANGUAGE_QUALITY GOOD; scored TOOL_USAGE GOOD;
   scored FACTUAL_ACCURACY POOR].

(** A world that is nothing but its clock; a provider whose calls never
    answer, so that the wait is given up after [timeout] seconds; and a
    provider that answers after one second. *)
Definition clock_world : Type := float.
Definition read_clock (w : clock_world) : float := w.
Definition pass_time (d : float) (w : clock_world) : clock_world := (w + d)%float.

Definition silent_provider : Executor.Provider clock_world :=
  {| Executor.provider_name := lit "mock";
     Executor.get_default_system_prompt := lit "You are a shop assistant.";
     Executor.get_response_formatting_prompt := lit "Format the results.";
     Executor.get_database_tools := [];
     Executor.generate_response :=
       fun _ _ _ timeout w => (Raise TimeoutError, (w + Z2F timeout)%float);
     Executor.execute_tool_call := fun _ w => (Ok (JObj []), w) |}.

Definition answering_provider (r : ModelResponse) : Executor.Provider clock_world :=
  {| Executor.provider_name := lit "mock";
     Executor.get_default_system_prompt := lit "You are a shop assistant.";
     Executor.get_response_formatting_prompt := lit "Format the results.";
     Executor.get_database_tools := [];
     Executor.generate_response := fun _ _ _ _ w => (Ok r, (w + 1)%float);
     Executor.execute_tool_call := fun _ w => (Ok (JObj []), w) |}.

(** A provider that asks for one tool call when it is given the tools,
    and never answers when it is asked to word the tool's result. *)
Definition search_request : ModelResponse :=
  {| content := lit "Let me look."; usage := None; model := lit "mock-model";
     provider := lit "mock";
     tool_calls := [[(lit "name", JStr (lit "search_products"));
                     (lit "arguments", JStr (jlit "{'producer': 'Lenovo'}"));
                     (lit "id", JStr (lit "call_1"))]];
     mr_error := None; latency_ms := None |}.

Definition flaky_provider : Executor.Provider clock_world :=
  {| Executor.provider_name := lit "mock";
     Executor.get_default_system_prompt := lit "You are a shop assistant.";
     Executor.get_response_formatting_prompt := lit "Format the results.";
     Executor.get_database_tools := [];
     Executor.generate_response :=
       fun _ _ tools timeout w =>
         match tools with
         | Some _ => (Ok search_request, (w + 1)%float)
         | None => (Raise TimeoutError, (w + Z2F timeout)%float)
         end;
     Executor.execute_tool_call :=
       fun _ w => (Ok (JObj [(lit "products", JArr [])]), w) |}.

Definition sample_test_case (name : string) : TestCase :=
  {| id := lit name; tc_scenario_type := lit "correct";
     tc_user_query := lit "Jakie macie laptopy Lenovo?";
     tc_expected_behavior := lit "lists Lenovo laptops" |}.

Definition sample_model_config : ModelConfig :=
  {| model_name := lit "mock-model"; temperature := 0.7%float;
     max_tokens := 1000 |}.

Definition sample_config : BenchmarkConfig :=
  {| concurrent_models := 3; timeout_per_test := 60;
     save_intermediate_results := true; include_tool_execution := true |}.

Definition fresh_state (model_ids : list str) (n_cases : nat)
    : Executor.St clock_world :=
  {| Executor.world := 0%float;
     Executor.last_request_time := [];
     Executor.models_to_test := model_ids;
     Executor.estimated_total_tests := n_cases * length model_ids;
     Executor.model_results := Executor.initial_model_results model_ids |}.

End Examples.

(** * Properties *)

Unset Implicit Arguments.

(** ** The judge: construction of scores *)

Module JudgeFacts.

Ltac bind_inv H :=
  unfold bind in H;
  repeat match type of H with
         | context [match ?c with Ok _ => _ | Raise _ => _ end] =>
             let E := fresh "E" in destruct c eqn:E; try discriminate H
         end.

(** The numeric value of a score is the one its level stands for. *)
Definition canonical (cs : CriteriaScore) : Prop :=
  cs.(score_value) = SCORE_VALUES cs.(score).

(** The neutral score recorded when a judgement is missing. *)
Definition neutral (criteria : EvaluationCriteria) (note : str) : CriteriaScore :=
  {| criteria := criteria; score := SATISFACTORY;
     reasoning := note; score_value := 3 |}.

Lemma CriteriaScore_init_inv criteria level r cs :
  CriteriaScore_init criteria level r None = Ok cs ->
  exists t, r = JStr t /\
            cs = {| criteria := criteria; score := level;
                    reasoning := t; score_value := SCORE_VALUES level |}.
Proof.
  unfold CriteriaScore_init. destruct r; simpl; try discriminate.
  intros H. injection H as <-. eauto.
Qed.

Lemma CriteriaScore_init_canonical criteria level r cs :
  CriteriaScore_init criteria level r None = Ok cs -> canonical cs.
Proof.
  intros H. apply CriteriaScore_init_inv in H as (t & _ & ->). reflexivity.
Qed.

Lemma for_each_Forall {A B : Type} (P : B -> Prop) (f : A -> result B) :
  (forall a b, f a = Ok b -> P b) ->
  forall l bs, for_each f l = Ok bs -> Forall P bs.
Proof.
  intros Hf. induction l as [|a l IH]; simpl; intros bs H.
  - injection H as <-. constructor.
  - bind_inv H. injection H as <-. constructor; eauto.
Qed.

Lemma EvaluationResult_init_inv tr eb scs o jm now notes ev :
  EvaluationResult_init tr eb scs o jm now notes = Ok ev ->
  ev.(scores) = scs /\ ev.(overall_score) = o.
Proof.
  unfold EvaluationResult_init.
  destruct (as_str eb), (as_optional_str notes); try discriminate.
  intros H. injection H as <-. split; reflexivity.
Qed.

Section WithInterp.
Context {I : Interp}.

Lemma parse_criterion_canonical name data cs :
  parse_criterion name data = Ok cs -> canonical cs.
Proof.
  unfold parse_criterion. intros H. bind_inv H.
  eapply CriteriaScore_init_canonical; eassumption.
Qed.

Lemma parse_entry_canonical name data cs :
  parse_entry name data = Ok cs -> canonical cs.
Proof.
  unfold parse_entry. intros H.
  destruct (parse_criterion name data) eqn:E.
  - injection H as <-. eapply parse_criterion_canonical; eassumption.
  - destruct (is_KeyError e || is_ValueError e); try discriminate.
    bind_inv H. eapply CriteriaScore_init_canonical; eassumption.
Qed.

Lemma parse_scores_canonical entries scs :
  parse_scores entries = Ok scs -> Forall canonical scs.
Proof.
  revert scs. induction entries as [|[name data] rest IH]; simpl; intros scs H.
  - injection H as <-. constructor.
  - destruct (str_eqb name (lit "additional_notes")); [now apply IH|].
    bind_inv H. injection H as <-.
    constructor; [eapply parse_entry_canonical; eassumption | now apply IH].
Qed.

Lemma judge_fallback_canonical self now tr ctx msg ev :
  Judge._create_fallback_evaluation self now tr ctx msg = Ok ev ->
  Forall canonical ev.(scores).
Proof.
  unfold Judge._create_fallback_evaluation. intros H. bind_inv H.
  apply EvaluationResult_init_inv in H as [-> _].
  eapply for_each_Forall; [|eassumption].
  intros c b Hb. cbv beta in Hb. eapply CriteriaScore_init_canonical; eassumption.
Qed.

Lemma parse_response_canonical self now r tr ctx ev :
  _parse_evaluation_response self now r tr ctx = Ok ev ->
  Forall canonical ev.(scores).
Proof.
  unfold _parse_evaluation_response. intros H.
  destruct (parse_body self now r tr ctx) eqn:E.
  - injection H as <-. unfold parse_body in E. bind_inv E.
    apply EvaluationResult_init_inv in E as [-> _].
    eapply parse_scores_canonical; eassumption.
  - eapply judge_fallback_canonical; eassumption.
Qed.

Lemma evaluate_canonical self now tr ctx ev :
  evaluate_test_result self now tr ctx = Ok ev ->
  Forall canonical ev.(scores).
Proof.
  unfold evaluate_test_result. intros H.
  destruct (bind (judge_call self tr ctx) _) eqn:E.
  - injection H as <-. bind_inv E.
    eapply parse_response_canonical; eassumption.
  - eapply judge_fallback_canonical; eassumption.
Qed.

Lemma multi_fallback_canonical now tr ctx jm msg ev :
  MultiJudge._create_fallback_evaluation now tr ctx jm msg = Ok ev ->
  Forall canonical ev.(scores).
Proof.
  unfold MultiJudge._create_fallback_evaluation. intros H. bind_inv H.
  apply EvaluationResult_init_inv in H as [-> _].
  eapply for_each_Forall; [|eassumption].
  intros c b Hb. cbv beta in Hb. eapply CriteriaScore_init_canonical; eassumption.
Qed.

Lemma consensus_for_criteria_canonical c jes scs :
  MultiJudge.consensus_for_criteria c jes = Ok scs -> Forall canonical scs.
Proof.
  unfold MultiJudge.consensus_for_criteria. intros H.
  destruct (List.map _ (MultiJudge.scored_by c jes)) eqn:Em.
  - injection H as <-. constructor.
  - bind_inv H. injection H as <-.
    constructor; [|constructor].
    eapply CriteriaScore_init_canonical; eassumption.
Qed.

Lemma consensus_scores_canonical cs jes scs :
  MultiJudge.consensus_scores cs jes = Ok scs -> Forall canonical scs.
Proof.
  revert scs. induction cs as [|c cs IH]; simpl; intros scs H.
  - injection H as <-. constructor.
  - bind_inv H. injection H as <-. apply Forall_app. split.
    + eapply consensus_for_criteria_canonical; eassumption.
    + now apply IH.
Qed.

Lemma consensus_canonical now test_id jes ev :
  MultiJudge._create_consensus_for_test now test_id jes = Ok ev ->
  Forall canonical ev.(scores).
Proof.
  unfold MultiJudge._create_consensus_for_test. intros H.
  destruct jes as [|[jm first_eval] rest]; [discriminate|].
  bind_inv H. injection H as <-. simpl.
  eapply consensus_scores_canonical; eassumption.
Qed.

Lemma multi_evaluate_canonical judges now tr ctx jes :
  MultiJudge.evaluate_test_result_multi judges now tr ctx = Ok jes ->
  Forall (fun je => Forall canonical (snd je).(scores)) jes.
Proof.
  revert jes. induction judges as [|[jm j] rest IH]; simpl; intros jes H.
  - injection H as <-. constructor.
  - bind_inv H. injection H as <-. constructor; [|now apply IH].
    simpl. destruct (evaluate_test_result j now tr ctx) eqn:Ev.
    + injection E as <-. eapply evaluate_canonical; eassumption.
    + eapply multi_fallback_canonical; eassumption.
Qed.

(** C7.  Every [CriteriaScore] the system constructs carries the numeric
    value of its level (excellent 5, good 4, satisfactory 3, poor 2,
    very_poor 1): the constructor computes [score_value] from [score]
    whenever the caller leaves it out, and no caller passes it.  This
    holds for the scores parsed from a judge's verdict, for the fallback
    scores of the judge and of the multi-judge layer, and for the consensus
    scores. *)
Theorem score_value_is_canonical :
  (forall l, SCORE_VALUES l =
             match l with
             | EXCELLENT => 5 | GOOD => 4 | SATISFACTORY => 3
             | POOR => 2 | VERY_POOR => 1
             end%Z)
  /\ (forall criteria level r cs,
        CriteriaScore_init criteria level r None = Ok cs -> canonical cs)
  /\ (forall self now r tr ctx ev,
        _parse_evaluation_response self now r tr ctx = Ok ev ->
        Forall canonical ev.(scores))
  /\ (forall self now tr ctx msg ev,
        Judge._create_fallback_evaluation self now tr ctx msg = Ok ev ->
        Forall canonical ev.(scores))
  /\ (forall self now tr ctx ev,
        evaluate_test_result self now tr ctx = Ok ev ->
        Forall canonical ev.(scores))
  /\ (forall now tr ctx jm msg ev,
        MultiJudge._create_fallback_evaluation now tr ctx jm msg = Ok ev ->
        Forall canonical ev.(scores))
  /\ (forall judges now tr ctx jes,
        MultiJudge.evaluate_test_result_multi judges now tr ctx = Ok jes ->
        Forall (fun je => Forall canonical (snd je).(scores)) jes)
  /\ (forall now test_id jes ev,
        MultiJudge._create_consensus_for_test now test_id jes = Ok ev ->
        Forall canonical ev.(scores)).
Proof.
  split; [intros []; reflexivity|].
  split; [exact CriteriaScore_init_canonical|].
  split; [exact parse_response_canonical|].
  split; [exact judge_fallback_canonical|].
  split; [exact evaluate_canonical|].
  split; [exact multi_fallback_canonical|].
  split; [exact multi_evaluate_canonical|].
  exact consensus_canonical.
Qed.

End WithInterp.

End JudgeFacts.

(** ** The judge: total-failure fallback *)

Module Fallback.

Import JudgeFacts Examples Reference.

Section WithInterp.
Context {I : Interp}.

Definition neutral_scores (note : str) : list CriteriaScore :=
  List.map (fun criteria => neutral criteria note) all_criteria.

(** Every one of the five criteria carries the neutral score, with a
    reasoning that cites [error_msg], and the overall score is 3.0. *)
Definition is_fallback (error_msg : str) (ev : EvaluationResult) : Prop :=
  ev.(scores) = neutral_scores (lit "Evaluation failed: " ++ error_msg)
  /\ ev.(overall_score) = 3%float.

Lemma fallback_succeeds self now tr ctx eb error_msg :
  ctx_expected_behavior ctx = JStr eb ->
  exists ev,
    Judge._create_fallback_evaluation self now tr ctx error_msg = Ok ev
    /\ is_fallback error_msg ev.
Proof.
  intros Hctx. unfold Judge._create_fallback_evaluation. rewrite Hctx.
  eexists. split; [reflexivity|]. split; reflexivity.
Qed.

Lemma parse_response_succeeds self now r tr ctx eb :
  ctx_expected_behavior ctx = JStr eb ->
  exists ev, _parse_evaluation_response self now r tr ctx = Ok ev.
Proof.
  intros Hctx. unfold _parse_evaluation_response.
  destruct (parse_body self now r tr ctx) as [ev|e]; [eauto|].
  destruct (fallback_succeeds self now tr ctx eb
              (lit "Parse error: " ++ exn_str e) Hctx) as (ev & -> & _). eauto.
Qed.

(** C1, as the code has it.  Whenever the context's [expected_behavior]
    is absent or a text, [evaluate_test_result] returns an
    [EvaluationResult] and does not raise.  If the judge call raises [e]
    (a timeout, a transport error), or if the trimmed response is not JSON,
    every one of the five criteria carries the neutral score (level
    satisfactory, value 3) with a reasoning that cites the error, and
    [overall_score] is 3.0. *)
Theorem evaluate_test_result_never_raises self now tr ctx eb :
  ctx_expected_behavior ctx = JStr eb ->
  (exists ev, evaluate_test_result self now tr ctx = Ok ev)
  /\ (forall e,
        judge_call self tr ctx = Raise e ->
        exists ev, evaluate_test_result self now tr ctx = Ok ev
                   /\ is_fallback (exn_str e) ev)
  /\ (forall response e,
        judge_call self tr ctx = Ok response ->
        json_loads (Trim.extract_json_text response.(content)) = Raise e ->
        exists ev, evaluate_test_result self now tr ctx = Ok ev
                   /\ is_fallback (lit "Parse error: " ++ exn_str e) ev).
Proof.
  intros Hctx. unfold evaluate_test_result. repeat split.
  - destruct (judge_call self tr ctx) as [response|e]; simpl.
    + destruct (parse_response_succeeds self now response.(content) tr ctx eb Hctx)
        as (ev & ->). eauto.
    + destruct (fallback_succeeds self now tr ctx eb (exn_str e) Hctx)
        as (ev & -> & _). eauto.
  - intros e ->. simpl. apply fallback_succeeds with (eb := eb). exact Hctx.
  - intros response e -> Hjson. cbn [bind].
    unfold _parse_evaluation_response, parse_body. rewrite Hjson. cbn [bind].
    destruct (fallback_succeeds self now tr ctx eb
                (lit "Parse error: " ++ exn_str e) Hctx) as (ev & Hev & Hfb).
    rewrite Hev. eauto.
Qed.

End WithInterp.

(** The judge call times out: the neutral evaluation is returned. *)
Lemma evaluate_test_result_never_raises_witness :
  ctx_expected_behavior sample_context = JStr (lit "lists Lenovo laptops")
  /\ exists ev,
       evaluate_test_result (judge_raising TimeoutError) now
         sample_test_result sample_context = Ok ev
       /\ is_fallback (exn_str TimeoutError) ev.
Proof.
  split; [reflexivity|].
  apply (proj1 (proj2 (evaluate_test_result_never_raises
                         (judge_raising TimeoutError) now sample_test_result
                         sample_context (lit "lists Lenovo laptops") eq_refl))).
  reflexivity.
Defined.

(** C1 as stated fails: with a context whose [expected_behavior] is
    [None], building the [EvaluationResult] is refused by the validation of
    that field, in the fallback as well, and the exception reaches the
    caller; this happens for a well-formed verdict and for a judge call
    that times out alike. *)
Lemma evaluate_test_result_raises_on_untyped_context :
  evaluate_test_result (judge_answering verdict) now sample_test_result
    [(lit "expected_behavior", JNull)]
  = Raise (ValidationError (lit "EvaluationResult") [lit "expected_behavior"])
  /\ evaluate_test_result (judge_raising TimeoutError) now sample_test_result
       [(lit "expected_behavior", JNull)]
     = Raise (ValidationError (lit "EvaluationResult") [lit "expected_behavior"]).
Proof.
  split; vm_compute; reflexivity.
Qed.

End Fallback.

(** ** The judge: partially malformed verdicts *)

Module PartialVerdict.

Import JudgeFacts Examples Reference.






Section WithInterp.
Context {I : Interp}.

Definition note (e : exn) : str := lit "Failed to parse score: " ++ exn_str e.









End WithInterp.



End PartialVerdict.

(** ** The judge: weighted overall score *)

Module WeightedScore.

Import Examples.

(** The weight the configuration gives to a score's criterion. *)
Definition weight_of (self : LLMJudge) (s : CriteriaScore) : float :=
  weights_get self.(Judge.config).(criteria_weights) s.(criteria) 0.2%float.

(** Sum over the scores present of value times weight, and sum of their
    weights. *)
Definition weighted_sum (self : LLMJudge) (scs : list CriteriaScore) : float :=
  py_sum (List.map (fun s => (Z2F s.(score_value) * weight_of self s)%float) scs).

Definition weight_total (self : LLMJudge) (scs : list CriteriaScore) : float :=
  py_sum (List.map (weight_of self) scs).

Lemma accumulate_pair (self : LLMJudge) (scs : list CriteriaScore) (a b : float) :
  fold_left
    (fun acc score =>
       let weight := weights_get self.(Judge.config).(criteria_weights)
                       score.(criteria) 0.2%float in
       ((fst acc + Z2F score.(score_value) * weight)%float,
        (snd acc + weight)%float))
    scs (a, b)
  = (fold_left PrimFloat.add
       (List.map (fun s => (Z2F s.(score_value) * weight_of self s)%float) scs) a,
     fold_left PrimFloat.add (List.map (weight_of self) scs) b).
Proof.
  revert a b. induction scs as [|s scs IH]; intros a b; simpl.
  - reflexivity.
  - rewrite IH. reflexivity.
Qed.

Lemma weighted_score_unfold self scs :
  _calculate_weighted_score self scs
  = if (0 <? weight_total self scs)%float
    then (weighted_sum self scs / weight_total self scs)%float
    else 3%float.
Proof.
  unfold _calculate_weighted_score. rewrite accumulate_pair. reflexivity.
Qed.

(** C4.  The overall score is the weighted average of the scores that
    are present: the sum over them of value times configured weight,
    divided by the sum of their weights (a criterion that is absent
    contributes to neither sum).  With the default weights and the scores
    task_performance 5, response_quality 3, language_quality 4,
    tool_usage 4, factual_accuracy 2 it is exactly 3.75; with
    factual_accuracy missing it is 3.45 / 0.85 (the weights of the four
    present), not 3.45. *)
Theorem overall_score_is_weighted_average :
  (forall self scs,
      (0 <? weight_total self scs)%float = true ->
      _calculate_weighted_score self scs
      = (weighted_sum self scs / weight_total self scs)%float)
  /\ _calculate_weighted_score (judge_answering verdict) sample_scores
     = 3.75%float
  /\ _calculate_weighted_score (judge_answering verdict)
       (removelast sample_scores)
     = (weighted_sum (judge_answering verdict) (removelast sample_scores)
        / (0.30 + 0.25 + 0.15 + 0.15))%float.
Proof.
  split; [|split].
  - intros self scs Hpos. rewrite weighted_score_unfold, Hpos. reflexivity.
  - vm_compute. reflexivity.
  - vm_compute. reflexivity.
Qed.

Lemma overall_score_is_weighted_average_witness :
  (0 <? weight_total (judge_answering verdict) sample_scores)%float = true
  /\ _calculate_weighted_score (judge_answering verdict) sample_scores
     = (weighted_sum (judge_answering verdict) sample_scores
        / weight_total (judge_answering verdict) sample_scores)%float.
Proof.
  split; [vm_compute; reflexivity|].
  apply (proj1 overall_score_is_weighted_average).
  vm_compute. reflexivity.
Defined.

(** The sums are taken in the order of the verdict's entries, and
    floating-point addition is not associative: the same five scores listed
    as response_quality, language_quality, factual_accuracy,
    task_performance, tool_usage give 3.7500000000000004. *)
Lemma overall_score_depends_on_order :
  _calculate_weighted_score (judge_answering verdict)
    [scored RESPONSE_QUALITY SATISFACTORY; scored LANGUAGE_QUALITY GOOD;
     scored FACTUAL_ACCURACY POOR; scored TASK_PERFORMANCE EXCELLENT;
     scored TOOL_USAGE GOOD]
  = 3.7500000000000004%float.
Proof.
  vm_compute. reflexivity.
Qed.

End WeightedScore.

(** ** Consensus of several judges *)

Module Consensus.

Import Examples.

(** Rounded mean of the values, clamped to the scale. *)
Definition consensus_value (values : list Z) : Z :=
  Z.max 1 (Z.min 5 (round_div (Zsum values) (Z.of_nat (length values)))).

(** The level that stands for a value of the scale. *)
Definition level_of_value (v : Z) : ScoreLevel :=
  if (v =? 5)%Z then EXCELLENT
  else if (v =? 4)%Z then GOOD
  else if (v =? 3)%Z then SATISFACTORY
  else if (v =? 2)%Z then POOR
  else VERY_POOR.

(** The judges' reasonings, each prefixed by its judge's id, joined, after
    a header that names the number of judges and their values. *)
Definition combined_reasoning (found : list (str * CriteriaScore)) : str :=
  lit "Consensus from " ++ dec_nat (length found)
  ++ lit " judges (scores: "
  ++ dec_list (List.map (fun js => (snd js).(score_value)) found)
  ++ lit "). "
  ++ join (lit "; ")
       (List.map (fun js => fst js ++ lit ": " ++ (snd js).(reasoning)) found).

Definition consensus_score (criteria : EvaluationCriteria)
    (found : list (str * CriteriaScore)) : CriteriaScore :=
  let v := consensus_value (List.map (fun js => (snd js).(score_value)) found) in
  {| criteria := criteria; score := level_of_value v;
     reasoning := combined_reasoning found; score_value := v |}.

Definition plain_mean (xs : list float) : float :=
  (py_sum xs / Z2F (Z.of_nat (length xs)))%float.

Lemma level_of_value_in_scale v :
  (1 <= v <= 5)%Z ->
  MultiJudge.score_level_map v = Ok (level_of_value v)
  /\ SCORE_VALUES (level_of_value v) = v.
Proof.
  intros Hv.
  assert (Hc : (v = 1 \/ v = 2 \/ v = 3 \/ v = 4 \/ v = 5)%Z) by lia.
  destruct Hc as [H|[H|[H|[H|H]]]]; subst v; split; reflexivity.
Qed.

Lemma consensus_value_in_scale values : (1 <= consensus_value values <= 5)%Z.
Proof. unfold consensus_value. lia. Qed.

Lemma consensus_for_criteria_spec criteria jes :
  MultiJudge.consensus_for_criteria criteria jes
  = Ok match MultiJudge.scored_by criteria jes with
       | [] => []
       | (_ :: _) as found => [consensus_score criteria found]
       end.
Proof.
  unfold MultiJudge.consensus_for_criteria.
  destruct (MultiJudge.scored_by criteria jes) as [|js found] eqn:Ef;
    [reflexivity|].
  cbn [List.map]. set (vals := (snd js).(score_value) :: List.map _ found).
  destruct (level_of_value_in_scale (consensus_value vals)
              (consensus_value_in_scale vals)) as [Hl Hv].
  unfold consensus_value in Hl. rewrite Hl. cbn [bind].
  unfold CriteriaScore_init. cbn [as_str bind].
  unfold consensus_score, combined_reasoning. cbn [List.map length snd fst].
  fold vals. fold (consensus_value vals). rewrite Hv.
  unfold vals. cbn [length]. rewrite length_map. reflexivity.
Qed.

Lemma consensus_scores_spec cs jes :
  MultiJudge.consensus_scores cs jes
  = Ok (flat_map (fun criteria =>
                    match MultiJudge.scored_by criteria jes with
                    | [] => []
                    | (_ :: _) as found => [consensus_score criteria found]
                    end) cs).
Proof.
  induction cs as [|c cs IH]; [reflexivity|].
  cbn [MultiJudge.consensus_scores flat_map].
  rewrite consensus_for_criteria_spec, IH. reflexivity.
Qed.

(** C9.  In the consensus built from the evaluations of several judges
    for one test, each criterion that at least one judge scored gets the
    score whose value is round(mean of the values given by the judges that
    scored it), clamped to 1..5, with the level that stands for that value,
    and with a reasoning that joins every such judge's reasoning prefixed by
    the judge's id; a criterion no judge scored gets none.  The overall
    score is the plain mean of the judges' overall scores. *)
Theorem consensus_of_judges now test_id jes :
  jes <> [] ->
  exists ev,
    MultiJudge._create_consensus_for_test now test_id jes = Ok ev
    /\ ev.(scores)
       = flat_map (fun criteria =>
                     match MultiJudge.scored_by criteria jes with
                     | [] => []
                     | (_ :: _) as found => [consensus_score criteria found]
                     end) all_criteria
    /\ ev.(overall_score)
       = plain_mean (List.map (fun je => (snd je).(overall_score)) jes).
Proof.
  intros Hne. destruct jes as [|[jm first_eval] rest]; [congruence|].
  unfold MultiJudge._create_consensus_for_test.
  rewrite consensus_scores_spec. cbn [bind].
  eexists. split; [reflexivity|]. split; reflexivity.
Qed.

(** Two judges: one found the task excellent (overall 5.0), the other poor
    (overall 2.0). *)
Definition judged (level : ScoreLevel) (why : str) (overall : float)
    : EvaluationResult :=
  {| ev_test_case_id := lit "correct_001"; ev_model_id := lit "mock";
     ev_scenario_type := lit "correct"; ev_user_query := lit "q";
     ev_model_response := lit "a"; expected_behavior := lit "b";
     scores := [ {| criteria := TASK_PERFORMANCE; score := level;
                    reasoning := why; score_value := SCORE_VALUES level |} ];
     overall_score := overall;
     ev_tool_calls_made := []; ev_tool_results := [];
     judge_model := lit "j"; evaluation_timestamp := now;
     additional_notes := None |}.

Definition two_judges : list (str * EvaluationResult) :=
  [(lit "gpt", judged EXCELLENT (lit "solved") 5%float);
   (lit "gemini", judged POOR (lit "gaps") 2%float)].

(** The mean 3.5 of the values 5 and 2 rounds to the even 4 (good); the
    overall score is the mean 3.5 of 5.0 and 2.0, whereas the weighted
    average of the consensus scores would be 4.0. *)
Lemma consensus_of_judges_witness :
  two_judges <> []
  /\ exists ev,
       MultiJudge._create_consensus_for_test now (lit "correct_001") two_judges
       = Ok ev
       /\ ev.(scores)
          = [ {| criteria := TASK_PERFORMANCE; score := GOOD;
                 reasoning :=
                   lit "Consensus from 2 judges (scores: [5, 2]). gpt: solved; gemini: gaps";
                 score_value := 4 |} ]
       /\ ev.(overall_score) = 3.5%float
       /\ _calculate_weighted_score (judge_answering verdict) ev.(scores)
          = 4%float.
Proof.
  split; [discriminate|].
  destruct (consensus_of_judges now (lit "correct_001") two_judges)
    as (ev & Hev & Hscores & Hoverall); [discriminate|].
  exists ev. split; [exact Hev|].
  rewrite Hscores, Hoverall. repeat split; vm_compute; reflexivity.
Defined.

(** The exact rounding agrees with rounding the float quotient, here on
    every sum from -60 to 339 over 1 to 40 values. *)
Lemma round_div_agrees_with_float_round :
  forallb (fun n =>
             forallb (fun a =>
                        match py_round (Z2F a / Z2F n)%float with
                        | Ok v => (v =? round_div a n)%Z
                        | Raise _ => false
                        end)
               (List.map (fun i => (Z.of_nat i - 60)%Z) (seq 0 400)))
    (List.map (fun i => Z.of_nat (S i)) (seq 0 40))
  = true.
Proof.
  vm_compute. reflexivity.
Qed.

End Consensus.

(** ** The judge: trimming of the response *)

Module TrimFacts.

Import Trim Examples.

Lemma has_false_iff (c : char) (s : str) :
  has c s = false <-> ~ In c s.
Proof.
  unfold has. split.
  - intros H Hin. assert (existsb (N.eqb c) s = true); [|congruence].
    apply existsb_exists. exists c. split; [exact Hin|apply N.eqb_refl].
  - intros H. destruct (existsb (N.eqb c) s) eqn:E; [|reflexivity].
    apply existsb_exists in E as (x & Hx & Heq). apply N.eqb_eq in Heq.
    subst x. contradiction.
Qed.

Lemma has_app (c : char) (a b : str) :
  has c (a ++ b) = has c a || has c b.
Proof. unfold has. apply existsb_app. Qed.

Lemma has_rev (c : char) (s : str) : has c (rev s) = has c s.
Proof.
  induction s as [|x s IH]; [reflexivity|].
  cbn [rev]. rewrite has_app, IH. unfold has. simpl.
  rewrite orb_false_r. apply orb_comm.
Qed.

Lemma has_lstrip (c : char) (s : str) :
  has c s = false -> has c (lstrip s) = false.
Proof.
  induction s as [|x s IH]; [reflexivity|].
  intros H. simpl. destruct (isspace x); [|exact H].
  apply IH. unfold has in *. simpl in H. now apply orb_false_elim in H.
Qed.

Lemma has_rstrip (c : char) (s : str) :
  has c s = false -> has c (rstrip s) = false.
Proof.
  intros H. unfold rstrip. rewrite has_rev. apply has_lstrip.
  now rewrite has_rev.
Qed.

Lemma has_skipn (c : char) (n : nat) (s : str) :
  has c s = false -> has c (skipn n s) = false.
Proof.
  revert s. induction n as [|n IH]; intros [|x s] H; try exact H; try reflexivity.
  simpl. apply IH. unfold has in *. simpl in H. now apply orb_false_elim in H.
Qed.

Lemma has_firstn (c : char) (n : nat) (s : str) :
  has c s = false -> has c (firstn n s) = false.
Proof.
  revert s. induction n as [|n IH]; intros [|x s] H; try reflexivity.
  unfold has in *. simpl in *. apply orb_false_elim in H as [H1 H2].
  rewrite H1. simpl. now apply IH.
Qed.

Lemma lstrip_app_nonspace (a : str) (x : char) (r : str) :
  isspace x = false -> lstrip (a ++ x :: r) = lstrip a ++ x :: r.
Proof.
  intros Hx. induction a as [|y a IH]; simpl.
  - now rewrite Hx.
  - destruct (isspace y); [exact IH|reflexivity].
Qed.

Lemma rstrip_app_nonspace (a : str) (x : char) (r : str) :
  isspace x = false -> rstrip (a ++ x :: r) = a ++ x :: rstrip r.
Proof.
  intros Hx. unfold rstrip. rewrite rev_app_distr. cbn [rev].
  rewrite <- app_assoc. cbn [app].
  rewrite lstrip_app_nonspace by exact Hx.
  rewrite rev_app_distr. cbn [rev]. rewrite rev_involutive.
  rewrite <- app_assoc. reflexivity.
Qed.

Lemma strip_bracketed (p : str) (x : char) (mid : str) (y : char) (s : str) :
  isspace x = false -> isspace y = false ->
  strip (p ++ x :: mid ++ y :: s) = lstrip p ++ x :: mid ++ y :: rstrip s.
Proof.
  intros Hx Hy. unfold strip. rewrite lstrip_app_nonspace by exact Hx.
  replace (lstrip p ++ x :: mid ++ y :: s)
    with ((lstrip p ++ x :: mid) ++ y :: s)
    by (rewrite <- app_assoc; reflexivity).
  rewrite rstrip_app_nonspace by exact Hy.
  rewrite <- app_assoc. reflexivity.
Qed.

(** A marker without the character [x] that starts [p ++ x :: r] lies
    within [p]. *)
Lemma startswith_within (m p : str) (x : char) (r : str) :
  startswith m (p ++ x :: r) = true -> has x m = false ->
  length m <= length p.
Proof.
  revert p. induction m as [|a m IH]; intros p Hs Hm; simpl; [lia|].
  unfold has in Hm. simpl in Hm. apply orb_false_elim in Hm as [Hxa Hm].
  destruct p as [|b p]; simpl in Hs.
  - apply andb_prop in Hs as [Hax _]. rewrite N.eqb_sym in Hax. congruence.
  - apply andb_prop in Hs as [_ Hs]. simpl. apply le_n_S. now apply IH.
Qed.

Lemma skipn_within {A : Type} (n : nat) (p r : list A) :
  n <= length p -> skipn n (p ++ r) = skipn n p ++ r.
Proof.
  intros H. rewrite skipn_app.
  replace (n - length p) with 0 by lia. reflexivity.
Qed.

Lemma find_from_absent (c : char) (s : str) (i : Z) :
  has c s = false -> find_from c s i = (-1)%Z.
Proof.
  revert i. induction s as [|x s IH]; intros i H; [reflexivity|].
  unfold has in H. simpl in H. apply orb_false_elim in H as [Hx H].
  simpl. rewrite N.eqb_sym, Hx. now apply IH.
Qed.

Lemma find_from_app (c : char) (p r : str) (i : Z) :
  has c p = false -> find_from c (p ++ c :: r) i = (i + Z.of_nat (length p))%Z.
Proof.
  revert i. induction p as [|x p IH]; intros i H; simpl.
  - rewrite N.eqb_refl. lia.
  - unfold has in H. simpl in H. apply orb_false_elim in H as [Hx H].
    rewrite N.eqb_sym, Hx, IH by exact H. lia.
Qed.

Lemma rfind_from_absent (c : char) (s : str) (i last : Z) :
  has c s = false -> rfind_from c s i last = last.
Proof.
  revert i last. induction s as [|x s IH]; intros i last H; [reflexivity|].
  unfold has in H. simpl in H. apply orb_false_elim in H as [Hx H].
  simpl. rewrite N.eqb_sym, Hx. now apply IH.
Qed.

Lemma rfind_from_app (c : char) (a s : str) (i last : Z) :
  has c s = false ->
  rfind_from c (a ++ c :: s) i last = (i + Z.of_nat (length a))%Z.
Proof.
  intros Hs. revert i last. induction a as [|x a IH]; intros i last; simpl.
  - rewrite N.eqb_refl, rfind_from_absent by exact Hs. lia.
  - rewrite IH. lia.
Qed.

(** The first and the last occurrence of a character that occurs. *)
Lemma split_first (c : char) (s : str) :
  has c s = true -> exists p r, s = p ++ c :: r /\ has c p = false.
Proof.
  induction s as [|x s IH]; [discriminate|].
  intros H. destruct (N.eqb c x) eqn:E.
  - apply N.eqb_eq in E. subst x. exists [], s. split; reflexivity.
  - unfold has in H. simpl in H. rewrite E in H. simpl in H.
    destruct (IH H) as (p & r & -> & Hp).
    exists (x :: p), r. split; [reflexivity|].
    unfold has. simpl. rewrite E. exact Hp.
Qed.

Lemma split_last (c : char) (s : str) :
  has c s = true -> exists a r, s = a ++ c :: r /\ has c r = false.
Proof.
  intros H. rewrite <- has_rev in H.
  destruct (split_first c (rev s) H) as (p & r & Hs & Hp).
  exists (rev r), (rev p). split.
  - rewrite <- (rev_involutive s), Hs, rev_app_distr. cbn [rev].
    rewrite <- app_assoc. reflexivity.
  - now rewrite has_rev.
Qed.

Lemma from_first_app (c : char) (p r : str) :
  has c p = false -> from_first c (p ++ c :: r) = c :: r.
Proof.
  induction p as [|x p IH]; intros H; simpl.
  - now rewrite N.eqb_refl.
  - unfold has in H. simpl in H. apply orb_false_elim in H as [Hx H].
    rewrite N.eqb_sym, Hx. now apply IH.
Qed.

Lemma upto_last_app (c : char) (a r : str) :
  has c r = false -> upto_last c (a ++ c :: r) = a ++ [c].
Proof.
  intros H. unfold upto_last. rewrite rev_app_distr. cbn [rev].
  rewrite <- app_assoc. cbn [app].
  rewrite from_first_app by (now rewrite has_rev).
  cbn [rev]. now rewrite rev_involutive.
Qed.

Lemma endswith_within (m a : str) (y : char) (s : str) :
  endswith m (a ++ y :: s) = true -> has y m = false ->
  length m <= length s.
Proof.
  unfold endswith. rewrite rev_app_distr. cbn [rev].
  rewrite <- app_assoc. cbn [app]. intros Hs Hm.
  rewrite <- (length_rev m), <- (length_rev s).
  eapply startswith_within; [exact Hs|]. now rewrite has_rev.
Qed.

Lemma drop_last_within (k : nat) (a s : str) :
  k <= length s -> drop_last k (a ++ s) = a ++ firstn (length s - k) s.
Proof.
  intros H. unfold drop_last. rewrite length_app.
  replace (length a + length s - k) with (length a + (length s - k)) by lia.
  apply firstn_app_2.
Qed.

Lemma skipn_exact {A : Type} (p r : list A) : skipn (length p) (p ++ r) = r.
Proof.
  rewrite skipn_app, skipn_all, Nat.sub_diag. reflexivity.
Qed.

Lemma strip_nonspace_ends (x : char) (mid : str) (y : char) :
  isspace x = false -> isspace y = false ->
  strip (x :: mid ++ [y]) = x :: mid ++ [y].
Proof.
  intros Hx Hy. apply (strip_bracketed [] x mid y [] Hx Hy).
Qed.

Lemma group_left (p : str) (x : char) (mid : str) (y : char) (s : str) :
  p ++ x :: mid ++ y :: s = (p ++ x :: mid) ++ y :: s.
Proof. rewrite <- app_assoc. reflexivity. Qed.

Lemma group_right (p : str) (x : char) (mid : str) (y : char) (s : str) :
  p ++ x :: mid ++ y :: s = (p ++ x :: mid ++ [y]) ++ s.
Proof. rewrite <- app_assoc. cbn [app]. rewrite <- app_assoc. reflexivity. Qed.

(** *** A bracketed object between a prefix and a suffix *)

Lemma extract_bracketed (prefix mid suffix : str) :
  has LBRACE prefix = false -> has RBRACE suffix = false ->
  extract_json_text (prefix ++ LBRACE :: mid ++ RBRACE :: suffix)
  = LBRACE :: mid ++ [RBRACE].
Proof.
  intros Hp Hs. unfold extract_json_text. cbv zeta.
  rewrite strip_bracketed by reflexivity.
  pose proof (has_lstrip LBRACE prefix Hp) as Hp1.
  pose proof (has_rstrip RBRACE suffix Hs) as Hs1.
  set (p1 := lstrip prefix) in *. set (s1 := rstrip suffix) in *.
  (* the leading fence *)
  assert (E1 : exists p2, has LBRACE p2 = false
             /\ (if startswith FENCE_JSON (p1 ++ LBRACE :: mid ++ RBRACE :: s1)
                 then slice_from 7 (p1 ++ LBRACE :: mid ++ RBRACE :: s1)
                 else p1 ++ LBRACE :: mid ++ RBRACE :: s1)
                = p2 ++ LBRACE :: mid ++ RBRACE :: s1).
  { destruct (startswith FENCE_JSON _) eqn:E.
    - exists (skipn 7 p1). split; [now apply has_skipn|].
      apply startswith_within in E; [|reflexivity].
      unfold slice_from. change (Z.to_nat 7) with 7.
      apply skipn_within. exact E.
    - exists p1. split; [exact Hp1|reflexivity]. }
  destruct E1 as (p2 & Hp2 & ->).
  (* the trailing fence *)
  assert (E2 : exists s2, has RBRACE s2 = false
             /\ (if endswith FENCE (p2 ++ LBRACE :: mid ++ RBRACE :: s1)
                 then drop_last 3 (p2 ++ LBRACE :: mid ++ RBRACE :: s1)
                 else p2 ++ LBRACE :: mid ++ RBRACE :: s1)
                = p2 ++ LBRACE :: mid ++ RBRACE :: s2).
  { destruct (endswith FENCE _) eqn:E.
    - exists (firstn (length s1 - 3) s1). split; [now apply has_firstn|].
      rewrite group_left in E. apply endswith_within in E; [|reflexivity].
      rewrite group_right, drop_last_within by exact E.
      now rewrite <- group_right.
    - exists s1. split; [exact Hs1|reflexivity]. }
  destruct E2 as (s2 & Hs2 & ->).
  (* what precedes the first opening brace *)
  unfold find. rewrite find_from_app by exact Hp2.
  assert (E3 : (if (0 <? 0 + Z.of_nat (length p2))%Z
                then slice_from (0 + Z.of_nat (length p2))
                       (p2 ++ LBRACE :: mid ++ RBRACE :: s2)
                else p2 ++ LBRACE :: mid ++ RBRACE :: s2)
               = (LBRACE :: mid) ++ RBRACE :: s2).
  { destruct (0 <? 0 + Z.of_nat (length p2))%Z eqn:E.
    - unfold slice_from. rewrite Z.add_0_l, Nat2Z.id. apply skipn_exact.
    - apply Z.ltb_ge in E. destruct p2; [reflexivity|cbn [length] in E; lia]. }
  rewrite E3.
  (* what follows the last closing brace *)
  unfold rfind. rewrite rfind_from_app by exact Hs2.
  assert (E4 : (if ((0 <? 0 + Z.of_nat (length (LBRACE :: mid)))
                    && (0 + Z.of_nat (length (LBRACE :: mid))
                        <? Z.of_nat (length ((LBRACE :: mid) ++ RBRACE :: s2)) - 1))%Z
                then slice_to (0 + Z.of_nat (length (LBRACE :: mid)) + 1)
                       ((LBRACE :: mid) ++ RBRACE :: s2)
                else (LBRACE :: mid) ++ RBRACE :: s2)
               = LBRACE :: mid ++ [RBRACE]).
  { destruct (_ && _)%bool eqn:E.
    - unfold slice_to.
      replace (Z.to_nat (0 + Z.of_nat (length (LBRACE :: mid)) + 1))
        with (length (LBRACE :: mid) + 1) by lia.
      rewrite firstn_app_2. reflexivity.
    - apply andb_false_iff in E as [E|E]; apply Z.ltb_ge in E.
      + cbn [length] in E. lia.
      + destruct s2; [reflexivity|].
        rewrite length_app in E. cbn [length] in E. lia. }
  rewrite E4.
  apply strip_nonspace_ends; reflexivity.
Qed.

(** *** The trimming against the specification's wording *)

Lemma discard_before_first (c2 : str) :
  (if (0 <? find LBRACE c2)%Z then slice_from (find LBRACE c2) c2 else c2)
  = (if has LBRACE c2 then from_first LBRACE c2 else c2).
Proof.
  destruct (has LBRACE c2) eqn:H.
  - destruct (split_first LBRACE c2 H) as (p & r & -> & Hp).
    unfold find. rewrite find_from_app, from_first_app by exact Hp.
    destruct (0 <? 0 + Z.of_nat (length p))%Z eqn:E.
    + unfold slice_from. rewrite Z.add_0_l, Nat2Z.id. apply skipn_exact.
    + apply Z.ltb_ge in E. destruct p; [reflexivity|cbn [length] in E; lia].
  - unfold find. rewrite find_from_absent by exact H. reflexivity.
Qed.

Lemma discard_after_last (c3 : str) :
  let kept :=
    if ((0 <? rfind RBRACE c3)
        && (rfind RBRACE c3 <? Z.of_nat (length c3) - 1))%Z
    then slice_to (rfind RBRACE c3 + 1) c3 else c3 in
  let wanted := if has RBRACE c3 then upto_last RBRACE c3 else c3 in
  kept = wanted \/ exists t, kept = RBRACE :: t /\ wanted = [RBRACE].
Proof.
  cbv zeta. destruct (has RBRACE c3) eqn:H.
  - destruct (split_last RBRACE c3 H) as (a & r & -> & Hr).
    unfold rfind. rewrite rfind_from_app, upto_last_app by exact Hr.
    destruct a as [|x a].
    + right. exists r. split; reflexivity.
    + left. destruct (_ && _)%bool eqn:E.
      * unfold slice_to.
        replace (Z.to_nat (0 + Z.of_nat (length (x :: a)) + 1))
          with (length (x :: a) + 1) by lia.
        rewrite firstn_app_2. reflexivity.
      * apply andb_false_iff in E as [E|E]; apply Z.ltb_ge in E.
        -- cbn [length] in E. lia.
        -- destruct r; [reflexivity|].
           rewrite length_app in E. cbn [length] in E. lia.
  - left. unfold rfind. rewrite rfind_from_absent by exact H. reflexivity.
Qed.

Lemma strip_closing_brace (t : str) : strip (RBRACE :: t) = RBRACE :: rstrip t.
Proof.
  unfold strip. change (lstrip (RBRACE :: t)) with (RBRACE :: t).
  apply (rstrip_app_nonspace [] RBRACE t). reflexivity.
Qed.

(** No JSON text starts with a closing brace. *)
Lemma json_loads_closing_brace (t : str) :
  json_loads (RBRACE :: t) = Raise (JSONDecodeError ExpectingValue 0 1 1).
Proof.
  unfold json_loads, fuel_for. cbn [length Nat.mul Nat.add].
  reflexivity.
Qed.

Lemma trimming_refines_the_wording (response : str) :
  json_loads (extract_json_text response) = json_loads (spec_extract response).
Proof.
  unfold extract_json_text, spec_extract. cbv zeta.
  change (length FENCE_JSON) with 7. change (length FENCE) with 3.
  change (slice_from 7) with (@skipn char 7).
  set (c2 := if endswith FENCE _ then _ else _).
  rewrite discard_before_first.
  set (c3 := if has LBRACE c2 then _ else _).
  destruct (discard_after_last c3) as [->|(t & -> & ->)]; [reflexivity|].
  rewrite strip_closing_brace.
  change (strip [RBRACE]) with [RBRACE].
  now rewrite !json_loads_closing_brace.
Qed.

Section WithInterp.
Context {I : Interp}.

Lemma parse_uses_the_trimmed_text self now r1 r2 tr ctx :
  extract_json_text r1 = extract_json_text r2 ->
  _parse_evaluation_response self now r1 tr ctx
  = _parse_evaluation_response self now r2 tr ctx.
Proof.
  intros H. unfold _parse_evaluation_response, parse_body. now rewrite H.
Qed.

(** C5.  For every response, what the parser hands to the JSON decoder
    is what the specification's wording yields: the response stripped of
    surrounding white space, of a leading [```json] and of a trailing
    [```], without what precedes the first opening brace and without what
    follows the last closing brace (the two differ only on a text that
    begins with its only closing brace, which no decoder accepts).  In
    particular, for a prefix without opening brace, an object text from an
    opening to a closing brace, and a suffix without closing brace, exactly
    the object text is extracted, and the evaluation is the one of the
    object text alone. *)
Theorem response_is_trimmed_to_its_object :
  (forall response,
      json_loads (extract_json_text response)
      = json_loads (spec_extract response))
  /\ (forall prefix mid suffix,
        has LBRACE prefix = false -> has RBRACE suffix = false ->
        extract_json_text (prefix ++ (LBRACE :: mid ++ [RBRACE]) ++ suffix)
        = LBRACE :: mid ++ [RBRACE]
        /\ forall self now tr ctx,
            _parse_evaluation_response self now
              (prefix ++ (LBRACE :: mid ++ [RBRACE]) ++ suffix) tr ctx
            = _parse_evaluation_response self now
                (LBRACE :: mid ++ [RBRACE]) tr ctx).
Proof.
  split; [exact trimming_refines_the_wording|].
  intros prefix mid suffix Hp Hs.
  assert (E : extract_json_text (prefix ++ (LBRACE :: mid ++ [RBRACE]) ++ suffix)
              = LBRACE :: mid ++ [RBRACE]).
  { replace (prefix ++ (LBRACE :: mid ++ [RBRACE]) ++ suffix)
      with (prefix ++ LBRACE :: mid ++ RBRACE :: suffix)
      by (cbn [app]; rewrite <- app_assoc; reflexivity).
    now apply extract_bracketed. }
  split; [exact E|].
  intros self now tr ctx. apply parse_uses_the_trimmed_text.
  rewrite E. symmetry.
  apply (extract_bracketed [] mid []); reflexivity.
Qed.

End WithInterp.

(** The specification's example: the verdict between "Sure!" and "Hope
    that helps!" is evaluated as the verdict alone, with the five scores it
    gives and the overall score 3.75. *)
Lemma response_is_trimmed_to_its_object_witness :
  has LBRACE (lit "Sure!" ++ nl) = false
  /\ has RBRACE (nl ++ lit "Hope that helps!") = false
  /\ extract_json_text chatty_verdict = verdict
  /\ exists ev,
       _parse_evaluation_response (I := Reference.interp)
         (judge_answering chatty_verdict) now chatty_verdict
         sample_test_result sample_context = Ok ev
       /\ List.map (fun cs => (cs.(criteria), cs.(score_value))) ev.(scores)
          = [(TASK_PERFORMANCE, 5%Z); (RESPONSE_QUALITY, 3%Z);
             (LANGUAGE_QUALITY, 4%Z); (TOOL_USAGE, 4%Z);
             (FACTUAL_ACCURACY, 2%Z)]
       /\ ev.(overall_score) = 3.75%float.
Proof.
  split; [reflexivity|]. split; [reflexivity|].
  pose proof (proj2 (response_is_trimmed_to_its_object (I := Reference.interp))
                (lit "Sure!" ++ nl) (removelast (tl verdict))
                (nl ++ lit "Hope that helps!") eq_refl eq_refl) as [E P].
  split; [exact E|].
  eexists. split; [|split].
  - change chatty_verdict
      with ((lit "Sure!" ++ nl)
            ++ (LBRACE :: removelast (tl verdict) ++ [RBRACE])
            ++ (nl ++ lit "Hope that helps!")) at 2.
    rewrite P. vm_compute. reflexivity.
  - reflexivity.
  - reflexivity.
Defined.

End TrimFacts.

(** ** The executor: arguments of tool calls *)

Module ToolArguments.

Import Executor Examples.

Lemma startswith_app (p x : str) : startswith p (p ++ x) = true.
Proof.
  induction p as [|c p IH]; [reflexivity|].
  simpl. now rewrite N.eqb_refl.
Qed.

Lemma contains_prefix (p x : str) : contains p (p ++ x) = true.
Proof.
  destruct (p ++ x) eqn:E; simpl; rewrite <- E, startswith_app; reflexivity.
Qed.

Lemma skip_ws_nothing_left (rest : str) (i : nat) :
  fst (skip_ws rest i) = [] <-> forallb json_ws rest = true.
Proof.
  revert i. induction rest as [|c rest IH]; intros i; simpl.
  - split; reflexivity.
  - destruct (json_ws c); simpl; [apply IH|].
    split; discriminate.
Qed.

Lemma skip_ws_at_value (c : char) (t : str) (i : nat) :
  json_ws c = false -> skip_ws (c :: t) i = (c :: t, i).
Proof. intros H. simpl. now rewrite H. Qed.

(** The scanner does not skip white space, and no value starts with a
    byte order mark. *)
Lemma scan_once_head (fuel : nat) (s : str) (i : nat) r :
  scan_once fuel s i = inr r ->
  exists c t, s = c :: t /\ json_ws c = false /\ (c =? 65279)%N = false.
Proof.
  destruct fuel as [|f]; [discriminate|].
  destruct s as [|c t]; [discriminate|].
  intros H. exists c, t. split; [reflexivity|].
  split.
  - destruct (json_ws c) eqn:E; [|reflexivity].
    unfold json_ws in E.
    repeat (apply orb_prop in E as [E|E]);
      apply N.eqb_eq in E; subst c; discriminate H.
  - destruct (c =? 65279)%N eqn:E; [|reflexivity].
    apply N.eqb_eq in E; subst c; discriminate H.
Qed.

Section WithInterp.
Context {I : Interp}.

Lemma extra_data_is_recognised (pos line col : nat) :
  contains (lit "Extra data") (exn_str (JSONDecodeError ExtraData pos line col))
  = true.
Proof.
  unfold exn_str, decode_error_str.
  change (decode_msg_text ExtraData) with (lit "Extra data").
  apply contains_prefix.
Qed.

(** A value at the start of the text is what [safe_json_loads] returns,
    with a warning when more than white space follows it. *)
Lemma safe_json_loads_first_value (s : str) (v : json) (rest : str) :
  raw_decode s = Ok (v, rest) ->
  safe_json_loads (JStr s)
  = if forallb json_ws rest then ([], Ok v)
    else ([(WARNING, lit "Found extra data after JSON: '" ++ rest ++ lit "'")],
          Ok v).
Proof.
  intros Hraw. unfold safe_json_loads.
  assert (Hscan : exists j, scan_once (fuel_for s) s 0 = inr (v, rest, j)).
  { unfold raw_decode in Hraw.
    destruct (scan_once (fuel_for s) s 0) as [[m p]|[[v' rest'] j]];
      [discriminate|].
    injection Hraw as <- <-. eauto. }
  destruct Hscan as (j & Hscan).
  destruct (scan_once_head _ _ _ _ Hscan) as (c & t & -> & Hws & Hbom).
  unfold json_loads. cbn [startswith]. rewrite N.eqb_sym, Hbom. cbn [andb].
  rewrite skip_ws_at_value by exact Hws. rewrite Hscan.
  destruct (skip_ws rest j) as [rest' j'] eqn:Eskip.
  pose proof (skip_ws_nothing_left rest j) as Hleft.
  rewrite Eskip in Hleft. cbn [fst] in Hleft.
  destruct rest' as [|x rest'].
  - rewrite (proj1 Hleft eq_refl). reflexivity.
  - destruct (forallb json_ws rest) eqn:Eall.
    + destruct Hleft as [_ Hleft]. discriminate (Hleft eq_refl).
    + unfold decode_error. rewrite extra_data_is_recognised, Hraw. reflexivity.
Qed.

Lemma safe_json_loads_not_text (v : json) :
  (forall s, v <> JStr s) -> safe_json_loads v = ([], Ok v).
Proof.
  intros H. destruct v; try reflexivity. now destruct (H s).
Qed.

(** A tool call whose argument text cannot be recovered is not
    normalised: the decoder's exception leaves [normalize_tool_call]. *)
Lemma unparseable_arguments_raise (tool_call_info : dict) (name : json) (s : str) e :
  dict_get (lit "function") tool_call_info = None ->
  dict_get (lit "name") tool_call_info = Some name ->
  dict_get (lit "arguments") tool_call_info = Some (JStr s) ->
  snd (safe_json_loads (JStr s)) = Raise e ->
  normalize_tool_call tool_call_info = Raise e.
Proof.
  intros Hf Hn Ha He. unfold normalize_tool_call.
  rewrite Hf. cbn [bind]. unfold subscript. rewrite Hn, Ha. cbn [bind].
  rewrite He. reflexivity.
Qed.

Section WithWorld.
Variable World : Type.
Variable clock : World -> float.
Variable sleep : float -> World -> World.
Variable rate_limit_delay : float.
Variable config : BenchmarkConfig.

Let step := tool_step clock sleep rate_limit_delay config.

(** An exception while a tool call is prepared appends an error payload
    to the tool results, and the loop goes on with the next call. *)
Lemma tool_error_is_recorded (provider : Provider World) model_config model_id
    tool_call_info rest lp st e :
  normalize_tool_call tool_call_info = Raise e ->
  fold_left (step provider model_config model_id) (tool_call_info :: rest) (lp, st)
  = fold_left (step provider model_config model_id) rest
      ({| loop_messages := lp.(loop_messages);
          loop_response := lp.(loop_response);
          calls_made := lp.(calls_made);
          results := lp.(results) ++ [JObj [(lit "error", JStr (exn_str e))]] |},
       st).
Proof.
  intros H. cbn [fold_left]. unfold step at 2, tool_step. rewrite H. reflexivity.
Qed.

Lemma test_with_one_bad_call (provider : Provider World) model_config
    test_case model_id st response w1 tool_call_info e :
  provider.(generate_response)
    (format_messages_with_system_prompt provider test_case.(tc_user_query))
    model_config (Some provider.(get_database_tools))
    config.(timeout_per_test) st.(world) = (Ok response, w1) ->
  config.(include_tool_execution) = true ->
  response.(tool_calls) = [tool_call_info] ->
  normalize_tool_call tool_call_info = Raise e ->
  fst (_run_single_test clock sleep rate_limit_delay config provider
         model_config test_case model_id st)
  = {| test_case_id := test_case.(id);
       Models.model_id := model_id;
       scenario_type := test_case.(tc_scenario_type);
       user_query := test_case.(tc_user_query);
       model_response := response;
       tool_calls_made := [];
       tool_results := [[(lit "error", JStr (exn_str e))]];
       execution_time_ms := ((clock w1 - clock st.(world)) * 1000)%float;
       timestamp := clock w1;
       error := None |}.
Proof.
  intros Hgen Hinc Hcalls Hnorm. unfold _run_single_test.
  rewrite Hinc, Hgen, Hcalls. cbn [fold_left].
  unfold tool_step. rewrite Hnorm. reflexivity.
Qed.

(** C8.  When the scanner reads a JSON value at the start of the
    argument text, [safe_json_loads] returns that value: silently if only
    white space follows, and with the warning "Found extra data after
    JSON" if anything else follows.  An input that is not a text is
    returned unchanged.  When the text is not recovered, the decoder's
    exception leaves the normalisation of the tool call; the executor then
    appends the payload with the key "error" and the exception's message to
    the tool results and carries on with the next tool call, and a test
    whose only tool call fails in this way still yields a [TestResult]
    without top-level error. *)
Theorem tool_arguments_are_recovered :
  (forall s v rest,
      raw_decode s = Ok (v, rest) ->
      safe_json_loads (JStr s)
      = if forallb json_ws rest then ([], Ok v)
        else ([(WARNING, lit "Found extra data after JSON: '" ++ rest ++ lit "'")],
              Ok v))
  /\ (forall v, (forall s, v <> JStr s) -> safe_json_loads v = ([], Ok v))
  /\ (forall tool_call_info name s e,
        dict_get (lit "function") tool_call_info = None ->
        dict_get (lit "name") tool_call_info = Some name ->
        dict_get (lit "arguments") tool_call_info = Some (JStr s) ->
        snd (safe_json_loads (JStr s)) = Raise e ->
        normalize_tool_call tool_call_info = Raise e)
  /\ (forall (provider : Provider World) model_config model_id
             tool_call_info rest lp st e,
        normalize_tool_call tool_call_info = Raise e ->
        fold_left (step provider model_config model_id)
          (tool_call_info :: rest) (lp, st)
        = fold_left (step provider model_config model_id) rest
            ({| loop_messages := lp.(loop_messages);
                loop_response := lp.(loop_response);
                calls_made := lp.(calls_made);
                results := lp.(results)
                           ++ [JObj [(lit "error", JStr (exn_str e))]] |},
             st))
  /\ (forall (provider : Provider World) model_config test_case model_id
             st response w1 tool_call_info e,
        provider.(generate_response)
          (format_messages_with_system_prompt provider test_case.(tc_user_query))
          model_config (Some provider.(get_database_tools))
          config.(timeout_per_test) st.(world) = (Ok response, w1) ->
        config.(include_tool_execution) = true ->
        response.(tool_calls) = [tool_call_info] ->
        normalize_tool_call tool_call_info = Raise e ->
        fst (_run_single_test clock sleep rate_limit_delay config provider
               model_config test_case model_id st)
        = {| test_case_id := test_case.(id);
             Models.model_id := model_id;
             scenario_type := test_case.(tc_scenario_type);
             user_query := test_case.(tc_user_query);
             model_response := response;
             tool_calls_made := [];
             tool_results := [[(lit "error", JStr (exn_str e))]];
             execution_time_ms := ((clock w1 - clock st.(world)) * 1000)%float;
             timestamp := clock w1;
             error := None |}).
Proof.
  split; [exact safe_json_loads_first_value|].
  split; [exact safe_json_loads_not_text|].
  split; [exact unparseable_arguments_raise|].
  split; [exact tool_error_is_recorded|exact test_with_one_bad_call].
Qed.

End WithWorld.
End WithInterp.

(** An object followed by chatter: the object is returned, the chatter is
    reported in a warning. *)
Lemma tool_arguments_are_recovered_witness :
  raw_decode (jlit "{'name': 'laptop'} and more")
  = Ok (JObj [(lit "name", JStr (lit "laptop"))], lit " and more")
  /\ safe_json_loads (I := Reference.interp)
       (JStr (jlit "{'name': 'laptop'} and more"))
     = ([(WARNING, lit "Found extra data after JSON: ' and more'")],
        Ok (JObj [(lit "name", JStr (lit "laptop"))])).
Proof.
  split; [vm_compute; reflexivity|].
  exact (proj1 (tool_arguments_are_recovered (I := Reference.interp)
                  unit (fun _ => 0%float) (fun _ w => w) 0%float
                  {| concurrent_models := 3; timeout_per_test := 60;
                     save_intermediate_results := true;
                     include_tool_execution := true |})
           (jlit "{'name': 'laptop'} and more")
           (JObj [(lit "name", JStr (lit "laptop"))]) (lit " and more")
           eq_refl).
Defined.

(** White space before the value defeats the recovery: [raw_decode]
    starts at the first character, and the pattern only looks for an
    object. *)
Lemma leading_white_space_is_not_recovered :
  snd (safe_json_loads (I := Reference.interp) (JStr (lit " 12 and more")))
  = Raise (JSONDecodeError ExtraData 4 1 5).
Proof.
  vm_compute. reflexivity.
Qed.

End ToolArguments.

(** ** The executor: one test *)

Module SingleTest.

Import Executor Examples.

Section WithInterp.
Context {I : Interp}.

Section WithWorld.
Variable World : Type.
Variable clock : World -> float.
Variable sleep : float -> World -> World.
Variable rate_limit_delay : float.
Variable config : BenchmarkConfig.

(** C6, as the code has it.  When the first generation call of a test
    is given up at [timeout_per_test], the executor returns a [TestResult]
    whose model response has empty content and the error "Timeout", with
    no tool calls made and no tool results, and whose execution time is the
    time elapsed on the clock since the test started, in milliseconds.  The
    [error] field of the [TestResult] itself reads "Test timed out". *)
Theorem timeout_is_recorded (provider : Provider World) model_config test_case
    model_id st w1 :
  provider.(generate_response)
    (format_messages_with_system_prompt provider test_case.(tc_user_query))
    model_config
    (if config.(include_tool_execution)
     then Some provider.(get_database_tools) else None)
    config.(timeout_per_test) st.(world) = (Raise TimeoutError, w1) ->
  _run_single_test clock sleep rate_limit_delay config provider model_config
    test_case model_id st
  = ({| test_case_id := test_case.(id);
        Models.model_id := model_id;
        scenario_type := test_case.(tc_scenario_type);
        user_query := test_case.(tc_user_query);
        model_response :=
          {| content := []; usage := None;
             model := model_config.(model_name);
             provider := provider.(provider_name);
             tool_calls := []; mr_error := Some (lit "Timeout");
             latency_ms := None |};
        tool_calls_made := [];
        tool_results := [];
        execution_time_ms := ((clock w1 - clock st.(world)) * 1000)%float;
        timestamp := clock w1;
        error := Some (lit "Test timed out") |},
     set_world w1 st).
Proof.
  intros H. unfold _run_single_test. rewrite H. reflexivity.
Qed.

End WithWorld.
End WithInterp.

(** A provider that never answers, with a timeout of 60 seconds: the
    result reports 60000 milliseconds. *)
Lemma timeout_is_recorded_witness :
  silent_provider.(generate_response)
    (format_messages_with_system_prompt silent_provider
       (sample_test_case "correct_001").(tc_user_query))
    sample_model_config (Some silent_provider.(get_database_tools))
    sample_config.(timeout_per_test) (fresh_state [lit "mock"] 1).(world)
  = (Raise TimeoutError, 60%float)
  /\ execution_time_ms
       (fst (_run_single_test (I := Reference.interp) read_clock pass_time
               1%float sample_config silent_provider sample_model_config
               (sample_test_case "correct_001") (lit "mock")
               (fresh_state [lit "mock"] 1)))
     = 60000%float.
Proof.
  split; [vm_compute; reflexivity|].
  rewrite (timeout_is_recorded (I := Reference.interp) clock_world read_clock
             pass_time 1%float sample_config silent_provider
             sample_model_config (sample_test_case "correct_001") (lit "mock")
             (fresh_state [lit "mock"] 1) 60%float);
    vm_compute; reflexivity.
Defined.

(** C6 as stated fails on the [error] field of the [TestResult]: after a
    timeout it is "Test timed out", not "Timeout"; "Timeout" is the error
    of the model response inside the result.  And only the first generation
    call of a test is treated so: when the call that words a tool's result
    times out, the test keeps the first response, its tool call and its
    tool result, gains an error payload (with the empty message of the
    timeout) among the tool results, and has no error of its own. *)
Lemma timeout_error_field_counterexample :
  let r := fst (_run_single_test (I := Reference.interp) read_clock pass_time
                  1%float sample_config silent_provider sample_model_config
                  (sample_test_case "correct_001") (lit "mock")
                  (fresh_state [lit "mock"] 1)) in
  let r' := fst (_run_single_test (I := Reference.interp) read_clock pass_time
                   1%float sample_config flaky_provider sample_model_config
                   (sample_test_case "correct_001") (lit "mock")
                   (fresh_state [lit "mock"] 1)) in
  r.(error) = Some (lit "Test timed out")
  /\ r.(error) <> Some (lit "Timeout")
  /\ r.(model_response).(mr_error) = Some (lit "Timeout")
  /\ r'.(error) = None
  /\ r'.(model_response).(content) = lit "Let me look."
  /\ length r'.(tool_calls_made) = 1
  /\ r'.(tool_results)
     = [[(lit "products", JArr [])]; [(lit "error", JStr [])]].
Proof.
  cbv zeta. split; [vm_compute; reflexivity|].
  split; [vm_compute; discriminate|].
  repeat split; vm_compute; reflexivity.
Qed.

End SingleTest.

(** ** The executor: one model's run *)

Module ModelRun.

Import Executor Examples.



Section WithInterp.
Context {I : Interp}.

Section WithWorld.
Variable World : Type.
Variable clock : World -> float.
Variable sleep : float -> World -> World.
Variable rate_limit_delay : float.
Variable config : BenchmarkConfig.
Variable progress_callback :
  option (BenchmarkProgress -> World -> result unit * World).
Variable validate_model_config : json -> str -> result ModelConfig.
Variable _calculate_model_summary : ModelBenchmarkResults -> dict.
Variable _save_model_results : ModelBenchmarkResults -> World -> result unit * World.

Let single := _run_single_test clock sleep rate_limit_delay config.
Let run := _run_model_benchmark clock sleep rate_limit_delay config
             progress_callback validate_model_config _calculate_model_summary
             _save_model_results.










End WithWorld.
End WithInterp.




End ModelRun.

(** ** Admission of the model workers *)

Module Admission.

Import Sched.

Lemma filter_set_nth_length {A : Type} (p : A -> bool) (i : nat) (w w' : A)
    (ws : list A) :
  nth_error ws i = Some w ->
  length (filter p (set_nth i w' ws)) + (if p w then 1 else 0)
  = length (filter p ws) + (if p w' then 1 else 0).
Proof.
  revert i. induction ws as [|x ws IH]; intros [|i] H; try discriminate.
  - injection H as ->. cbn. destruct (p w), (p w'); cbn; lia.
  - cbn [set_nth filter]. specialize (IH i H).
    destruct (p x); cbn [length]; lia.
Qed.

Lemma length_set_nth {A : Type} (i : nat) (x : A) (l : list A) :
  length (set_nth i x l) = length l.
Proof.
  revert i. induction l as [|y l IH]; intros [|i]; cbn; auto.
Qed.

(** What holds in every state: a worker whose model is [RUNNING] is
    inside the block, and the permits left plus the workers inside the
    block are the permits the semaphore was created with. *)
Definition consistent (w : worker) : Prop :=
  is_running w = true -> holds_permit w = true.

Definition invariant (concurrent_models : nat) (s : state) : Prop :=
  Forall consistent s.(workers)
  /\ s.(permits) + inside s = concurrent_models.

Lemma wstep_consistent w v w' v' : wstep w v w' v' -> consistent w'.
Proof.
  intros H; destruct H as [| | | | | |s v [-> | ->]]; intros Hr;
    try reflexivity; discriminate Hr.
Qed.

Lemma wstep_permits w v w' v' :
  wstep w v w' v' ->
  v + (if holds_permit w then 1 else 0)
  = v' + (if holds_permit w' then 1 else 0).
Proof. intros H; destruct H; cbn; lia. Qed.

Lemma Forall_set_nth {A : Type} (P : A -> Prop) (i : nat) (x : A) (l : list A) :
  Forall P l -> P x -> Forall P (set_nth i x l).
Proof.
  intros Hl Hx. revert i. induction Hl as [|y l Hy Hl IH]; intros [|i]; cbn;
    constructor; auto.
Qed.

Lemma initial_invariant concurrent_models n_models :
  invariant concurrent_models (initial concurrent_models n_models).
Proof.
  unfold invariant, initial, inside. cbn [workers permits]. split.
  - apply Forall_forall. intros w Hw. apply repeat_spec in Hw. subst w.
    intros Hr. discriminate Hr.
  - induction n_models as [|n IH]; cbn; [lia|exact IH].
Qed.

Lemma step_invariant concurrent_models s s' :
  invariant concurrent_models s -> step s s' -> invariant concurrent_models s'.
Proof.
  intros [Hc Hp] Hstep. destruct Hstep as [i w w' v v' ws Hnth Hw].
  unfold invariant, inside in *. cbn [workers permits] in *. split.
  - apply Forall_set_nth; [exact Hc|]. eapply wstep_consistent; eassumption.
  - pose proof (filter_set_nth_length holds_permit i w w' ws Hnth) as Hlen.
    pose proof (wstep_permits w v w' v' Hw) as Hv.
    destruct (holds_permit w), (holds_permit w'); lia.
Qed.

Lemma reachable_invariant concurrent_models n_models s :
  reachable concurrent_models n_models s -> invariant concurrent_models s.
Proof.
  induction 1 as [|s s' _ IH Hstep].
  - apply initial_invariant.
  - eapply step_invariant; eassumption.
Qed.

Lemma running_le_inside s :
  Forall consistent s.(workers) -> running s <= inside s.
Proof.
  unfold running, inside. induction 1 as [|w ws Hw _ IH]; cbn; [lia|].
  unfold consistent in Hw.
  destruct (is_running w); [rewrite Hw by reflexivity|destruct (holds_permit w)];
    cbn; lia.
Qed.

(** C10.  In every state that [run_benchmark] can reach, at most
    [concurrent_models] workers have their model in the [RUNNING] state; a
    worker enters the block only by taking a permit, so that a worker still
    waiting moves only while fewer than [concurrent_models] workers are
    inside, and otherwise waits. *)
Theorem at_most_concurrent_models_running concurrent_models n_models s :
  reachable concurrent_models n_models s ->
  running s <= concurrent_models
  /\ s.(permits) + inside s = concurrent_models
  /\ (forall w' v',
        wstep (Waiting, PENDING) s.(permits) w' v' ->
        inside s < concurrent_models).
Proof.
  intros Hreach. destruct (reachable_invariant _ _ _ Hreach) as [Hc Hp].
  split; [|split].
  - pose proof (running_le_inside s Hc). lia.
  - exact Hp.
  - intros w' v' Hw. inversion Hw; subst. lia.
Qed.

(** Five models with two permits: after two workers have been let in
    and have started, two models are running, no permit is left, and the
    third worker cannot enter. *)
Definition two_running : state :=
  {| permits := 0;
     workers := [(Testing, RUNNING); (Testing, RUNNING);
                 (Waiting, PENDING); (Waiting, PENDING); (Waiting, PENDING)] |}.

Lemma two_running_reachable : reachable 2 5 two_running.
Proof.
  eapply reach_step.
  2: { apply (@step_worker 1 (Entered, PENDING) (Testing, RUNNING) 0 0
                [(Testing, RUNNING); (Entered, PENDING);
                 (Waiting, PENDING); (Waiting, PENDING); (Waiting, PENDING)]);
       [reflexivity|constructor]. }
  eapply reach_step.
  2: { apply (@step_worker 0 (Entered, PENDING) (Testing, RUNNING) 0 0
                [(Entered, PENDING); (Entered, PENDING);
                 (Waiting, PENDING); (Waiting, PENDING); (Waiting, PENDING)]);
       [reflexivity|constructor]. }
  eapply reach_step.
  2: { apply (@step_worker 1 (Waiting, PENDING) (Entered, PENDING) 1 0
                [(Entered, PENDING); (Waiting, PENDING);
                 (Waiting, PENDING); (Waiting, PENDING); (Waiting, PENDING)]);
       [reflexivity|constructor]. }
  eapply reach_step.
  2: { apply (@step_worker 0 (Waiting, PENDING) (Entered, PENDING) 2 1
                [(Waiting, PENDING); (Waiting, PENDING);
                 (Waiting, PENDING); (Waiting, PENDING); (Waiting, PENDING)]);
       [reflexivity|constructor]. }
  apply reach_initial.
Qed.

Lemma at_most_concurrent_models_running_witness :
  reachable 2 5 two_running
  /\ running two_running = 2
  /\ running two_running <= 2
  /\ (forall w' v', ~ wstep (Waiting, PENDING) two_running.(permits) w' v').
Proof.
  split; [exact two_running_reachable|]. split; [reflexivity|].
  split.
  - exact (proj1 (at_most_concurrent_models_running 2 5 two_running
                    two_running_reachable)).
  - intros w' v' H. inversion H.
Defined.

End Admission.

(** ** Score values of a parsed verdict *)

Module ScoreValues.

Import JudgeFacts Examples Reference.

(** The five scores parsed from the example verdict carry the values of
    their levels. *)
Lemma score_value_is_canonical_witness :
  exists ev,
    _parse_evaluation_response (judge_answering verdict) now verdict
      sample_test_result sample_context = Ok ev
    /\ List.map (fun cs => (cs.(score), cs.(score_value))) ev.(scores)
       = [(EXCELLENT, 5%Z); (SATISFACTORY, 3%Z); (GOOD, 4%Z); (GOOD, 4%Z);
          (POOR, 2%Z)]
    /\ Forall canonical ev.(scores).
Proof.
  destruct (_parse_evaluation_response (judge_answering verdict) now verdict
              sample_test_result sample_context) as [ev|e] eqn:E;
    [|vm_compute in E; discriminate E].
  exists ev. split; [reflexivity|]. split.
  - vm_compute in E. injection E as <-. reflexivity.
  - exact (proj1 (proj2 (proj2 score_value_is_canonical))
             (judge_answering verdict) now verdict sample_test_result
             sample_context ev E).
Defined.

End ScoreValues.


(** ** The order of floats

    [SFcompare] orders the numbers; the comparisons of Python floats are
    its Boolean readings. *)

Module FloatOrder.

Lemma SFcompare_antisym (x y : spec_float) :
  SFcompare y x = option_map CompOpp (SFcompare x y).
Proof.
  destruct x as [sx|sx| |sx mx ex], y as [sy|sy| |sy my ey]; simpl;
    try reflexivity;
    try (destruct sx; reflexivity);
    try (destruct sy; reflexivity);
    try (destruct sx, sy; reflexivity).
  destruct sx, sy; try reflexivity;
    rewrite (Z.compare_antisym ex ey);
    destruct (ex ?= ey)%Z; simpl; try reflexivity;
    change (PosDef.Pos.compare_cont Eq ?a ?b) with (Pos.compare a b);
    rewrite (Pos.compare_antisym mx my);
    destruct (mx ?= my)%positive; reflexivity.
Qed.

Lemma SFcompare_refl (x : spec_float) :
  x <> S754_nan -> SFcompare x x = Some Eq.
Proof.
  destruct x as [s|s| |s m e]; simpl; intros H; try reflexivity.
  - destruct s; reflexivity.
  - congruence.
  - rewrite Z.compare_refl.
    change (PosDef.Pos.compare_cont Eq m m) with (Pos.compare m m).
    rewrite Pos.compare_refl. destruct s; reflexivity.
Qed.

Lemma SFleb_trans (x y z : spec_float) :
  SFleb x y = true -> SFleb y z = true -> SFleb x z = true.
Proof.
  unfold SFleb.
  destruct x as [sx|sx| |sx mx ex], y as [sy|sy| |sy my ey],
           z as [sz|sz| |sz mz ez]; simpl;
    try discriminate; try reflexivity;
    try (destruct sx; simpl; try discriminate; try reflexivity);
    try (destruct sy; simpl; try discriminate; try reflexivity);
    try (destruct sz; simpl; try discriminate; try reflexivity).
  all: change (PosDef.Pos.compare_cont Eq ?a ?b) with (Pos.compare a b).
  all: destruct (Z.compare_spec ex ey), (Z.compare_spec ey ez),
         (Z.compare_spec ex ez); simpl; try discriminate; try reflexivity;
       try lia.
  all: destruct (Pos.compare_spec mx my), (Pos.compare_spec my mz),
         (Pos.compare_spec mx mz); simpl; try discriminate; try reflexivity;
       try lia.
Qed.

(** [s == s], which fails for NaN only. *)
Definition is_number (s : float) : Prop := (s =? s)%float = true.

Lemma is_number_spec (s : float) : is_number s -> Prim2SF s <> S754_nan.
Proof.
  unfold is_number. rewrite eqb_spec. unfold SFeqb. intros H E.
  rewrite E in H. discriminate.
Qed.

Lemma ltb_negb_leb (s t : float) :
  is_number s -> is_number t -> (s <? t)%float = negb (t <=? s)%float.
Proof.
  intros Hs Ht. apply is_number_spec in Hs, Ht.
  rewrite ltb_spec, leb_spec. unfold SFltb, SFleb.
  rewrite (SFcompare_antisym (Prim2SF t) (Prim2SF s)).
  destruct (Prim2SF s) as [a|a| |a m e], (Prim2SF t) as [b|b| |b n f];
    try congruence; simpl;
    try (destruct a; reflexivity); try (destruct b; reflexivity);
    try (destruct a, b; reflexivity).
  destruct a, b; try reflexivity;
    destruct (f ?= e)%Z; try reflexivity;
    destruct (PosDef.Pos.compare_cont Eq n m); reflexivity.
Qed.

Lemma leb_trans (x y z : float) :
  (x <=? y)%float = true -> (y <=? z)%float = true -> (x <=? z)%float = true.
Proof. rewrite !leb_spec. apply SFleb_trans. Qed.

End FloatOrder.

(** ** Dicts as association lists *)

Module DictFacts.

Lemma str_eqb_eq (a b : str) : str_eqb a b = true <-> a = b.
Proof.
  revert b. induction a as [|x a IH]; destruct b as [|y b]; simpl;
    split; try discriminate; try reflexivity.
  - intros H. apply andb_prop in H as [Hx Hab].
    apply N.eqb_eq in Hx. apply IH in Hab. congruence.
  - intros H. injection H as -> ->. rewrite N.eqb_refl. now apply IH.
Qed.

Lemma str_eqb_refl (a : str) : str_eqb a a = true.
Proof. now apply str_eqb_eq. Qed.

Lemma str_eqb_neq (a b : str) : str_eqb a b = false <-> a <> b.
Proof.
  split; intros H.
  - intros E. apply str_eqb_eq in E. congruence.
  - destruct (str_eqb a b) eqn:E; [|reflexivity].
    apply str_eqb_eq in E. contradiction.
Qed.

Lemma str_eqb_sym (a b : str) : str_eqb a b = str_eqb b a.
Proof.
  destruct (str_eqb a b) eqn:E.
  - apply str_eqb_eq in E as ->. now rewrite str_eqb_refl.
  - apply str_eqb_neq in E. symmetry. apply str_eqb_neq. congruence.
Qed.

Section Assoc.
Context {V : Type}.

Lemma assoc_get_set_same (k : str) (v : V) (d : list (str * V)) :
  assoc_get k (assoc_set k v d) = Some v.
Proof.
  induction d as [|[k' v'] d IH]; simpl.
  - now rewrite str_eqb_refl.
  - destruct (str_eqb k k') eqn:E; simpl; rewrite E; [reflexivity|exact IH].
Qed.

Lemma assoc_get_set_other (k k' : str) (v : V) (d : list (str * V)) :
  k' <> k -> assoc_get k' (assoc_set k v d) = assoc_get k' d.
Proof.
  intros Hne. induction d as [|[k0 v0] d IH]; simpl.
  - apply str_eqb_neq in Hne. now rewrite Hne.
  - destruct (str_eqb k k0) eqn:E; simpl.
    + apply str_eqb_eq in E as <-.
      apply str_eqb_neq in Hne. now rewrite Hne.
    + destruct (str_eqb k' k0); [reflexivity|exact IH].
Qed.

Lemma assoc_get_In (k : str) (d : list (str * V)) (v : V) :
  assoc_get k d = Some v -> In (k, v) d.
Proof.
  induction d as [|[k0 v0] d IH]; simpl; [discriminate|].
  destruct (str_eqb k k0) eqn:E.
  - apply str_eqb_eq in E as <-. intros H. injection H as <-. now left.
  - intros H. right. now apply IH.
Qed.

Lemma assoc_get_None (k : str) (d : list (str * V)) :
  assoc_get k d = None <-> ~ In k (List.map fst d).
Proof.
  induction d as [|[k0 v0] d IH]; simpl.
  - tauto.
  - destruct (str_eqb k k0) eqn:E.
    + apply str_eqb_eq in E as <-. split; [discriminate|tauto].
    + apply str_eqb_neq in E. rewrite IH. split; [intros H [H1|H1]|]; try tauto.
      congruence.
Qed.

Lemma In_assoc_get (k : str) (v : V) (d : list (str * V)) :
  NoDup (List.map fst d) -> In (k, v) d -> assoc_get k d = Some v.
Proof.
  induction d as [|[k0 v0] d IH]; simpl; [tauto|].
  intros Hnd [H|H].
  - injection H as -> ->. now rewrite str_eqb_refl.
  - inversion Hnd as [|? ? Hnotin Hnd']; subst.
    destruct (str_eqb k k0) eqn:E.
    + apply str_eqb_eq in E as ->. exfalso. apply Hnotin.
      apply (in_map fst) in H. exact H.
    + now apply IH.
Qed.

Lemma keys_assoc_set (k : str) (v : V) (d : list (str * V)) :
  List.map fst (assoc_set k v d)
  = match assoc_get k d with
    | Some _ => List.map fst d
    | None => List.map fst d ++ [k]
    end.
Proof.
  induction d as [|[k0 v0] d IH]; simpl; [reflexivity|].
  destruct (str_eqb k k0) eqn:E; simpl; [reflexivity|].
  rewrite IH. destruct (assoc_get k d); reflexivity.
Qed.

Lemma NoDup_assoc_set (k : str) (v : V) (d : list (str * V)) :
  NoDup (List.map fst d) -> NoDup (List.map fst (assoc_set k v d)).
Proof.
  intros H. rewrite keys_assoc_set. destruct (assoc_get k d) eqn:E; [exact H|].
  apply assoc_get_None in E.
  apply NoDup_app; [exact H | repeat constructor; simpl; tauto |].
  intros x Hx [<-|[]]. contradiction.
Qed.

Lemma existsb_keys (k : str) (d : list (str * V)) :
  existsb (str_eqb k) (List.map fst d)
  = match assoc_get k d with
    | Some _ => true
    | None => false
    end.
Proof.
  induction d as [|[k' v] d IH]; cbn [List.map fst existsb assoc_get];
    [reflexivity|].
  destruct (str_eqb k k'); [reflexivity|exact IH].
Qed.

End Assoc.

End DictFacts.


(** ** Statistics over the evaluations ([LLMJudge._calculate_summary_stats]) *)

Module SummaryStatistics.

Import FloatOrder DictFacts Examples.
Import Summary Stats.

Lemma Zsum_from (xs : list Z) (a : Z) : fold_left Z.add xs a = (a + Zsum xs)%Z.
Proof.
  unfold Zsum. revert a. induction xs as [|x xs IH]; simpl; intros a; [lia|].
  rewrite IH, (IH x). lia.
Qed.

Lemma Zsum_cons (x : Z) (xs : list Z) : Zsum (x :: xs) = (x + Zsum xs)%Z.
Proof. unfold Zsum at 1. simpl. now rewrite Zsum_from. Qed.

Lemma Zsum_app (xs ys : list Z) : Zsum (xs ++ ys) = (Zsum xs + Zsum ys)%Z.
Proof.
  induction xs as [|x xs IH]; simpl; [reflexivity|].
  rewrite !Zsum_cons, IH. lia.
Qed.

Lemma len_cons {A : Type} (x : A) (l : list A) : len (x :: l) = (1 + len l)%Z.
Proof. unfold len. cbn [length]. lia. Qed.

Lemma len_app {A : Type} (a b : list A) : len (a ++ b) = (len a + len b)%Z.
Proof. unfold len. rewrite length_app. lia. Qed.

(** One score falls into exactly one class, unless it is NaN. *)
Definition classes (s : float) : list bool :=
  [(4.5 <=? s)%float; ((3.5 <=? s) && (s <? 4.5))%float;
   ((2.5 <=? s) && (s <? 3.5))%float; ((1.5 <=? s) && (s <? 2.5))%float;
   (s <? 1.5)%float].

Lemma one_class (s : float) :
  is_number s -> length (filter (fun b => b) (classes s)) = 1.
Proof.
  intros Hs. unfold classes.
  rewrite !(ltb_negb_leb s) by (exact Hs || reflexivity).
  pose proof (leb_trans 3.5 4.5 s eq_refl) as H43.
  pose proof (leb_trans 2.5 3.5 s eq_refl) as H32.
  pose proof (leb_trans 1.5 2.5 s eq_refl) as H21.
  destruct (4.5 <=? s)%float, (3.5 <=? s)%float, (2.5 <=? s)%float,
    (1.5 <=? s)%float; simpl; try reflexivity;
    try (specialize (H43 eq_refl); discriminate);
    try (specialize (H32 eq_refl); discriminate);
    try (specialize (H21 eq_refl); discriminate).
Qed.

Lemma no_class (s : float) :
  ~ is_number s -> filter (fun b => b) (classes s) = [].
Proof.
  intros Hs.
  assert (E : Prim2SF s = S754_nan).
  { destruct (Prim2SF s) eqn:E; try reflexivity; exfalso; apply Hs;
      unfold is_number; rewrite eqb_spec; unfold SFeqb;
      rewrite SFcompare_refl; try reflexivity; rewrite E; discriminate. }
  unfold classes. rewrite !leb_spec, !ltb_spec, E. unfold SFleb, SFltb.
  repeat match goal with
         | |- context [SFcompare ?a S754_nan] =>
             replace (SFcompare a S754_nan) with (@None comparison)
               by (destruct a; reflexivity)
         end.
  reflexivity.
Qed.

Definition bucket_total (d : ScoreDistribution) : Z :=
  (excellent d + good d + satisfactory d + poor d + very_poor d)%Z.

Lemma distribution_cons (s : float) (scores : list float) :
  bucket_total (distribution (s :: scores))
  = (len (filter (fun b => b) (classes s)) + bucket_total (distribution scores))%Z.
Proof.
  unfold bucket_total, distribution, classes; cbn [excellent good satisfactory poor very_poor filter].
  destruct (4.5 <=? s)%float, (3.5 <=? s)%float, (2.5 <=? s)%float,
    (1.5 <=? s)%float, (s <? 4.5)%float, (s <? 3.5)%float, (s <? 2.5)%float,
    (s <? 1.5)%float; cbn [andb]; rewrite ?len_cons; unfold len; cbn [length]; lia.
Qed.

Lemma distribution_total (scores : list float) :
  Forall is_number scores -> bucket_total (distribution scores) = len scores.
Proof.
  induction 1 as [|s scores Hs _ IH]; [reflexivity|].
  rewrite distribution_cons, IH, len_cons.
  unfold len at 1. now rewrite (one_class s Hs).
Qed.


(** What the grouping loop has collected under [k]. *)
Definition collected (key : EvaluationResult -> str) (k : str)
    (evaluations : list EvaluationResult) : list float :=
  List.map overall_score (filter (fun e => str_eqb (key e) k) evaluations).

Definition collect_step (key : EvaluationResult -> str)
    (scores : list (str * list float)) (eval_result : EvaluationResult) :=
  let k := key eval_result in
  let so_far := match assoc_get k scores with
                | Some l => l
                | None => []
                end in
  assoc_set k (so_far ++ [eval_result.(overall_score)]) scores.

Lemma collect_get (key : EvaluationResult -> str) (k : str)
    (evaluations : list EvaluationResult) (acc : list (str * list float)) :
  assoc_get k (fold_left (collect_step key) evaluations acc)
  = match assoc_get k acc, collected key k evaluations with
    | None, [] => None
    | None, more => Some more
    | Some l, more => Some (l ++ more)
    end.
Proof.
  revert acc. induction evaluations as [|e evs IH]; intros acc.
  - simpl. destruct (assoc_get k acc); [now rewrite app_nil_r | reflexivity].
  - cbn [fold_left]. rewrite IH. unfold collect_step, collected.
    cbn [filter]. destruct (str_eqb (key e) k) eqn:E.
    + apply str_eqb_eq in E. subst k. rewrite assoc_get_set_same.
      cbn [List.map].
      destruct (assoc_get (key e) acc) as [l|]; [now rewrite <- app_assoc|].
      reflexivity.
    + apply str_eqb_neq in E.
      rewrite assoc_get_set_other by congruence. reflexivity.
Qed.

Lemma collect_keys (key : EvaluationResult -> str)
    (evaluations : list EvaluationResult) (acc : list (str * list float)) :
  NoDup (List.map fst acc) ->
  NoDup (List.map fst (fold_left (collect_step key) evaluations acc)).
Proof.
  revert acc. induction evaluations as [|e evs IH]; intros acc H; [exact H|].
  cbn [fold_left]. apply IH. now apply NoDup_assoc_set.
Qed.

Definition sizes (scores : list (str * list float)) : Z :=
  Zsum (List.map (fun entry => len (snd entry)) scores).

Lemma sizes_step (key : EvaluationResult -> str) (e : EvaluationResult)
    (acc : list (str * list float)) :
  sizes (collect_step key acc e) = (sizes acc + 1)%Z.
Proof.
  unfold collect_step, sizes.
  induction acc as [|[k0 l0] acc IH]; simpl.
  - reflexivity.
  - destruct (str_eqb (key e) k0) eqn:E; cbn [List.map snd].
    + rewrite !Zsum_cons, len_app. change (len [overall_score e]) with 1%Z. lia.
    + rewrite !Zsum_cons, IH. lia.
Qed.

Lemma collect_sizes (key : EvaluationResult -> str)
    (evaluations : list EvaluationResult) (acc : list (str * list float)) :
  sizes (fold_left (collect_step key) evaluations acc)
  = (sizes acc + len evaluations)%Z.
Proof.
  revert acc. induction evaluations as [|e evs IH]; intros acc.
  - cbn [fold_left]. change (len (@nil EvaluationResult)) with 0%Z. lia.
  - cbn [fold_left]. rewrite IH, sizes_step, len_cons. lia.
Qed.

Lemma collect_unfold key evaluations :
  collect key evaluations = fold_left (collect_step key) evaluations [].
Proof. reflexivity. Qed.

(** The keys of a list, each once, in the order in which they are first
    met. *)
Definition note_key (seen : list str) (k : str) : list str :=
  if existsb (str_eqb k) seen then seen else seen ++ [k].

Definition first_occurrences (keys : list str) : list str :=
  fold_left note_key keys [].

Lemma collect_step_order (key : EvaluationResult -> str)
    (evaluations : list EvaluationResult) (acc : list (str * list float)) :
  List.map fst (fold_left (collect_step key) evaluations acc)
  = fold_left note_key (List.map key evaluations) (List.map fst acc).
Proof.
  revert acc. induction evaluations as [|e evs IH]; intros acc; [reflexivity|].
  cbn [fold_left List.map]. rewrite IH. f_equal.
  unfold collect_step, note_key. rewrite keys_assoc_set, existsb_keys.
  destruct (assoc_get (key e) acc); reflexivity.
Qed.

Lemma collect_order key evaluations :
  List.map fst (collect key evaluations)
  = first_occurrences (List.map key evaluations).
Proof. rewrite collect_unfold. apply collect_step_order. Qed.

(** The entry of a group, in terms of the evaluations. *)
Lemma collect_entry key evaluations k l :
  In (k, l) (collect key evaluations) ->
  l = collected key k evaluations /\ l <> [].
Proof.
  intros Hin. rewrite collect_unfold in Hin.
  apply In_assoc_get in Hin; [|apply collect_keys; constructor].
  rewrite collect_get in Hin. cbn [assoc_get] in Hin.
  destruct (collected key k evaluations); [discriminate|].
  injection Hin as <-. split; [reflexivity|discriminate].
Qed.

Lemma collect_has_key key evaluations e :
  In e evaluations -> In (key e) (List.map fst (collect key evaluations)).
Proof.
  intros Hin. rewrite collect_unfold.
  destruct (assoc_get (key e) (fold_left (collect_step key) evaluations []))
    as [l|] eqn:E.
  - apply assoc_get_In in E. now apply (in_map fst) in E.
  - rewrite collect_get in E. cbn [assoc_get] in E.
    assert (Hne : collected key (key e) evaluations <> []).
    { unfold collected. intros Hnil. apply map_eq_nil in Hnil.
      assert (Hf : In e (filter (fun e0 => str_eqb (key e0) (key e)) evaluations)).
      { apply filter_In. split; [exact Hin | apply str_eqb_refl]. }
      rewrite Hnil in Hf. exact Hf. }
    destruct (collected key (key e) evaluations); [congruence|discriminate].
Qed.

(** The scores received by the criteria, taken together, are all the
    scores of all the evaluations. *)
Definition count_scores (evaluations : list EvaluationResult) : Z :=
  Zsum (List.map (fun e => len e.(scores)) evaluations).

Lemma criteria_scores_cons criteria e evaluations :
  criteria_scores criteria (e :: evaluations)
  = List.map score_value
      (filter (fun score => criteria_eqb score.(Models.criteria) criteria) e.(scores))
    ++ criteria_scores criteria evaluations.
Proof. reflexivity. Qed.

Lemma one_criterion (scs : list CriteriaScore) :
  Zsum (List.map (fun criteria =>
                    len (filter (fun score =>
                                   criteria_eqb score.(Models.criteria) criteria) scs))
          all_criteria)
  = len scs.
Proof.
  unfold all_criteria. cbn [List.map]. rewrite !Zsum_cons.
  change (Zsum []) with 0%Z.
  induction scs as [|sc scs IH]; [reflexivity|].
  cbn [filter]. rewrite len_cons, <- IH.
  destruct (Models.criteria sc); cbn [criteria_eqb]; rewrite ?len_cons; lia.
Qed.

Lemma criteria_scores_total (evaluations : list EvaluationResult) :
  Zsum (List.map (fun criteria => len (criteria_scores criteria evaluations))
          all_criteria)
  = count_scores evaluations.
Proof.
  unfold count_scores. induction evaluations as [|e evs IH].
  - reflexivity.
  - cbn [List.map]. rewrite Zsum_cons, <- IH, <- (one_criterion (scores e)).
    unfold all_criteria. cbn [List.map]. rewrite !Zsum_cons.
    rewrite !criteria_scores_cons, !len_app.
    unfold len at 1 3 5 7 9. rewrite !length_map.
    change (Zsum []) with 0%Z. unfold len. lia.
Qed.

Definition criteria_entry (evaluations : list EvaluationResult)
    (criteria : EvaluationCriteria) : list (str * GroupStats) :=
  match criteria_scores criteria evaluations with
  | [] => []
  | (_ :: _) as values =>
      [(criteria_value criteria,
        {| group_average_score := true_div (Zsum values) (len values);
           group_total_evaluations := len values |})]
  end.

Lemma criteria_entry_total evaluations criteria :
  Zsum (List.map (fun entry => (snd entry).(group_total_evaluations))
          (criteria_entry evaluations criteria))
  = len (criteria_scores criteria evaluations).
Proof.
  unfold criteria_entry. destruct (criteria_scores criteria evaluations);
    reflexivity.
Qed.

Lemma criteria_entries_total evaluations (cs : list EvaluationCriteria) :
  Zsum (List.map (fun entry => (snd entry).(group_total_evaluations))
          (flat_map (criteria_entry evaluations) cs))
  = Zsum (List.map (fun criteria => len (criteria_scores criteria evaluations)) cs).
Proof.
  induction cs as [|c cs IH]; [reflexivity|].
  cbn [flat_map List.map].
  rewrite map_app, Zsum_app, Zsum_cons, criteria_entry_total, IH. reflexivity.
Qed.

(** X1.  [_calculate_summary_stats] answers the empty dict for no
    evaluations, and only then.  Otherwise the keys of [by_model] and of
    [by_scenario_type] are the model ids, respectively scenario types, of
    the evaluations, each once and in the order of first occurrence; the
    entry counts the evaluations that carry the key and averages their
    overall scores in the order of the evaluations; and the counts of the
    entries add up to [total_evaluations], the number of evaluations. *)
Theorem summary_groups_every_evaluation (self : LLMJudge)
    (evaluations : list EvaluationResult) :
  match _calculate_summary_stats self evaluations with
  | None => evaluations = []
  | Some stats =>
      evaluations <> []
      /\ List.map fst stats.(by_model)
         = first_occurrences (List.map ev_model_id evaluations)
      /\ List.map fst stats.(by_scenario_type)
         = first_occurrences (List.map ev_scenario_type evaluations)
      /\ stats.(all_evaluations) = len evaluations
      /\ stats.(average_overall_score) = mean (List.map overall_score evaluations)
      /\ NoDup (List.map fst stats.(by_model))
      /\ NoDup (List.map fst stats.(by_scenario_type))
      /\ (forall e, In e evaluations ->
            In e.(ev_model_id) (List.map fst stats.(by_model))
            /\ In e.(ev_scenario_type) (List.map fst stats.(by_scenario_type)))
      /\ (forall model_id ms, In (model_id, ms) stats.(by_model) ->
            ms.(total_evaluations)
            = len (filter (fun e => str_eqb e.(ev_model_id) model_id) evaluations)
            /\ (0 < ms.(total_evaluations))%Z
            /\ ms.(average_score)
               = mean (collected ev_model_id model_id evaluations))
      /\ (forall scenario gs, In (scenario, gs) stats.(by_scenario_type) ->
            gs.(group_total_evaluations)
            = len (filter (fun e => str_eqb e.(ev_scenario_type) scenario)
                     evaluations)
            /\ (0 < gs.(group_total_evaluations))%Z
            /\ gs.(group_average_score)
               = mean (collected ev_scenario_type scenario evaluations))
      /\ Zsum (List.map (fun entry => (snd entry).(total_evaluations))
                 stats.(by_model)) = len evaluations
      /\ Zsum (List.map (fun entry => (snd entry).(group_total_evaluations))
                 stats.(by_scenario_type)) = len evaluations
  end.
Proof.
  destruct evaluations as [|e0 evs]; [reflexivity|].
  unfold _calculate_summary_stats. split; [discriminate|].
  generalize (e0 :: evs) as evaluations. intros evaluations.
  cbn [all_evaluations average_overall_score by_model by_scenario_type].
  rewrite !map_map. cbn [fst snd].
  split; [apply collect_order|]. split; [apply collect_order|].
  assert (Hentry : forall key k l, In (k, l) (collect key evaluations) ->
             len l = len (filter (fun e => str_eqb (key e) k) evaluations)
             /\ (0 < len l)%Z /\ l = collected key k evaluations).
  { intros key k l Hin. apply collect_entry in Hin as [-> Hne].
    unfold collected in *. split; [|split; [|reflexivity]].
    - unfold len. now rewrite length_map.
    - unfold len. destruct (List.map _ _); [congruence|]. cbn [length]. lia. }
  repeat split.
  - rewrite collect_unfold. apply collect_keys. constructor.
  - rewrite collect_unfold. apply collect_keys. constructor.
  - now apply collect_has_key.
  - now apply (collect_has_key ev_scenario_type).
  - apply in_map_iff in H as ([k l] & Heq & Hin).
    cbn [fst snd] in Heq. injection Heq as <- <-.
    now apply Hentry in Hin as (? & _ & _).
  - apply in_map_iff in H as ([k l] & Heq & Hin).
    cbn [fst snd] in Heq. injection Heq as <- <-.
    now apply Hentry in Hin as (_ & ? & _).
  - apply in_map_iff in H as ([k l] & Heq & Hin).
    cbn [fst snd] in Heq. injection Heq as <- <-.
    apply Hentry in Hin as (_ & _ & ->). reflexivity.
  - apply in_map_iff in H as ([k l] & Heq & Hin).
    cbn [fst snd] in Heq. injection Heq as <- <-.
    now apply Hentry in Hin as (? & _ & _).
  - apply in_map_iff in H as ([k l] & Heq & Hin).
    cbn [fst snd] in Heq. injection Heq as <- <-.
    now apply Hentry in Hin as (_ & ? & _).
  - apply in_map_iff in H as ([k l] & Heq & Hin).
    cbn [fst snd] in Heq. injection Heq as <- <-.
    apply Hentry in Hin as (_ & _ & ->). reflexivity.
  - cbn [total_evaluations].
    change (Zsum (List.map (fun x => len (snd x)) (collect ev_model_id evaluations)))
      with (sizes (collect ev_model_id evaluations)).
    rewrite collect_unfold, collect_sizes. reflexivity.
  - cbn [group_total_evaluations].
    change (Zsum (List.map (fun x => len (snd x))
                    (collect ev_scenario_type evaluations)))
      with (sizes (collect ev_scenario_type evaluations)).
    rewrite collect_unfold, collect_sizes. reflexivity.
Qed.

(** X3.  In [by_criteria] a criterion is listed when at least one score of
    any evaluation names it; its entry counts all those scores (every one,
    also when an evaluation scores the criterion twice) and averages their
    values; the entries follow the order of the criteria, and their counts
    add up to the number of scores of all evaluations. *)
Theorem summary_counts_every_score (self : LLMJudge)
    (evaluations : list EvaluationResult) (stats : SummaryStats) :
  _calculate_summary_stats self evaluations = Some stats ->
  stats.(by_criteria) = flat_map (criteria_entry evaluations) all_criteria
  /\ (forall criteria,
        In (criteria_value criteria) (List.map fst stats.(by_criteria))
        <-> exists e sc, In e evaluations /\ In sc e.(scores)
                         /\ sc.(Models.criteria) = criteria)
  /\ Zsum (List.map (fun entry => (snd entry).(group_total_evaluations))
             stats.(by_criteria))
     = count_scores evaluations.
Proof.
  intros Hstats.
  assert (E : stats.(by_criteria)
              = flat_map (criteria_entry evaluations) all_criteria).
  { destruct evaluations; [discriminate|]. injection Hstats as <-. reflexivity. }
  rewrite E. clear E Hstats.
  split; [reflexivity|]. split.
  - intros criteria.
    assert (Hscored : criteria_scores criteria evaluations <> []
                      <-> exists e sc, In e evaluations /\ In sc e.(scores)
                                       /\ sc.(Models.criteria) = criteria).
    { unfold criteria_scores. split.
      - intros Hne.
        destruct (flat_map _ evaluations) as [|v vs] eqn:E; [congruence|].
        assert (Hin : In v (flat_map
                  (fun eval_result =>
                     List.map score_value
                       (filter (fun score =>
                                  criteria_eqb score.(Models.criteria) criteria)
                          eval_result.(scores))) evaluations))
          by (rewrite E; now left).
        apply in_flat_map in Hin as (e & He & Hin).
        apply in_map_iff in Hin as (sc & _ & Hsc).
        apply filter_In in Hsc as [Hsc Hc].
        exists e, sc. repeat split; try assumption.
        destruct (Models.criteria sc), criteria; try discriminate; reflexivity.
      - intros (e & sc & He & Hsc & Hc) Hnil.
        assert (Hin : In sc.(score_value) (flat_map
                  (fun eval_result =>
                     List.map score_value
                       (filter (fun score =>
                                  criteria_eqb score.(Models.criteria) criteria)
                          eval_result.(scores))) evaluations)).
        { apply in_flat_map. exists e. split; [exact He|].
          apply in_map. apply filter_In. split; [exact Hsc|].
          rewrite Hc. destruct criteria; reflexivity. }
        rewrite Hnil in Hin. exact Hin. }
    rewrite <- Hscored. unfold all_criteria. cbn [flat_map].
    rewrite !map_app, app_nil_r. unfold criteria_entry.
    destruct criteria;
      destruct (criteria_scores TASK_PERFORMANCE evaluations),
        (criteria_scores RESPONSE_QUALITY evaluations),
        (criteria_scores LANGUAGE_QUALITY evaluations),
        (criteria_scores TOOL_USAGE evaluations),
        (criteria_scores FACTUAL_ACCURACY evaluations);
      cbn [List.map fst app In];
      (split; [intros H; repeat destruct H as [H|H]; try discriminate H;
               try contradiction; discriminate
              | intros H; try (exfalso; apply H; reflexivity); tauto]).
  - rewrite <- criteria_scores_total. apply criteria_entries_total.
Qed.

Lemma distribution_skips_nan (s : float) (scores : list float) :
  ~ is_number s -> distribution (s :: scores) = distribution scores.
Proof.
  intros Hs. pose proof (no_class s Hs) as H. unfold classes in H.
  unfold distribution. cbn [filter].
  destruct (4.5 <=? s)%float; [discriminate|].
  destruct ((3.5 <=? s) && (s <? 4.5))%float; [discriminate|].
  destruct ((2.5 <=? s) && (s <? 3.5))%float; [discriminate|].
  destruct ((1.5 <=? s) && (s <? 2.5))%float; [discriminate|].
  destruct (s <? 1.5)%float; [discriminate|]. reflexivity.
Qed.

(** X2.  The five classes of a model's score distribution are disjoint and
    cover every overall score that is a number: they add up to the number
    of the model's evaluations.  A score that is NaN is counted in the
    total and in no class. *)
Theorem score_distribution_partitions (self : LLMJudge)
    (evaluations : list EvaluationResult) (stats : SummaryStats) :
  _calculate_summary_stats self evaluations = Some stats ->
  Forall (fun e => is_number e.(overall_score)) evaluations ->
  Forall (fun entry =>
            bucket_total (snd entry).(score_distribution)
            = (snd entry).(total_evaluations)) stats.(by_model)
  /\ (forall s scores, ~ is_number s ->
        distribution (s :: scores) = distribution scores).
Proof.
  intros Hstats Hnum. split; [|exact distribution_skips_nan].
  destruct evaluations as [|e0 evs]; [discriminate|].
  revert Hstats Hnum. unfold _calculate_summary_stats.
  generalize (e0 :: evs) as evaluations. intros evaluations Hstats Hnum.
  injection Hstats as <-. cbn [by_model].
  apply Forall_forall. intros [model_id ms] Hin.
  apply in_map_iff in Hin as ([k l] & Heq & Hin).
  cbn [fst snd] in Heq. injection Heq as <- <-.
  apply collect_entry in Hin as [-> _].
  cbn [snd score_distribution total_evaluations].
  apply distribution_total. unfold collected.
  apply Forall_map. apply Forall_forall. intros e He.
  apply filter_In in He as [He _].
  rewrite Forall_forall in Hnum. now apply Hnum.
Qed.

Definition graded (model_id : string) (overall : float) : EvaluationResult :=
  {| ev_test_case_id := lit "correct_001"; ev_model_id := lit model_id;
     ev_scenario_type := lit "correct"; ev_user_query := lit "Jakie laptopy?";
     ev_model_response := lit "Oto laptopy."; expected_behavior := lit "lists laptops";
     scores := sample_scores; overall_score := overall;
     ev_tool_calls_made := []; ev_tool_results := [];
     judge_model := lit "gpt-4o"; evaluation_timestamp := now;
     additional_notes := None |}.

Definition graded_run : list EvaluationResult :=
  [graded "model_a" 4.5; graded "model_b" 2.5; graded "model_a" 1.25;
   graded "model_a" 3.75].

Lemma score_distribution_partitions_witness :
  exists stats,
    _calculate_summary_stats (judge_answering verdict) graded_run = Some stats
    /\ List.map (fun entry => (fst entry, (snd entry).(score_distribution)))
         stats.(by_model)
       = [(lit "model_a",
           {| excellent := 1; good := 1; satisfactory := 0; poor := 0;
              very_poor := 1 |});
          (lit "model_b",
           {| excellent := 0; good := 0; satisfactory := 1; poor := 0;
              very_poor := 0 |})]
    /\ Forall (fun entry =>
                 bucket_total (snd entry).(score_distribution)
                 = (snd entry).(total_evaluations)) stats.(by_model).
Proof.
  eexists. split; [reflexivity|]. split; [vm_compute; reflexivity|].
  refine (proj1 (score_distribution_partitions (judge_answering verdict)
                   graded_run _ eq_refl _)).
  repeat constructor.
Defined.

Lemma summary_counts_every_score_witness :
  exists stats,
    _calculate_summary_stats (judge_answering verdict) graded_run = Some stats
    /\ List.map (fun entry => (fst entry, (snd entry).(group_total_evaluations)))
         stats.(by_criteria)
       = List.map (fun criteria => (criteria_value criteria, 4%Z)) all_criteria
    /\ Zsum (List.map (fun entry => (snd entry).(group_total_evaluations))
               stats.(by_criteria))
       = count_scores graded_run.
Proof.
  eexists. split; [reflexivity|]. split; [vm_compute; reflexivity|].
  exact (proj2 (proj2 (summary_counts_every_score (judge_answering verdict)
                         graded_run _ eq_refl))).
Defined.

End SummaryStatistics.

(** ** Summaries of a run ([BenchmarkExecutor._calculate_model_summary],
       [_calculate_run_summary], [_save_benchmark_results]) *)

Module RunSummaries.

Import DictFacts SummaryStatistics Executor Examples.
Import Summary.

Lemma len_nonneg {A : Type} (l : list A) : (0 <= len l)%Z.
Proof. unfold len. lia. Qed.

Lemma len_filter_le {A : Type} (p : A -> bool) (l : list A) :
  (len (filter p l) <= len l)%Z.
Proof. unfold len. pose proof (filter_length_le p l). lia. Qed.

Lemma len_partition {A : Type} (p : A -> bool) (l : list A) :
  (len (filter p l) + len (filter (fun x => negb (p x)) l) = len l)%Z.
Proof.
  induction l as [|x l IH]; [reflexivity|].
  cbn [filter]. destruct (p x); cbn [negb]; rewrite !len_cons; lia.
Qed.

Lemma Zsum_nonneg (xs : list Z) : Forall (fun x => 0 <= x)%Z xs -> (0 <= Zsum xs)%Z.
Proof.
  induction 1 as [|x xs Hx _ IH]; [reflexivity|]. rewrite Zsum_cons. lia.
Qed.

Lemma Zsum_filter_le {A : Type} (f : A -> Z) (p : A -> bool) (l : list A) :
  (forall x, 0 <= f x)%Z ->
  (0 <= Zsum (List.map f (filter p l)) <= Zsum (List.map f l))%Z.
Proof.
  intros Hf. induction l as [|x l IH]; [cbn; lia|].
  cbn [filter List.map]. specialize (Hf x).
  destruct (p x); cbn [List.map]; rewrite !Zsum_cons; lia.
Qed.

(** The three scenario types of [ScenarioType]. *)
Definition scenario_types : list str :=
  [lit "correct"; lit "incorrect"; lit "malicious"].

Definition known_scenario (r : TestResult) : bool :=
  existsb (str_eqb r.(scenario_type)) scenario_types.

Lemma scenario_totals (results : list TestResult) :
  Zsum (List.map (fun wanted => total (scenario_counts results wanted))
          scenario_types)
  = len (filter known_scenario results).
Proof.
  unfold scenario_types, scenario_counts. cbn [List.map total].
  rewrite !Zsum_cons. change (Zsum []) with 0%Z.
  induction results as [|r results IH]; [reflexivity|].
  cbn [filter]. unfold known_scenario at 1. cbn [existsb scenario_types].
  destruct (str_eqb (scenario_type r) (lit "correct")) eqn:E1.
  - apply str_eqb_eq in E1. rewrite E1. cbn [orb].
    change (str_eqb (lit "correct") (lit "incorrect")) with false.
    change (str_eqb (lit "correct") (lit "malicious")) with false.
    rewrite !len_cons. lia.
  - destruct (str_eqb (scenario_type r) (lit "incorrect")) eqn:E2.
    + apply str_eqb_eq in E2. rewrite E2. cbn [orb].
      change (str_eqb (lit "incorrect") (lit "malicious")) with false.
      rewrite !len_cons. lia.
    + destruct (str_eqb (scenario_type r) (lit "malicious")) eqn:E3;
        cbn [orb]; rewrite ?len_cons; lia.
Qed.

Lemma tokens_fold (results : list TestResult) (a b : Z) :
  fold_left (fun acc r =>
               match tokens_of r with
               | Some t => (fst acc + t, snd acc + 1)%Z
               | None => acc
               end) results (a, b)
  = ((a + Zsum (flat_map (fun r => match tokens_of r with
                                   | Some t => [t]
                                   | None => []
                                   end) results))%Z,
     (b + len (filter (fun r => match tokens_of r with
                                | Some _ => true
                                | None => false
                                end) results))%Z).
Proof.
  revert a b. induction results as [|r results IH]; intros a b.
  - cbn. f_equal; lia.
  - cbn [fold_left flat_map filter]. destruct (tokens_of r) as [t|].
    + rewrite IH. cbn [fst snd app]. rewrite Zsum_cons, len_cons. f_equal; lia.
    + rewrite IH. reflexivity.
Qed.

(** X4.  [_calculate_model_summary] answers the empty dict for a model
    without results.  Otherwise the counts are consistent: every result is
    either successful or failed; under each of the three scenario types
    the total is the sum of the successful and the failed results of that
    type; the totals of the three types add up to the number of results
    whose scenario type is one of the three (to [total_tests] when all
    are); the successful tool calls are among the tool calls; and the tokens
    are those of the results that report a usage with "total_tokens". *)
Theorem model_summary_adds_up (model_result : ModelBenchmarkResults) :
  match _calculate_model_summary model_result with
  | None => model_result.(test_results) = []
  | Some s =>
      let results := model_result.(test_results) in
      s.(total_tests) = len results
      /\ (0 < s.(total_tests))%Z
      /\ s.(successful_tests) = len (filter succeeded results)
      /\ s.(failed_tests) = len (filter has_error results)
      /\ (s.(successful_tests) + s.(failed_tests) = s.(total_tests))%Z
      /\ List.map fst s.(by_scenario_type) = scenario_types
      /\ Forall (fun entry =>
                   let c := snd entry in
                   (successful c + failed c = total c)%Z
                   /\ (0 <= successful c)%Z /\ (0 <= failed c)%Z)
           s.(by_scenario_type)
      /\ Zsum (List.map (fun entry => total (snd entry)) s.(by_scenario_type))
         = len (filter known_scenario results)
      /\ (Forall (fun r => known_scenario r = true) results ->
          Zsum (List.map (fun entry => total (snd entry)) s.(by_scenario_type))
          = s.(total_tests))
      /\ (0 <= s.(successful_tool_calls) <= s.(total_tool_calls))%Z
      /\ s.(total_tokens_used)
         = Zsum (flat_map (fun r => match tokens_of r with
                                    | Some t => [t]
                                    | None => []
                                    end) results)
  end.
Proof.
  unfold _calculate_model_summary.
  destruct (test_results model_result) as [|r0 rs] eqn:E; [reflexivity|].
  rewrite tokens_fold.
  assert (Hpos : (0 < len (r0 :: rs))%Z)
    by (rewrite len_cons; pose proof (len_nonneg rs); lia).
  revert Hpos. generalize (r0 :: rs) as results. intros results Hpos.
  cbn [total_tests successful_tests failed_tests by_scenario_type
       total_tool_calls successful_tool_calls total_tokens_used fst].
  cbv zeta.
  assert (Hpart : (len (filter succeeded results)
                   + len (filter has_error results) = len results)%Z).
  { rewrite <- (len_partition succeeded results). f_equal. f_equal.
    apply filter_ext. intros r. unfold succeeded. now rewrite negb_involutive. }
  assert (Htotals :
            Zsum (List.map (fun entry : str * ScenarioCounts => total (snd entry))
                    (List.map (fun scenario_type =>
                                 (scenario_type, scenario_counts results scenario_type))
                       [lit "correct"; lit "incorrect"; lit "malicious"]))
            = len (filter known_scenario results)).
  { rewrite map_map. cbn [snd]. apply scenario_totals. }
  split; [reflexivity|]. split; [exact Hpos|]. split; [reflexivity|].
  split; [lia|]. split; [lia|]. split; [reflexivity|].
  split; [|split; [exact Htotals|split; [|split]]].
  - apply Forall_forall. intros [k c] Hin.
    apply in_map_iff in Hin as (wanted & Heq & _). injection Heq as _ <-.
    cbn [snd]. unfold scenario_counts. cbn [total successful failed].
    split; [|split; apply len_nonneg].
    rewrite <- (len_partition succeeded (filter _ results)). f_equal. f_equal.
    apply filter_ext. intros r. unfold succeeded. now rewrite negb_involutive.
  - intros Hall. rewrite Htotals. f_equal. clear Hpos Hpart Htotals.
    induction Hall as [|r rs' Hr _ IH]; [reflexivity|].
    cbn [filter]. now rewrite Hr, IH.
  - apply Zsum_filter_le. intros r. apply len_nonneg.
  - lia.
Qed.

Lemma extend_results (model_results : list ModelBenchmarkResults)
    (acc : list TestResult) :
  fold_left (fun acc model_result => acc ++ model_result.(test_results))
    model_results acc
  = acc ++ flat_map test_results model_results.
Proof.
  revert acc. induction model_results as [|mr mrs IH]; intros acc.
  - cbn. now rewrite app_nil_r.
  - cbn [fold_left flat_map]. rewrite IH. now rewrite app_assoc.
Qed.

Definition summary_total (model_result : ModelBenchmarkResults) : Z :=
  match _calculate_model_summary model_result with
  | Some s => s.(total_tests)
  | None => 0
  end.

Definition summary_successful (model_result : ModelBenchmarkResults) : Z :=
  match _calculate_model_summary model_result with
  | Some s => s.(successful_tests)
  | None => 0
  end.

Lemma summary_total_len model_result :
  summary_total model_result = len model_result.(test_results).
Proof.
  unfold summary_total. pose proof (model_summary_adds_up model_result) as H.
  destruct (_calculate_model_summary model_result).
  - now destruct H as (-> & _).
  - now rewrite H.
Qed.

Lemma summary_successful_len model_result :
  summary_successful model_result
  = len (filter succeeded model_result.(test_results)).
Proof.
  unfold summary_successful. pose proof (model_summary_adds_up model_result) as H.
  destruct (_calculate_model_summary model_result).
  - now destruct H as (_ & _ & -> & _).
  - now rewrite H.
Qed.

Lemma filter_flat_map {A B : Type} (p : B -> bool) (f : A -> list B) (l : list A) :
  filter p (flat_map f l) = flat_map (fun x => filter p (f x)) l.
Proof.
  induction l as [|x l IH]; [reflexivity|].
  cbn [flat_map]. now rewrite filter_app, IH.
Qed.

Lemma len_flat_map {A B : Type} (f : A -> list B) (l : list A) :
  len (flat_map f l) = Zsum (List.map (fun x => len (f x)) l).
Proof.
  induction l as [|x l IH]; [reflexivity|].
  cbn [flat_map List.map]. now rewrite len_app, Zsum_cons, IH.
Qed.

Lemma find_last {A : Type} (p : A -> bool) (a b : list A) :
  List.find p (a ++ b)
  = match List.find p a with
    | Some x => Some x
    | None => List.find p b
    end.
Proof.
  induction a as [|x a IH]; [reflexivity|].
  cbn [app List.find]. destruct (p x); [reflexivity|exact IH].
Qed.

Lemma comparison_fold (model_results : list ModelBenchmarkResults)
    (acc : list (str * dict)) (model_id : str) :
  assoc_get model_id
    (fold_left (fun d model_result =>
                  assoc_set model_result.(mb_model_id)
                    model_result.(summary_stats) d) model_results acc)
  = match List.find (fun mr => str_eqb mr.(mb_model_id) model_id)
            (rev model_results) with
    | Some mr => Some mr.(summary_stats)
    | None => assoc_get model_id acc
    end.
Proof.
  revert acc. induction model_results as [|mr mrs IH]; intros acc;
    [reflexivity|].
  cbn [fold_left rev]. rewrite IH, find_last.
  destruct (List.find _ (rev mrs)); [reflexivity|].
  cbn [List.find]. destruct (str_eqb (mb_model_id mr) model_id) eqn:E.
  - apply str_eqb_eq in E as <-. apply assoc_get_set_same.
  - apply str_eqb_neq in E. apply assoc_get_set_other. congruence.
Qed.

(** X5.  The run's summary agrees with the summaries of its models: the
    tests executed are the tests of all models, so that their number and the
    number of successful ones are the sums of the models' [total_tests] and
    [successful_tests] (a model without results has the empty summary and
    counts for nothing).  In [model_comparison] a model id maps to the
    stored summary of the last model result that carries it. *)
Theorem run_summary_adds_up (model_results : list ModelBenchmarkResults) :
  let run := _calculate_run_summary model_results in
  run.(total_tests_executed) = Zsum (List.map summary_total model_results)
  /\ run.(run_successful_tests)
     = Zsum (List.map summary_successful model_results)
  /\ (0 <= run.(run_successful_tests) <= run.(total_tests_executed))%Z
  /\ (run.(total_tests_executed) = 0%Z -> run.(overall_success_rate) = Int 0)
  /\ forall model_id,
       assoc_get model_id run.(model_comparison)
       = option_map summary_stats
           (List.find (fun mr => str_eqb mr.(mb_model_id) model_id)
              (rev model_results)).
Proof.
  cbv zeta. unfold _calculate_run_summary. rewrite extend_results.
  cbn [app total_tests_executed run_successful_tests overall_success_rate
       model_comparison].
  split; [|split; [|split; [|split]]].
  - rewrite len_flat_map. f_equal. apply map_ext. intros mr.
    now rewrite summary_total_len.
  - rewrite filter_flat_map, len_flat_map. f_equal. apply map_ext. intros mr.
    now rewrite summary_successful_len.
  - split; [apply len_nonneg | apply len_filter_le].
  - intros ->. reflexivity.
  - intros model_id. rewrite comparison_fold.
    destruct (List.find _ (rev model_results)); reflexivity.
Qed.

(** X6.  The model part of the name of the results file is the model ids
    joined by "_" when that has at most 50 characters, and otherwise its
    first 47 characters followed by "...": never more than 50 characters. *)
Theorem results_file_name_is_bounded (models_to_test : list str) (timestamp : str) :
  exists model_names,
    results_file_name models_to_test timestamp
    = lit "benchmark_" ++ model_names ++ lit "_" ++ timestamp ++ lit ".json"
    /\ length model_names <= 50
    /\ (length (join (lit "_") models_to_test) <= 50 ->
        model_names = join (lit "_") models_to_test)
    /\ (50 < length (join (lit "_") models_to_test) ->
        model_names = firstn 47 (join (lit "_") models_to_test) ++ lit "..."
        /\ length model_names = 50)
    /\ length (results_file_name models_to_test timestamp)
       = 16 + length model_names + length timestamp.
Proof.
  unfold results_file_name.
  set (joined := join (lit "_") models_to_test).
  destruct (50 <? length joined) eqn:E.
  - apply Nat.ltb_lt in E.
    remember (firstn 47 joined ++ lit "...") as shortened eqn:Es.
    assert (Hlen : length shortened = 50).
    { rewrite Es, length_app, length_firstn. change (length (lit "...")) with 3. lia. }
    exists shortened.
    split; [reflexivity|]. split; [lia|].
    split; [intros H; exfalso; lia|]. split; [now split|].
    rewrite !length_app. cbn. lia.
  - apply Nat.ltb_ge in E. exists joined.
    split; [reflexivity|]. split; [lia|]. split; [reflexivity|].
    split; [intros H; exfalso; lia|].
    rewrite !length_app. cbn. lia.
Qed.

End RunSummaries.

(** ** The tool loop of a single test ([_run_single_test], lines 251-308) *)

Module ToolLoop.

Import Executor Examples.

Section WithInterp.
Context {I : Interp}.

Section WithWorld.
Variable World : Type.
Variable clock : World -> float.
Variable sleep : float -> World -> World.
Variable rate_limit_delay : float.
Variable config : BenchmarkConfig.

Let step := tool_step clock sleep rate_limit_delay config.
Let single := _run_single_test clock sleep rate_limit_delay config.

(** What one tool call adds: at most one recorded call, and one or two
    results (the tool's result and, when the follow-up generation fails,
    the error). *)
Definition grows_by_one_call (before after : Loop) : Prop :=
  length before.(calls_made) <= length after.(calls_made)
    <= S (length before.(calls_made))
  /\ S (length before.(results)) <= length after.(results)
       <= S (S (length before.(results)))
  /\ length after.(calls_made) - length before.(calls_made)
     <= length after.(results) - length before.(results).

Lemma tool_step_grows (provider : Provider World) model_config model_id lp st info :
  grows_by_one_call lp (fst (step provider model_config model_id (lp, st) info)).
Proof.
  unfold step, tool_step, grows_by_one_call.
  destruct (normalize_tool_call info) as [tool_call|e].
  - destruct (execute_tool_call provider tool_call (world st)) as [[r|e] w1].
    + destruct (generate_response provider _ _ _ _ _) as [[final|e] w2];
        cbn [fst append_error calls_made results];
        rewrite ?length_app; cbn [length]; lia.
    + cbn [fst append_error calls_made results].
      rewrite ?length_app; cbn [length]; lia.
  - cbn [fst append_error calls_made results].
    rewrite ?length_app; cbn [length]; lia.
Qed.

Lemma tool_loop_grows (provider : Provider World) model_config model_id calls lp st :
  let after := fst (fold_left (step provider model_config model_id) calls (lp, st)) in
  length after.(calls_made) <= length lp.(calls_made) + length calls
  /\ length lp.(results) + length calls <= length after.(results)
       <= length lp.(results) + 2 * length calls
  /\ length after.(calls_made) - length lp.(calls_made)
     <= length after.(results) - length lp.(results).
Proof.
  cbv zeta. revert lp st. induction calls as [|info calls IH]; intros lp st.
  - cbn. lia.
  - cbn [fold_left].
    pose proof (tool_step_grows provider model_config model_id lp st info) as H.
    destruct (step provider model_config model_id (lp, st) info) as [lp1 st1].
    cbn [fst] in H. specialize (IH lp1 st1).
    unfold grows_by_one_call in H. cbn [length]. lia.
Qed.

(** X7.  In the result of a test that does not fail as a whole, every
    tool call the model asked for has left at least one and at most two
    entries in [tool_results] (the tool's result, or an error, or the
    tool's result followed by the error of the follow-up generation), and at
    most one entry in [tool_calls_made]; without tool execution both are
    empty. *)
Theorem tool_calls_leave_their_results (provider : Provider World) model_config
    test_case model_id st response w1 :
  provider.(generate_response)
    (format_messages_with_system_prompt provider test_case.(tc_user_query))
    model_config
    (if config.(include_tool_execution)
     then Some provider.(get_database_tools) else None)
    config.(timeout_per_test) st.(world) = (Ok response, w1) ->
  let r := fst (single provider model_config test_case model_id st) in
  r.(error) = None ->
  let n := if config.(include_tool_execution)
           then length response.(tool_calls) else 0 in
  length r.(tool_calls_made) <= n
  /\ n <= length r.(tool_results) <= 2 * n
  /\ length r.(tool_calls_made) <= length r.(tool_results).
Proof.
  intros Hgen. cbv zeta. unfold single, _run_single_test. rewrite Hgen.
  set (start := {| loop_messages := _; loop_response := response;
                   calls_made := []; results := [] |}).
  assert (Hloop :
    forall lp st2,
      (lp, st2) = match response.(tool_calls) with
                  | _ :: _ =>
                      if config.(include_tool_execution)
                      then fold_left (step provider model_config model_id)
                             response.(tool_calls) (start, set_world w1 st)
                      else (start, set_world w1 st)
                  | [] => (start, set_world w1 st)
                  end ->
      let n := if config.(include_tool_execution)
               then length response.(tool_calls) else 0 in
      length lp.(calls_made) <= n
      /\ n <= length lp.(results) <= 2 * n
      /\ length lp.(calls_made) <= length lp.(results)).
  { intros lp st2 E. cbv zeta.
    pose proof (tool_loop_grows provider model_config model_id
                  response.(tool_calls) start (set_world w1 st)) as H.
    cbv zeta in H.
    destruct (include_tool_execution config).
    - destruct (tool_calls response) as [|c cs] eqn:Ec.
      + injection E as -> ->. cbn. lia.
      + rewrite <- E in H. cbn [fst] in H. cbn [start calls_made results length] in H.
        cbn [length]. lia.
    - destruct (tool_calls response); injection E as -> ->; cbn; lia. }
  fold step.
  destruct (match response.(tool_calls) with
            | _ :: _ => _
            | [] => _
            end) as [lp st2] eqn:E.
  specialize (Hloop lp st2 eq_refl). cbv zeta in Hloop.
  unfold TestResult_init.
  destruct (all_dicts lp.(results)) as [rs|] eqn:Ed.
  - intros _. cbn [fst tool_calls_made tool_results].
    assert (Hlen : length rs = length lp.(results)).
    { clear -Ed. revert rs Ed. induction (results lp) as [|v vs IH]; intros rs Ed.
      - cbn in Ed. now injection Ed as <-.
      - cbn [all_dicts] in Ed. destruct (as_dict v); [|discriminate].
        destruct (all_dicts vs); [|discriminate]. injection Ed as <-.
        cbn [length]. f_equal. now apply IH. }
    rewrite Hlen. exact Hloop.
  - cbn [fst]. unfold failed_test.
    destruct (is_TimeoutError _); cbn [error]; discriminate.
Qed.

End WithWorld.
End WithInterp.

End ToolLoop.

Module ToolLoopExample.

Import Executor Examples Reference.

Definition interrupted_test : TestResult :=
  fst (_run_single_test read_clock pass_time 1 sample_config flaky_provider
         sample_model_config (sample_test_case "correct_001") (lit "mock")
         (fresh_state [lit "mock"] 1)).

Lemma tool_calls_leave_their_results_witness :
  interrupted_test.(error) = None
  /\ List.map (List.map fst) interrupted_test.(tool_results)
     = [[lit "products"]; [lit "error"]]
  /\ length interrupted_test.(tool_calls_made) <= 1
  /\ 1 <= length interrupted_test.(tool_results) <= 2 * 1
  /\ length interrupted_test.(tool_calls_made)
     <= length interrupted_test.(tool_results).
Proof.
  split; [reflexivity|]. split; [reflexivity|].
  exact (ToolLoop.tool_calls_leave_their_results clock_world read_clock pass_time
           1 sample_config flaky_provider sample_model_config
           (sample_test_case "correct_001") (lit "mock")
           (fresh_state [lit "mock"] 1) search_request _ eq_refl eq_refl).
Defined.

End ToolLoopExample.

(** ** Tool arguments ([safe_json_loads] and the normalisation of a tool call) *)

Module ArgumentRecovery.

Import Executor Examples.

Section WithInterp.
Context {I : Interp}.

(** X8.  [safe_json_loads] hands anything but a text back unchanged.  On a
    text it raises only what [json.loads] raised on that very text, whatever
    the later attempts met, and it logs the error "Failed to parse JSON"
    exactly when it raises; a value it returns is
    the one [json.loads] reads from the text, or the one the scanner reads at
    its start, or the one [json.loads] reads from the object the regular
    expression finds. *)
Theorem safe_json_loads_raises_the_first_error (json_str : json) :
  match safe_json_loads json_str with
  | (logs, Raise e) =>
      exists s, json_str = JStr s /\ json_loads s = Raise e
                /\ logs = [(ERROR, lit "Failed to parse JSON: " ++ s)]
  | (logs, Ok v) =>
      Forall (fun record => fst record <> ERROR) logs
      /\ match json_str with
         | JStr s =>
             json_loads s = Ok v
             \/ (exists rest, raw_decode s = Ok (v, rest))
             \/ (exists m, re_search_object s = Some m /\ json_loads m = Ok v)
         | _ => v = json_str
         end
  end.
Proof.
  unfold safe_json_loads.
  destruct json_str as [ |b|z|l|s|items|members];
    try (split; [constructor|reflexivity]).
  destruct (json_loads s) as [v|e] eqn:E.
  - split; [constructor|]. now left.
  - destruct (contains (lit "Extra data") (exn_str e)); [|eauto].
    destruct (raw_decode s) as [[obj rest]|e'] eqn:Er.
    + split; [repeat constructor; discriminate|]. right. left. eauto.
    + destruct (re_search_object s) as [m|] eqn:Em; [|eauto].
      destruct (json_loads m) as [v|e''] eqn:E2; [|eauto].
      split; [constructor|]. right. right. eauto.
Qed.

(** X9.  A tool call in the nested form (name and arguments under
    "function", the id beside it) and the same call in the flat form are
    normalised alike: to the same [ToolCall], or to the same exception. *)
Theorem nested_and_flat_tool_calls_agree (nested flat func : dict) :
  dict_get (lit "function") nested = Some (JObj func) ->
  dict_get (lit "function") flat = None ->
  dict_get (lit "name") flat = dict_get (lit "name") func ->
  dict_get (lit "arguments") flat = dict_get (lit "arguments") func ->
  dict_get (lit "id") flat = dict_get (lit "id") nested ->
  normalize_tool_call nested = normalize_tool_call flat.
Proof.
  intros Hn Hf Hname Hargs Hid. unfold normalize_tool_call.
  rewrite Hn, Hf, Hid. cbn [bind]. unfold subscript.
  now rewrite Hname, Hargs.
Qed.

End WithInterp.

Definition nested_call : dict :=
  [(lit "id", JStr (lit "call_1"));
   (lit "type", JStr (lit "function"));
   (lit "function",
    JObj [(lit "name", JStr (lit "search_products"));
          (lit "arguments", JStr (jlit "{'producer': 'Lenovo'}"))])].

Definition flat_call : dict :=
  [(lit "name", JStr (lit "search_products"));
   (lit "arguments", JStr (jlit "{'producer': 'Lenovo'}"));
   (lit "id", JStr (lit "call_1"))].

Lemma nested_and_flat_tool_calls_agree_witness :
  normalize_tool_call (I := Reference.interp) nested_call
  = Ok {| tc_name := lit "search_products";
          arguments := [(lit "producer", JStr (lit "Lenovo"))];
          call_id := Some (lit "call_1") |}
  /\ normalize_tool_call (I := Reference.interp) nested_call
     = normalize_tool_call (I := Reference.interp) flat_call.
Proof.
  split; [reflexivity|].
  exact (nested_and_flat_tool_calls_agree (I := Reference.interp)
           nested_call flat_call
           [(lit "name", JStr (lit "search_products"));
            (lit "arguments", JStr (jlit "{'producer': 'Lenovo'}"))]
           eq_refl eq_refl eq_refl eq_refl eq_refl).
Defined.

End ArgumentRecovery.

(** ** The score scale, and the panel of judges *)

Module ScoreScale.

Import Examples.

Section WithInterp.
Context {I : Interp}.

(** X10.  The three tables of the score scale agree.  An integer score
    from 1 to 5 in a judge's verdict is stored with the level that stands
    for it and with that very value, and a score given by the name of a
    level with the level's value; the judge's mapping from integers to
    levels and the inverse map the consensus builds both invert
    [SCORE_VALUES]; and the names of the criteria and of the levels are read
    back to the members they name. *)
Theorem score_scale_round_trip :
  (forall l, score_mapping_get (SCORE_VALUES l) = l)
  /\ (forall l, MultiJudge.score_level_map (SCORE_VALUES l) = Ok l)
  /\ (forall z, (1 <= z <= 5)%Z -> SCORE_VALUES (score_mapping_get z) = z)
  /\ (forall c, EvaluationCriteria_of (criteria_value c) = Ok c)
  /\ (forall l, ScoreLevel_of (JStr (level_value l)) = Ok l)
  /\ (forall c z r d,
        (1 <= z <= 5)%Z ->
        dict_get (lit "score") d = Some (JInt z) ->
        dict_get (lit "reasoning") d = Some (JStr r) ->
        parse_entry (criteria_value c) (JObj d)
        = Ok {| criteria := c; score := score_mapping_get z;
                reasoning := r; score_value := z |})
  /\ (forall c l r d,
        dict_get (lit "score") d = Some (JStr (level_value l)) ->
        dict_get (lit "reasoning") d = Some (JStr r) ->
        parse_entry (criteria_value c) (JObj d)
        = Ok {| criteria := c; score := l;
                reasoning := r; score_value := SCORE_VALUES l |}).
Proof.
  assert (Hinv : forall z, (1 <= z <= 5)%Z -> SCORE_VALUES (score_mapping_get z) = z).
  { intros z Hz.
    assert (z = 1 \/ z = 2 \/ z = 3 \/ z = 4 \/ z = 5)%Z as [->|[->|[->|[->| ->]]]]
      by lia; reflexivity. }
  assert (Hc : forall c, EvaluationCriteria_of (criteria_value c) = Ok c)
    by (intros []; reflexivity).
  assert (Hl : forall l, ScoreLevel_of (JStr (level_value l)) = Ok l)
    by (intros []; reflexivity).
  split; [intros []; reflexivity|]. split; [intros []; reflexivity|].
  split; [exact Hinv|]. split; [exact Hc|]. split; [exact Hl|]. split.
  - intros c z r d Hz Hs Hr. unfold parse_entry, parse_criterion.
    rewrite Hc. cbn [bind]. unfold subscript. rewrite Hs, Hr. cbn [bind].
    unfold CriteriaScore_init. cbn [as_str]. now rewrite Hinv.
  - intros c l r d Hs Hr. unfold parse_entry, parse_criterion.
    rewrite Hc. cbn [bind]. unfold subscript. rewrite Hs, Hr. cbn [bind].
    rewrite Hl. reflexivity.
Qed.

End WithInterp.

End ScoreScale.

Module JudgePanel.

Import Examples Fallback.

Section WithInterp.
Context {I : Interp}.

(** X11.  With a context whose [expected_behavior] is absent or a text,
    [evaluate_test_result_multi] returns one evaluation for every judge, in
    the order of the judges and under the judge's id, and each is what that
    judge's own [evaluate_test_result] returned: the fallback of the
    multi-judge layer is never needed. *)
Theorem every_judge_answers (judges : list (str * LLMJudge)) now tr ctx eb :
  ctx_expected_behavior ctx = JStr eb ->
  exists evaluations,
    MultiJudge.evaluate_test_result_multi judges now tr ctx = Ok evaluations
    /\ List.map fst evaluations = List.map fst judges
    /\ Forall2 (fun judge evaluation =>
                  evaluate_test_result (snd judge) now tr ctx
                  = Ok (snd evaluation)) judges evaluations.
Proof.
  intros Hctx. induction judges as [|[judge_model judge] rest IH].
  - exists []. repeat split. constructor.
  - destruct IH as (more & Hmore & Hkeys & Hall).
    assert (Hev : exists ev, evaluate_test_result judge now tr ctx = Ok ev).
    { unfold evaluate_test_result.
      destruct (bind (judge_call judge tr ctx) _) as [ev|e]; [eauto|].
      destruct (fallback_succeeds judge now tr ctx eb (exn_str e) Hctx)
        as (ev & -> & _). eauto. }
    destruct Hev as (ev & Hev).
    exists ((judge_model, ev) :: more). cbn [MultiJudge.evaluate_test_result_multi].
    rewrite Hev. cbn [bind]. rewrite Hmore. cbn [bind].
    split; [reflexivity|]. split; [cbn; now f_equal|].
    constructor; [exact Hev|exact Hall].
Qed.

End WithInterp.

Lemma every_judge_answers_witness :
  exists evaluations,
    MultiJudge.evaluate_test_result_multi (I := Reference.interp)
      [(lit "judge_a", judge_answering verdict);
       (lit "judge_b", judge_raising TimeoutError)]
      now sample_test_result sample_context = Ok evaluations
    /\ List.map fst evaluations = [lit "judge_a"; lit "judge_b"]
    /\ List.map (fun je => (snd je).(overall_score)) evaluations
       = [3.75%float; 3%float].
Proof.
  destruct (every_judge_answers (I := Reference.interp)
              [(lit "judge_a", judge_answering verdict);
               (lit "judge_b", judge_raising TimeoutError)]
              now sample_test_result sample_context
              (lit "lists Lenovo laptops") eq_refl)
    as (evaluations & Hev & Hkeys & _).
  exists evaluations. split; [exact Hev|]. split; [exact Hkeys|].
  vm_compute in Hev. injection Hev as <-. vm_compute. reflexivity.
Defined.

End JudgePanel.

(** ** Evaluation of a whole run ([LLMJudge.evaluate_benchmark_run]) *)

Module RunEvaluation.

Import Examples Fallback Batch.

(** An evaluation that is about the given test result. *)
Definition evaluates (test_result : TestResult) (ev : EvaluationResult) : Prop :=
  ev.(ev_test_case_id) = test_result.(test_case_id)
  /\ ev.(ev_model_id) = test_result.(model_id)
  /\ ev.(ev_scenario_type) = test_result.(scenario_type)
  /\ ev.(ev_user_query) = test_result.(user_query)
  /\ ev.(ev_model_response) = test_result.(model_response).(content)
  /\ ev.(ev_tool_calls_made) = test_result.(tool_calls_made)
  /\ ev.(ev_tool_results) = test_result.(tool_results).

Lemma EvaluationResult_init_evaluates tr eb scs o jm now notes ev :
  EvaluationResult_init tr eb scs o jm now notes = Ok ev -> evaluates tr ev.
Proof.
  unfold EvaluationResult_init.
  destruct (as_str eb), (as_optional_str notes); try discriminate.
  intros H. injection H as <-. repeat split.
Qed.

Section WithInterp.
Context {I : Interp}.

Lemma evaluate_test_result_evaluates self now tr ctx ev :
  evaluate_test_result self now tr ctx = Ok ev -> evaluates tr ev.
Proof.
  assert (Hfb : forall msg ev',
             Judge._create_fallback_evaluation self now tr ctx msg = Ok ev' ->
             evaluates tr ev').
  { intros msg ev'. unfold Judge._create_fallback_evaluation. intros H.
    JudgeFacts.bind_inv H. eapply EvaluationResult_init_evaluates; eassumption. }
  unfold evaluate_test_result. intros H.
  destruct (bind (judge_call self tr ctx) _) as [ev'|e] eqn:E.
  - injection H as <-. JudgeFacts.bind_inv E.
    unfold _parse_evaluation_response in E.
    destruct (parse_body self now (content a) tr ctx) as [ev''|e'] eqn:Eb.
    + injection E as <-. unfold parse_body in Eb. JudgeFacts.bind_inv Eb.
      eapply EvaluationResult_init_evaluates; eassumption.
    + eapply Hfb; eassumption.
  - eapply Hfb; eassumption.
Qed.

Section WithWorld.
Variable World : Type.
Variable clock : World -> float.
Variable isoformat_now : World -> str.
Variable sleep : float -> World -> World.
Variable provider : World -> list Message -> ModelConfig -> result ModelResponse.
Variable asked : TestResult -> dict -> World -> World.
Variable self_config : EvaluationConfig.
Variable models_config : json.

Let evaluate := evaluate_in isoformat_now provider asked self_config models_config.
Let per_model := evaluate_results isoformat_now sleep provider asked
                   self_config models_config.
Let per_run := evaluate_models isoformat_now sleep provider asked
                 self_config models_config.
Let run := evaluate_benchmark_run clock isoformat_now sleep provider asked
             self_config models_config.

Lemma context_is_typed (test_case : option TestCaseEntry) :
  exists eb, ctx_expected_behavior (context_for test_case) = JStr eb.
Proof. unfold ctx_expected_behavior, context_for. cbn. eauto. Qed.

Lemma evaluate_in_succeeds tr test_case w :
  exists ev, fst (evaluate tr (context_for test_case) w) = Ok ev
             /\ evaluates tr ev.
Proof.
  unfold evaluate, evaluate_in. cbn [fst].
  destruct (context_is_typed test_case) as (eb & Hctx).
  set (self := judge_in provider self_config models_config w).
  set (now := isoformat_now _).
  assert (H : exists ev, evaluate_test_result self now tr (context_for test_case)
                         = Ok ev).
  { unfold evaluate_test_result.
    destruct (bind (judge_call self tr _) _) as [ev|e] eqn:E; [eauto|].
    destruct (fallback_succeeds self now tr (context_for test_case) eb
                (exn_str e) Hctx) as (ev & -> & _). eauto. }
  destruct H as (ev & Hev). exists ev. split; [exact Hev|].
  eapply evaluate_test_result_evaluates; eassumption.
Qed.

Lemma evaluate_results_complete lookup test_results w :
  Forall2 evaluates test_results
    (only_evaluations (fst (per_model lookup test_results w))).
Proof.
  revert w. induction test_results as [|tr rest IH]; intros w; [constructor|].
  unfold per_model. cbn [evaluate_results]. fold per_model.
  destruct (evaluate_in_succeeds tr (assoc_get tr.(test_case_id) lookup) w)
    as (ev & Hev & Habout).
  unfold evaluate in Hev.
  destruct (evaluate_in _ _ _ _ _ tr _ w) as [evaluation w1].
  cbn [fst] in Hev. subst evaluation.
  set (w2 := match rest with [] => w1 | _ :: _ => sleep 1%float w1 end).
  specialize (IH w2). destruct (per_model lookup rest w2) as [more w3].
  cbn [fst only_evaluations] in *. constructor; assumption.
Qed.

Lemma evaluate_models_complete lookup model_results acc w :
  exists evaluations,
    fst (per_run lookup model_results acc w) = acc ++ evaluations
    /\ Forall2 evaluates (flat_map Models.test_results model_results) evaluations.
Proof.
  revert acc w. induction model_results as [|mr mrs IH]; intros acc w.
  - exists []. cbn. rewrite app_nil_r. split; [reflexivity|constructor].
  - unfold per_run. cbn [evaluate_models]. fold per_run.
    pose proof (evaluate_results_complete lookup mr.(Models.test_results) w) as H.
    fold per_model.
    destruct (per_model lookup mr.(Models.test_results) w) as [evs w1].
    cbn [fst] in H.
    destruct (IH (acc ++ only_evaluations evs) w1) as (more & Hmore & Hall).
    exists (only_evaluations evs ++ more). rewrite Hmore, <- app_assoc.
    split; [reflexivity|]. cbn [flat_map]. now apply Forall2_app.
Qed.

(** X12.  [evaluate_benchmark_run] returns exactly one evaluation for
    every test result of the run, model after model and in the order of the
    results, whatever the judge's provider answers; each evaluation is
    about its test result (same test case id, model id, scenario type,
    query, response and tool data); [summary] is computed from these
    evaluations and the reported time is the time that passed on the
    clock. *)
Theorem every_result_is_evaluated (benchmark_run : BenchmarkRun) (w : World) :
  let batch := fst (run benchmark_run w) in
  let w' := snd (run benchmark_run w) in
  Forall2 evaluates
    (flat_map Models.test_results benchmark_run.(model_results))
    batch.(results)
  /\ length batch.(results)
     = length (flat_map Models.test_results benchmark_run.(model_results))
  /\ batch.(summary)
     = Stats._calculate_summary_stats
         (judge_in provider self_config models_config w') batch.(results)
  /\ batch.(config) = self_config
  /\ batch.(total_evaluation_time_ms) = ((clock w' - clock w) * 1000)%float.
Proof.
  cbv zeta. unfold run, evaluate_benchmark_run.
  destruct (evaluate_models_complete
              (test_case_lookup benchmark_run.(test_cases))
              benchmark_run.(model_results) [] w) as (evs & Hevs & Hall).
  unfold per_run in Hevs.
  destruct (evaluate_models _ _ _ _ _ _ _ _ _ w) as [all w1].
  cbn [fst app] in Hevs. subst all.
  cbn [fst snd results summary config total_evaluation_time_ms].
  split; [exact Hall|]. split; [|repeat split].
  symmetry. eapply Forall2_length; eassumption.
Qed.

End WithWorld.
End WithInterp.

End RunEvaluation.

(** ** Consensus over a run ([MultiJudgeEvaluation.create_consensus_evaluation]) *)

Module ConsensusOverRun.

Import Examples DictFacts ConsensusRun.

Section Assoc.
Context {V : Type}.

Lemma In_assoc_set (k k0 : str) (v v0 : V) (d : list (str * V)) :
  In (k, v) (assoc_set k0 v0 d) -> (k = k0 /\ v = v0) \/ In (k, v) d.
Proof.
  induction d as [|[k1 v1] d IH]; simpl.
  - intros [H|[]]. injection H as <- <-. now left.
  - destruct (str_eqb k0 k1) eqn:E; simpl.
    + apply str_eqb_eq in E as <-. intros [H|H].
      * injection H as <- <-. now left.
      * right. now right.
    + intros [H|H]; [right; now left|].
      destruct (IH H) as [?|?]; [now left|right; now right].
Qed.

Lemma assoc_set_nonempty (k : str) (v : V) (d : list (str * V)) :
  assoc_set k v d <> [].
Proof.
  destruct d as [|[k1 v1] d]; simpl; [discriminate|].
  destruct (str_eqb k k1); discriminate.
Qed.



End Assoc.

(** Under every test id there is at least one evaluation, and the
    evaluations under a test id are evaluations of that test. *)
Definition grouped (groups : list (str * list (str * EvaluationResult))) : Prop :=
  NoDup (List.map fst groups)
  /\ Forall (fun g => snd g <> []
                      /\ Forall (fun je => (snd je).(ev_test_case_id) = fst g)
                           (snd g)) groups.

Lemma add_evaluation_grouped judge_model groups e :
  grouped groups -> grouped (add_evaluation judge_model groups e).
Proof.
  intros [Hnd Hall]. unfold add_evaluation. split; [now apply NoDup_assoc_set|].
  apply Forall_forall. intros [k inner] Hin.
  apply In_assoc_set in Hin as [[-> ->]|Hin].
  - cbn [fst snd]. split; [apply assoc_set_nonempty|].
    apply Forall_forall. intros [j e'] Hin'.
    apply In_assoc_set in Hin' as [[-> ->]|Hin']; [reflexivity|].
    destruct (assoc_get (ev_test_case_id e) groups) as [d|] eqn:Eg;
      [|contradiction].
    apply assoc_get_In in Eg. rewrite Forall_forall in Hall.
    destruct (Hall _ Eg) as [_ Hd]. rewrite Forall_forall in Hd.
    exact (Hd _ Hin').
  - rewrite Forall_forall in Hall. exact (Hall _ Hin).
Qed.

Lemma add_evaluations_grouped judge_model evaluations groups :
  grouped groups ->
  grouped (fold_left (add_evaluation judge_model) evaluations groups).
Proof.
  revert groups. induction evaluations as [|e evs IH]; intros groups H;
    [exact H|].
  cbn [fold_left]. apply IH. now apply add_evaluation_grouped.
Qed.


Lemma group_by_test_grouped judge_evaluations :
  grouped (group_by_test judge_evaluations).
Proof.
  unfold group_by_test.
  assert (H : grouped []) by (split; constructor).
  revert H. generalize (@nil (str * list (str * EvaluationResult))) as groups.
  induction judge_evaluations as [|[judge evs] rest IH]; intros groups H;
    [exact H|].
  cbn [fold_left fst snd]. apply IH. now apply add_evaluations_grouped.
Qed.


Section WithInterp.
Context {I : Interp}.



End WithInterp.

End ConsensusOverRun.

(** ** The provider factory: which providers are created *)

Unset Implicit Arguments.

Module ProviderCreation.

Import Factory Examples DictFacts.

(** The environment variable that holds the key of a provider class. *)
Definition key_variable (c : provider_class) : option str :=
  match c with
  | OpenRouterProvider => Some (lit "OPENROUTER_API_KEY")
  | ReplicateProvider => Some (lit "REPLICATE_API_TOKEN")
  | MockProvider => None
  end.

Definition class_name (c : provider_class) : str :=
  match c with
  | OpenRouterProvider => lit "openrouter"
  | ReplicateProvider => lit "replicate"
  | MockProvider => lit "mock"
  end.

Lemma PROVIDER_MAP_name name c : PROVIDER_MAP name = Some c -> name = class_name c.
Proof.
  unfold PROVIDER_MAP.
  destruct (str_eqb name (lit "openrouter")) eqn:E1;
    [apply str_eqb_eq in E1; intros H; injection H as <-; exact E1|].
  destruct (str_eqb name (lit "replicate")) eqn:E2;
    [apply str_eqb_eq in E2; intros H; injection H as <-; exact E2|].
  destruct (str_eqb name (lit "mock")) eqn:E3;
    [apply str_eqb_eq in E3; intros H; injection H as <-; exact E3|].
  discriminate.
Qed.

Section WithEnvironment.
Variable getenv : str -> option str.

Lemma api_key_of_class c :
  _get_api_key getenv (class_name c)
  = match key_variable c with
    | Some v => getenv v
    | None => None
    end.
Proof. destruct c; reflexivity. Qed.

Lemma construct_inv c key url p :
  construct getenv c key url = Ok p ->
  class p = c /\ provider_name p = class_name c
  /\ (c <> OpenRouterProvider -> api_key p = key)
  /\ (key <> [] -> api_key p = key)
  /\ (c = OpenRouterProvider -> api_key p <> []).
Proof.
  destruct c; cbn [construct].
  - intros H. JudgeFacts.bind_inv H.
    destruct key as [|k0 key].
    + destruct (getenv (lit "OPENROUTER_API_KEY")) as [[|c0 k]|]; try discriminate.
      injection H as <-. cbn. repeat split; congruence.
    + injection H as <-. cbn. repeat split; congruence.
  - intros H. injection H as <-. cbn. repeat split; congruence.
  - intros H. injection H as <-. cbn. repeat split; congruence.
Qed.

Lemma construct_with_key c key url e :
  key <> [] \/ c <> OpenRouterProvider ->
  construct getenv c key url = Raise e ->
  exists v attr, e = AttributeError v attr.
Proof.
  intros Hkey. destruct c; cbn [construct]; try discriminate.
  destruct (truthy url).
  - destruct url; cbn [bind]; try (intros H; injection H as <-; eauto).
    destruct key; [destruct Hkey; congruence|discriminate].
  - cbn [bind]. destruct key; [destruct Hkey; congruence|discriminate].
Qed.

(** The statements of [get_provider] from line 56 on. *)
Definition creation (top : dict) (c : provider_class) (k : str)
    : result (option ProviderInstance) :=
  providers <- get (JObj top) (lit "providers") (JObj []) ;;
  provider_config <- get providers (class_name c) (JObj []) ;;
  has_url <- contains_key (lit "base_url") provider_config ;;
  url <- (if has_url then subscript provider_config (lit "base_url")
          else Ok JNull) ;;
  created <- construct getenv c k url ;;
  Ok (Some created).

Lemma creation_spec top c k :
  k <> [] \/ c <> OpenRouterProvider ->
  match creation top c k with
  | Ok (Some p) =>
      class p = c /\ provider_name p = class_name c /\ api_key p = k
  | Ok None => False
  | Raise e => exists v what, e = TypeError v what \/ e = AttributeError v what
  end.
Proof.
  intros Hk. unfold creation.
  assert (Hget : get (JObj top) (lit "providers") (JObj [])
                 = Ok match dict_get (lit "providers") top with
                      | Some x => x
                      | None => JObj []
                      end)
    by (cbn [get]; destruct (dict_get (lit "providers") top); reflexivity).
  rewrite Hget. clear Hget.
  generalize (match dict_get (lit "providers") top with
              | Some x => x
              | None => JObj []
              end) as providers.
  intros providers. cbn [bind].
  destruct (get providers (class_name c) (JObj [])) as [provider_config|e] eqn:Epc;
    cbn [bind].
  2: { destruct providers as [ |b|z|l|s|items|pd]; cbn [get] in Epc;
         try (injection Epc as <-; eexists _, _; right; reflexivity).
       destruct (dict_get (class_name c) pd); discriminate Epc. }
  destruct (contains_key (lit "base_url") provider_config) as [has_url|e] eqn:Eh;
    cbn [bind].
  2: { destruct provider_config; cbn [contains_key] in Eh;
         try discriminate Eh; injection Eh as <-;
         eexists _, _; left; reflexivity. }
  destruct (if has_url then subscript provider_config (lit "base_url")
            else Ok JNull) as [url|e] eqn:Eu; cbn [bind].
  2: { destruct has_url; [|discriminate Eu]. unfold subscript in Eu.
       destruct provider_config as [ |b|z|l|s|items|pc];
         try (injection Eu as <-; eexists _, _; left; reflexivity).
       cbn [contains_key] in Eh.
       destruct (dict_get (lit "base_url") pc); discriminate. }
  destruct (construct getenv c k url) as [p|e] eqn:Econ; cbn [bind].
  - apply construct_inv in Econ as (Hclass & Hname & Hother & Hsame & Hopen).
    split; [exact Hclass|]. split; [exact Hname|].
    destruct Hk as [Hk|Hk]; [now apply Hsame|now apply Hother].
  - apply (construct_with_key c k url e Hk) in Econ as (v & attr & ->).
    eexists _, _; right; reflexivity.
Qed.

(** X14.  [get_provider] creates a provider only for a model whose
    configuration is a dict that names one of the three implemented
    providers, and, for "openrouter" and "replicate", only when the
    environment holds a non-empty key, which the provider then carries; the
    mock provider needs no key and gets the empty one.  Whenever a provider
    is created, [get_model_config] returns that model's non-empty dict.
    A model that is not configured yields [None].  When it raises,
    it raises a [TypeError] or an [AttributeError] met while reading the
    configuration: the [ValueError] of the OpenRouter constructor for a
    missing key cannot occur. *)
Theorem providers_need_their_key (models_config : json) (model_id : str) :
  match get_provider getenv models_config model_id with
  | Ok (Some p) =>
      exists cfg,
        get_model_config models_config model_id = Ok (JObj cfg)
        /\ truthy (JObj cfg) = true
        /\ dict_get (lit "provider") cfg = Some (JStr (provider_name p))
        /\ provider_name p = class_name (class p)
        /\ match key_variable (class p) with
           | Some v => getenv v = Some (api_key p) /\ api_key p <> []
           | None => api_key p = []
           end
  | Ok None => True
  | Raise e => exists v what, e = TypeError v what \/ e = AttributeError v what
  end
  /\ (forall top models,
        models_config = JObj top ->
        dict_get (lit "models") top = Some (JObj models) ->
        dict_get model_id models = None ->
        get_provider getenv models_config model_id = Ok None)
  /\ (forall top,
        models_config = JObj top -> dict_get (lit "models") top = None ->
        get_provider getenv models_config model_id = Ok None).
Proof.
  split; [|split].
  2: { intros top models -> Hm Hid. unfold get_provider. cbn [get bind].
       rewrite Hm. cbn [bind contains_key]. rewrite Hid. reflexivity. }
  2: { intros top -> Hm. unfold get_provider. cbn [get bind].
       rewrite Hm. reflexivity. }
  unfold get_provider, get_model_config.
  destruct models_config as [ |b|z|l|s|items|top]; cbn [get bind];
    try (eexists _, _; right; reflexivity).
  destruct (dict_get (lit "models") top) as [models|] eqn:Em; cbn [bind];
    [|exact I].
  destruct models as [ |b|z|l|s|items|models]; cbn [contains_key bind];
    try (eexists _, _; left; reflexivity).
  - (* a text: the model id is a part of it, or not *)
    destruct (contains model_id s); cbn [negb]; [|exact I].
    unfold subscript. cbn [dict_get]. rewrite Em. cbn [bind].
    eexists _, _; left; reflexivity.
  - destruct (existsb _ items); cbn [negb]; [|exact I].
    unfold subscript. rewrite Em. cbn [bind].
    eexists _, _; left; reflexivity.
  - destruct (dict_get model_id models) as [model_config|] eqn:Eid;
      cbn [negb]; [|exact I].
    unfold subscript at 1. rewrite Em. cbn [bind].
    unfold subscript at 1. rewrite Eid. cbn [bind get].
    destruct model_config as [ |b|z|l|s|items|cfg]; cbn [get bind];
      try (eexists _, _; right; reflexivity).
    destruct (dict_get (lit "provider") cfg) as [named|] eqn:Ep; cbn [bind];
      [|exact I].
    destruct named as [ |b|z|l|name|items|members];
      cbn [provider_map_get bind]; try exact I;
      try (eexists _, _; left; reflexivity).
    destruct (PROVIDER_MAP name) as [c|] eqn:Ec; [|exact I].
    apply PROVIDER_MAP_name in Ec. subst name. rewrite api_key_of_class.
    assert (Hcfg : truthy (JObj cfg) = true)
      by (destruct cfg; [discriminate Ep|reflexivity]).
    destruct c; cbn [key_variable].
    + destruct (getenv (lit "OPENROUTER_API_KEY")) as [[|c0 k0]|] eqn:Eg;
        cbn [andb negb]; try exact I.
      change (str_eqb (class_name OpenRouterProvider) (lit "mock")) with false.
      cbn [andb negb].
      assert (H := creation_spec top OpenRouterProvider (c0 :: k0)).
      specialize (H ltac:(left; discriminate)).
      match goal with
      | |- match ?run with Ok _ => _ | Raise _ => _ end =>
          change run with (creation top OpenRouterProvider (c0 :: k0))
      end.
      destruct (creation top OpenRouterProvider (c0 :: k0)) as [[p|]|e]; [|contradiction|exact H].
      destruct H as (Hclass & Hname & Hkey). exists cfg.
      rewrite Hclass, Hname, Hkey. cbn [key_variable]. rewrite Eg.
      rewrite Eid. repeat split; try assumption; discriminate.
    + destruct (getenv (lit "REPLICATE_API_TOKEN")) as [[|c0 k0]|] eqn:Eg;
        cbn [andb negb]; try exact I.
      change (str_eqb (class_name ReplicateProvider) (lit "mock")) with false.
      cbn [andb negb].
      assert (H := creation_spec top ReplicateProvider (c0 :: k0)).
      specialize (H ltac:(left; discriminate)).
      match goal with
      | |- match ?run with Ok _ => _ | Raise _ => _ end =>
          change run with (creation top ReplicateProvider (c0 :: k0))
      end.
      destruct (creation top ReplicateProvider (c0 :: k0)) as [[p|]|e]; [|contradiction|exact H].
      destruct H as (Hclass & Hname & Hkey). exists cfg.
      rewrite Hclass, Hname, Hkey. cbn [key_variable]. rewrite Eg.
      rewrite Eid. repeat split; try assumption; discriminate.
    + change (str_eqb (class_name MockProvider) (lit "mock")) with true.
      cbn [andb negb].
      assert (H := creation_spec top MockProvider []).
      specialize (H ltac:(right; discriminate)).
      match goal with
      | |- match ?run with Ok _ => _ | Raise _ => _ end =>
          change run with (creation top MockProvider [])
      end.
      destruct (creation top MockProvider []) as [[p|]|e]; [|contradiction|exact H].
      destruct H as (Hclass & Hname & Hkey). exists cfg.
      rewrite Hclass, Hname, Hkey. cbn [key_variable].
      rewrite Eid. repeat split; assumption.
Qed.

Lemma PROVIDER_MAP_class c : PROVIDER_MAP (class_name c) = Some c.
Proof. destruct c; reflexivity. Qed.

(** The address a provider gets when the configuration gives none. *)
Definition default_url (c : provider_class) : json :=
  match c with
  | OpenRouterProvider => JStr (lit "https://openrouter.ai/api/v1")
  | _ => JNull
  end.

(** X15.  A model configured with one of the three providers, whose key
    (none for the mock provider) is in the environment and not empty, gets
    its provider when the configuration has no "providers" section: the
    provider carries that key, and the address is OpenRouter's default for
    OpenRouter and [None] for the other two. *)
Theorem configured_model_gets_its_provider
    (top models cfg : dict) (model_id k : str) (c : provider_class) :
  dict_get (lit "models") top = Some (JObj models) ->
  dict_get model_id models = Some (JObj cfg) ->
  dict_get (lit "provider") cfg = Some (JStr (class_name c)) ->
  dict_get (lit "providers") top = None ->
  match key_variable c with
  | Some v => getenv v = Some k /\ k <> []
  | None => k = []
  end ->
  get_provider getenv (JObj top) model_id
  = Ok (Some {| class := c; api_key := k; base_url := default_url c;
                provider_name := class_name c |}).
Proof.
  intros Hm Hid Hp Hnone Hkey. unfold get_provider. cbn [get bind].
  rewrite Hm. cbn [bind contains_key]. rewrite Hid. cbn [negb].
  unfold subscript at 1. rewrite Hm. cbn [bind].
  unfold subscript at 1. rewrite Hid. cbn [bind get]. rewrite Hp.
  cbn [bind provider_map_get]. rewrite PROVIDER_MAP_class, api_key_of_class.
  rewrite Hnone. cbn [bind get].
  destruct c; cbn [key_variable] in *.
  - destruct Hkey as [-> Hk]. destruct k as [|c0 k]; [congruence|]. reflexivity.
  - destruct Hkey as [-> Hk]. destruct k as [|c0 k]; [congruence|]. reflexivity.
  - subst k. reflexivity.
Qed.

End WithEnvironment.

(** An environment that holds the key of OpenRouter only, and a
    configuration with one model. *)
Definition environment (name : str) : option str :=
  if str_eqb name (lit "OPENROUTER_API_KEY") then Some (lit "sk-or-1") else None.

Definition one_model : dict :=
  [(lit "models",
    JObj [(lit "gpt", JObj [(lit "provider", JStr (lit "openrouter"))])])].

Lemma configured_model_gets_its_provider_witness :
  get_provider environment (JObj one_model) (lit "gpt")
  = Ok (Some {| class := OpenRouterProvider; api_key := lit "sk-or-1";
                base_url := JStr (lit "https://openrouter.ai/api/v1");
                provider_name := lit "openrouter" |}).
Proof.
  apply (configured_model_gets_its_provider environment one_model
           [(lit "gpt", JObj [(lit "provider", JStr (lit "openrouter"))])]
           [(lit "provider", JStr (lit "openrouter"))]
           (lit "gpt") (lit "sk-or-1") OpenRouterProvider);
    try reflexivity.
  split; [reflexivity|discriminate].
Defined.

End ProviderCreation.

(** ** The messages sent to OpenRouter *)

Module MessageFormatting.

Import OpenRouter DictFacts.

Definition plain (msg : Message) : str * str := (msg.(role), msg.(msg_content)).

Definition not_tool (msg : Message) : bool := negb (is_tool msg).

(** Without the special handling every message is passed on as it is. *)
Lemma format_loop_plain fuel messages :
  (length messages <= fuel)%nat ->
  format_loop fuel false messages = map plain messages.
Proof.
  revert messages. induction fuel as [|fuel IH]; intros [|msg rest] Hlen;
    try reflexivity; cbn [length] in Hlen; [lia|].
  cbn [format_loop map]. rewrite !andb_false_r.
  rewrite IH by lia. reflexivity.
Qed.

(** The inner loop takes the tool messages at the front, and only them. *)
Lemma tool_results_after_split messages acc :
  exists tools,
    messages = tools ++ snd (tool_results_after messages acc)
    /\ forallb is_tool tools = true
    /\ match snd (tool_results_after messages acc) with
       | next :: _ => is_tool next = false
       | [] => True
       end.
Proof.
  revert acc. induction messages as [|m rest IH]; intros acc; cbn [tool_results_after].
  - exists []. repeat split.
  - destruct (is_tool m) eqn:Em.
    + destruct (IH ((match acc with [] => [] | _ :: _ => acc ++ [10%N] end)
                     ++ lit "Tool result: " ++ m.(msg_content)))
        as (tools & Hsplit & Htools & Hnext).
      exists (m :: tools). cbn [app forallb snd]. rewrite Em, Htools.
      split; [f_equal; exact Hsplit|]. split; [reflexivity|exact Hnext].
    + exists []. cbn [app forallb snd]. repeat split. exact Em.
Qed.

Lemma filter_tools tools rest :
  forallb is_tool tools = true ->
  filter not_tool (tools ++ rest) = filter not_tool rest.
Proof.
  induction tools as [|t tools IH]; [reflexivity|]. cbn [forallb app filter].
  intros H. apply andb_prop in H as [Ht Hts]. unfold not_tool at 1.
  rewrite Ht. cbn [negb]. exact (IH Hts).
Qed.

Lemma calls_tools_not_tool msg : calls_tools msg = true -> is_tool msg = false.
Proof.
  unfold calls_tools, is_tool. intros H. apply andb_prop in H as [H _].
  apply str_eqb_eq in H. rewrite H. reflexivity.
Qed.

Lemma tool_results_after_shorter messages acc :
  (length (snd (tool_results_after messages acc)) <= length messages)%nat.
Proof.
  destruct (tool_results_after_split messages acc) as (tools & Hsplit & _).
  rewrite Hsplit at 2. rewrite length_app. lia.
Qed.

(** Fuel beyond the number of messages changes nothing. *)
Lemma format_loop_fuel needs fuel fuel' messages :
  (length messages <= fuel)%nat -> (length messages <= fuel')%nat ->
  format_loop fuel needs messages = format_loop fuel' needs messages.
Proof.
  revert fuel' messages. induction fuel as [|fuel IH];
    intros [|fuel'] [|msg rest] H H'; try reflexivity;
    cbn [length] in H, H'; try lia.
  cbn [format_loop].
  destruct (is_tool msg && needs); [apply IH; lia|].
  destruct (calls_tools msg && needs).
  - pose proof (tool_results_after_shorter rest []) as Hshort.
    destruct (tool_results_after rest []) as [tool_results_content after].
    cbn [snd] in Hshort. f_equal. apply IH; lia.
  - f_equal. apply IH; lia.
Qed.

(** What one turn of the loop may do to a message that is kept. *)
Definition kept_as (msg : Message) (out : str * str) : Prop :=
  fst out = msg.(role)
  /\ exists added, snd out = msg.(msg_content) ++ added
                   /\ (calls_tools msg = false -> added = []).

Lemma format_loop_kept fuel messages :
  (length messages <= fuel)%nat ->
  Forall2 kept_as (filter not_tool messages) (format_loop fuel true messages).
Proof.
  revert messages. induction fuel as [|fuel IH]; intros [|msg rest] Hlen;
    try (constructor; fail); cbn [length] in Hlen; [lia|].
  cbn [format_loop filter]. rewrite !andb_true_r. unfold not_tool at 1.
  destruct (is_tool msg) eqn:Etool; cbn [negb].
  - apply IH. lia.
  - destruct (calls_tools msg) eqn:Ecalls.
    + destruct (tool_results_after_split rest []) as (tools & Hsplit & Htools & _).
      destruct (tool_results_after rest []) as [tool_results_content after].
      cbn [snd] in Hsplit.
      constructor.
      * split; [reflexivity|]. cbn [snd]. unfold combined_content.
        destruct tool_results_content.
        -- exists []. rewrite app_nil_r. split; [reflexivity|congruence].
        -- eexists. split; [reflexivity|congruence].
      * rewrite Hsplit at 1. rewrite (filter_tools tools after Htools).
        apply IH. rewrite Hsplit in Hlen. rewrite length_app in Hlen. lia.
    + constructor.
      * split; [reflexivity|]. exists []. cbn [snd]. rewrite app_nil_r.
        split; reflexivity.
      * apply IH. lia.
Qed.

(** X16.  For the models that need it, the messages sent are the messages
    of the conversation without the tool messages, in their order and with
    their roles; each one keeps its content, and only an assistant message
    that called tools has text added after it.  For the other models every
    message is sent as it is. *)
Theorem tool_messages_are_never_sent (messages : list Message) :
  Forall2 kept_as (filter not_tool messages) (format_messages true messages)
  /\ format_messages false messages = map plain messages.
Proof.
  split.
  - apply format_loop_kept. reflexivity.
  - apply format_loop_plain. reflexivity.
Qed.

(** The text of the tool messages, as the inner loop builds it. *)
Definition tool_line (t : Message) : str := lit "Tool result: " ++ t.(msg_content).

Definition tool_lines (tools : list Message) : str := join [10%N] (map tool_line tools).

Lemma tool_results_after_tools tools rest acc :
  forallb is_tool tools = true ->
  match rest with
  | next :: _ => is_tool next = false
  | [] => True
  end ->
  tool_results_after (tools ++ rest) acc
  = (match tools, acc with
     | [], _ => acc
     | _ :: _, [] => tool_lines tools
     | _ :: _, _ :: _ => acc ++ [10%N] ++ tool_lines tools
     end, rest).
Proof.
  intros Htools Hrest. revert acc Htools.
  induction tools as [|t tools IH]; intros acc Htools.
  - cbn [app]. destruct rest as [|next rest]; [reflexivity|].
    cbn [tool_results_after]. rewrite Hrest. reflexivity.
  - cbn [forallb] in Htools. apply andb_prop in Htools as [Ht Hts].
    cbn [app tool_results_after]. rewrite Ht. fold (tool_line t).
    rewrite (IH _ Hts). f_equal. unfold tool_lines.
    destruct tools as [|t' tools]; cbn [map join].
    + destruct acc; [reflexivity|]. rewrite <- !app_assoc. reflexivity.
    + destruct acc as [|a acc'].
      * reflexivity.
      * cbn [app]. rewrite <- !app_assoc. reflexivity.
Qed.

(** X17.  An assistant message that called tools, followed by one or more
    tool messages and then by a message that is no tool message (or by
    nothing), is sent as one message: its content, a blank line, the line
    "Based on the search results:" and one line "Tool result: ..." per
    tool message, in their order.  The messages after them are formatted
    as if the conversation started there. *)
Theorem tool_results_follow_their_call
    (msg first : Message) (tools rest : list Message) :
  calls_tools msg = true ->
  forallb is_tool (first :: tools) = true ->
  match rest with
  | next :: _ => is_tool next = false
  | [] => True
  end ->
  format_messages true (msg :: (first :: tools) ++ rest)
  = (msg.(role),
     msg.(msg_content) ++ [10%N; 10%N] ++ lit "Based on the search results:"
       ++ [10%N] ++ tool_lines (first :: tools))
    :: format_messages true rest.
Proof.
  intros Hcalls Htools Hrest. unfold format_messages.
  cbn [length format_loop]. rewrite (calls_tools_not_tool msg Hcalls), Hcalls.
  cbn [andb].
  rewrite (tool_results_after_tools (first :: tools) rest [] Htools Hrest).
  unfold combined_content.
  assert (Hline : exists c0 l, tool_lines (first :: tools) = c0 :: l).
  { unfold tool_lines. cbn [map join]. destruct (map tool_line tools);
      unfold tool_line; cbn; eauto. }
  destruct Hline as (c0 & l & Hline). rewrite Hline. f_equal.
  apply format_loop_fuel; [|reflexivity].
  rewrite length_app. cbn [length]. lia.
Qed.

Definition call_message : Message :=
  {| role := lit "assistant"; msg_content := lit "Searching.";
     msg_tool_calls := [{| tc_name := lit "search_products"; arguments := [];
                           call_id := None |}];
     tool_call_id := None |}.

Definition tool_message (text : str) : Message :=
  {| role := lit "tool"; msg_content := text; msg_tool_calls := [];
     tool_call_id := Some (lit "call_1") |}.

Lemma tool_results_follow_their_call_witness :
  format_messages true [call_message; tool_message (lit "2 laptops");
                        tool_message (lit "1 phone")]
  = [(lit "assistant",
      lit "Searching." ++ [10%N; 10%N] ++ lit "Based on the search results:"
        ++ [10%N] ++ lit "Tool result: 2 laptops" ++ [10%N]
        ++ lit "Tool result: 1 phone")].
Proof.
  exact (tool_results_follow_their_call call_message
           (tool_message (lit "2 laptops")) [tool_message (lit "1 phone")] []
           eq_refl eq_refl I).
Defined.

End MessageFormatting.

(** ** The validation of the configuration *)

Module ConfigurationCheck.

Import Factory DictFacts ProviderCreation.

Section WithEnvironment.
Variable getenv : str -> option str.
Variable str_of : json -> str.
Variable list_of_set : list json -> list json.

(** A model entry that [get_provider] can serve. *)
Definition served (config : json) : Prop :=
  exists c,
    get config (lit "provider") JNull = Ok (JStr (class_name c))
    /\ match key_variable c with
       | Some v => exists c0 k, getenv v = Some (c0 :: k)
       | None => True
       end.

Lemma served_gets_provider top models model_id config :
  dict_get (lit "models") top = Some (JObj models) ->
  dict_get model_id models = Some config ->
  served config ->
  get_provider getenv (JObj top) model_id <> Ok None.
Proof.
  intros Hm Hid (c & Hp & Hkey). unfold get_provider. cbn [get bind].
  rewrite Hm. cbn [bind contains_key]. rewrite Hid. cbn [negb].
  unfold subscript at 1. rewrite Hm. cbn [bind].
  unfold subscript at 1. rewrite Hid. cbn [bind]. rewrite Hp.
  cbn [bind provider_map_get]. rewrite PROVIDER_MAP_class, api_key_of_class.
  destruct c; cbn [key_variable] in *.
  - destruct Hkey as (c0 & k & ->). cbn [andb].
    assert (H := creation_spec getenv top OpenRouterProvider (c0 :: k)).
    specialize (H ltac:(left; discriminate)).
    match goal with
    | |- ?run <> _ =>
        change run with (creation getenv top OpenRouterProvider (c0 :: k))
    end.
    destruct (creation getenv top OpenRouterProvider (c0 :: k)) as [[p|]|e];
      [discriminate|contradiction|discriminate].
  - destruct Hkey as (c0 & k & ->). cbn [andb].
    assert (H := creation_spec getenv top ReplicateProvider (c0 :: k)).
    specialize (H ltac:(left; discriminate)).
    match goal with
    | |- ?run <> _ =>
        change run with (creation getenv top ReplicateProvider (c0 :: k))
    end.
    destruct (creation getenv top ReplicateProvider (c0 :: k)) as [[p|]|e];
      [discriminate|contradiction|discriminate].
  - change (str_eqb (class_name MockProvider) (lit "mock")) with true.
    cbn [andb negb].
    assert (H := creation_spec getenv top MockProvider []).
    specialize (H ltac:(right; discriminate)).
    match goal with
    | |- ?run <> _ => change run with (creation getenv top MockProvider [])
    end.
    destruct (creation getenv top MockProvider []) as [[p|]|e];
      [discriminate|contradiction|discriminate].
Qed.

(** What one turn of the loop keeps. *)
Record checked_so_far (entries : dict) (v : ValidationResult) : Prop := {
  valid_iff : valid v = true <-> errors v = [];
  counted : (length (errors v) + length (available_providers v)
             = length entries)%nat;
  warned : (length (warnings v) <= 2 * length (available_providers v))%nat;
  clean : errors v = [] -> warnings v = [] ->
          forall model_id config, In (model_id, config) entries -> served config
}.

Lemma validate_model_raises v entry e :
  validate_model getenv str_of v entry = Raise e ->
  exists x what, e = TypeError x what \/ e = AttributeError x what.
Proof.
  destruct entry as [model_id config]. unfold validate_model.
  destruct (get config (lit "provider") JNull) as [provider|e'] eqn:Ep;
    cbn [bind].
  - destruct (negb (truthy provider)); [discriminate|].
    destruct provider; cbn [provider_map_get bind]; try discriminate;
      intros H; injection H as <-; eexists _, _; left; reflexivity.
  - intros H; injection H as <-.
    destruct config; cbn [get] in Ep;
      try (injection Ep as <-; eexists _, _; right; reflexivity).
    destruct (dict_get (lit "provider") members); discriminate Ep.
Qed.

Lemma validate_model_keeps done v entry v' :
  checked_so_far done v ->
  validate_model getenv str_of v entry = Ok v' ->
  checked_so_far (done ++ [entry]) v'
  /\ available_models v' = available_models v.
Proof.
  intros [Hvalid Hcount Hwarn Hclean]. destruct entry as [model_id config].
  unfold validate_model.
  destruct (get config (lit "provider") JNull) as [provider|e'] eqn:Ep;
    cbn [bind]; [|discriminate].
  destruct (truthy provider) eqn:Etruthy; cbn [negb].
  - destruct (provider_map_get provider) as [known|e'] eqn:Eknown;
      cbn [bind]; [|discriminate].
    intros H; injection H as <-. split; [|reflexivity].
    constructor; cbn [valid errors warnings available_providers].
    + exact Hvalid.
    + rewrite !length_app. cbn [length]. lia.
    + rewrite !length_app.
      destruct known; destruct (_ && _); cbn [length]; lia.
    + intros Herr Hw id cfg Hin.
      apply app_eq_nil in Hw as [Hw Hadded].
      apply app_eq_nil in Hadded as [Hknown Hkey].
      apply in_app_or in Hin as [Hin|[Hin|[]]];
        [exact (Hclean Herr Hw id cfg Hin)|].
      injection Hin as <- <-.
      destruct provider as [ |b|z|l|name|elements|members];
        cbn [provider_map_get] in Eknown; try discriminate Eknown;
        injection Eknown as <-; try discriminate Hknown.
      destruct (PROVIDER_MAP name) as [c|] eqn:Ec; [|discriminate Hknown].
      apply PROVIDER_MAP_name in Ec. subst name. exists c.
      split; [exact Ep|]. rewrite api_key_of_class in Hkey.
      cbn [is_text] in Hkey.
      destruct c; cbn [key_variable] in *.
      * destruct (getenv (lit "OPENROUTER_API_KEY")) as [[|c0 k]|];
          try discriminate Hkey. eauto.
      * destruct (getenv (lit "REPLICATE_API_TOKEN")) as [[|c0 k]|];
          try discriminate Hkey. eauto.
      * exact I.
  - intros H; injection H as <-. split; [|reflexivity].
    constructor; cbn [valid errors warnings available_providers].
    + split; [discriminate|]. intros H. apply app_eq_nil in H as [_ H].
      discriminate H.
    + rewrite !length_app. cbn [length]. lia.
    + exact Hwarn.
    + intros H. apply app_eq_nil in H as [_ H]. discriminate H.
Qed.

Lemma validate_models_keeps entries done v :
  checked_so_far done v ->
  match validate_models getenv str_of entries v with
  | Ok v' => checked_so_far (done ++ entries) v'
             /\ available_models v' = available_models v
  | Raise e => exists x what, e = TypeError x what \/ e = AttributeError x what
  end.
Proof.
  revert done v. induction entries as [|entry rest IH]; intros done v Hv.
  - cbn [validate_models]. rewrite app_nil_r. split; [exact Hv|reflexivity].
  - cbn [validate_models].
    destruct (validate_model getenv str_of v entry) as [v1|e] eqn:E1;
      cbn [bind].
    + destruct (validate_model_keeps done v entry v1 Hv E1) as [H1 Hn].
      specialize (IH (done ++ [entry]) v1 H1).
      rewrite <- app_assoc in IH. cbn [app] in IH.
      destruct (validate_models getenv str_of rest v1); [|exact IH].
      destruct IH as [IH Hn']. split; [exact IH|congruence].
    + exact (validate_model_raises v entry e E1).
Qed.

(** X18.  When [validate_configuration] returns, "valid" holds exactly when
    there are no errors; the models are a dict, [available_models] is their
    number, every model gives one error or none and at most two warnings;
    and when there are neither errors nor warnings, [get_provider] does not
    answer [None] for any model of the configuration.  It raises nothing
    but a [TypeError] or an [AttributeError]. *)
Theorem clean_configuration_serves_every_model (models_config : json) :
  match validate_configuration getenv str_of list_of_set models_config with
  | Ok v =>
      (valid v = true <-> errors v = [])
      /\ exists models,
           list_available_models models_config = Ok (JObj models)
           /\ available_models v = Summary.len models
           /\ (Summary.len (errors v) <= Summary.len models)%Z
           /\ (Summary.len (warnings v)
               <= 2 * (Summary.len models - Summary.len (errors v)))%Z
           /\ (errors v = [] -> warnings v = [] ->
               forall model_id config,
                 dict_get model_id models = Some config ->
                 get_provider getenv models_config model_id <> Ok None)
  | Raise e => exists x what, e = TypeError x what \/ e = AttributeError x what
  end.
Proof.
  unfold validate_configuration, list_available_models.
  destruct models_config as [ |b|z|l|s|elements|top]; cbn [get bind];
    try (eexists _, _; right; reflexivity).
  assert (Hmodels : exists models,
             match dict_get (lit "models") top with
             | Some x => Ok x
             | None => Ok (JObj [])
             end = Ok models
             /\ (forall d, models = JObj d ->
                 forall model_id config, dict_get model_id d = Some config ->
                   dict_get (lit "models") top = Some (JObj d))).
  { destruct (dict_get (lit "models") top) as [x|]; eexists; split;
      try reflexivity.
    - intros d ->. reflexivity.
    - intros d Hd. injection Hd as <-. discriminate. }
  destruct Hmodels as (models & -> & Htop). cbn [bind].
  destruct models as [ |b|z|l|s|elements|models]; cbn [py_len items bind];
    try (eexists _, _; left; reflexivity);
    try (eexists _, _; right; reflexivity).
  pose proof (validate_models_keeps models []
                {| valid := true; errors := []; warnings := [];
                   available_models := Z.of_nat (length models);
                   available_providers := [] |}) as H.
  cbn [app] in H.
  destruct (validate_models _ _ models _) as [v|e]; cbn [bind];
    [|apply H; constructor; cbn; try tauto; lia].
  destruct H as [[Hvalid Hcount Hwarn Hclean] Hn];
    [constructor; cbn; try tauto; lia|].
  cbn [valid errors warnings available_models available_providers].
  split; [exact Hvalid|]. exists models. unfold Summary.len.
  split; [reflexivity|]. split; [exact Hn|]. split; [lia|]. split; [lia|].
  intros Herr Hw model_id config Hid.
  apply (served_gets_provider top models model_id config
           (Htop models eq_refl model_id config Hid) Hid).
  exact (Hclean Herr Hw model_id config (assoc_get_In _ _ _ Hid)).
Qed.

End WithEnvironment.

End ConfigurationCheck.

(** ** The models of one provider *)

Module ModelsOfProvider.

Import Factory DictFacts ProviderCreation.

Lemma is_text_eq v s : is_text v s = true -> v = JStr s.
Proof.
  destruct v; cbn [is_text]; try discriminate.
  intros H. apply str_eqb_eq in H. now subst.
Qed.

(** The test of line 85 on one entry of the models. *)
Definition has_provider (provider_name : str) (entry : str * json) : bool :=
  match get (snd entry) (lit "provider") JNull with
  | Ok provider => is_text provider provider_name
  | Raise _ => false
  end.

Lemma get_raises v key default e :
  get v key default = Raise e -> exists x what, e = AttributeError x what.
Proof.
  destruct v; cbn [get]; try (intros H; injection H as <-; eauto).
  destruct (dict_get key members); discriminate.
Qed.

Lemma models_by_provider_raises name entries acc e :
  models_by_provider name entries acc = Raise e ->
  exists x what, e = AttributeError x what.
Proof.
  revert acc. induction entries as [|[id cfg] rest IH]; intros acc;
    cbn [models_by_provider]; [discriminate|].
  destruct (get cfg (lit "provider") JNull) as [provider|e'] eqn:Ep; cbn [bind].
  - apply IH.
  - intros H; injection H as <-. exact (get_raises _ _ _ _ Ep).
Qed.

(** Every model selected was already selected or is an entry with that
    provider. *)
Lemma models_by_provider_sound name entries acc selected :
  models_by_provider name entries acc = Ok selected ->
  forall id cfg, dict_get id selected = Some cfg ->
    dict_get id acc = Some cfg
    \/ (In (id, cfg) entries
        /\ get cfg (lit "provider") JNull = Ok (JStr name)).
Proof.
  revert acc. induction entries as [|[id0 cfg0] rest IH]; intros acc;
    cbn [models_by_provider].
  - intros H; injection H as <-. auto.
  - destruct (get cfg0 (lit "provider") JNull) as [provider|e'] eqn:Ep;
      cbn [bind]; [|discriminate].
    intros H id cfg Hid. destruct (IH _ H id cfg Hid) as [Hacc|[Hin Hp]].
    + destruct (is_text provider name) eqn:Et; [|now left].
      apply is_text_eq in Et. subst provider. unfold dict_get, dict_set in Hacc.
      destruct (str_eqb id id0) eqn:Eid.
      * apply str_eqb_eq in Eid. subst id0.
        rewrite assoc_get_set_same in Hacc. injection Hacc as <-.
        right. split; [now left|exact Ep].
      * rewrite assoc_get_set_other in Hacc; [now left|].
        intros ->. rewrite str_eqb_refl in Eid. discriminate.
    + right. split; [now right|exact Hp].
Qed.

Lemma assoc_set_new {V : Type} (k : str) (v : V) (d : list (str * V)) :
  ~ In k (map fst d) -> assoc_set k v d = d ++ [(k, v)].
Proof.
  induction d as [|[k' v'] d IH]; cbn [assoc_set map fst In app];
    [reflexivity|].
  intros H. destruct (str_eqb k k') eqn:E.
  - apply str_eqb_eq in E. subst. tauto.
  - rewrite IH by tauto. reflexivity.
Qed.

(** With every id once, the selection is the entries with that provider,
    in their order. *)
Lemma models_by_provider_filter name entries acc selected :
  NoDup (map fst (acc ++ entries)) ->
  models_by_provider name entries acc = Ok selected ->
  selected = acc ++ filter (has_provider name) entries.
Proof.
  revert acc. induction entries as [|[id0 cfg0] rest IH]; intros acc Hnd;
    cbn [models_by_provider filter].
  - intros H; injection H as <-. now rewrite app_nil_r.
  - unfold has_provider at 1. cbn [snd].
    destruct (get cfg0 (lit "provider") JNull) as [provider|e'] eqn:Ep;
      cbn [bind]; [|discriminate].
    intros H. destruct (is_text provider name) eqn:Et.
    + assert (Hnew : ~ In id0 (map fst acc)).
      { rewrite map_app in Hnd. cbn [map fst] in Hnd.
        apply NoDup_remove_2 in Hnd. intros Hin. apply Hnd.
        apply in_or_app. now left. }
      unfold dict_set in H. rewrite (assoc_set_new id0 cfg0 acc Hnew) in H.
      apply IH in H.
      * rewrite H, <- app_assoc. reflexivity.
      * rewrite <- app_assoc. exact Hnd.
    + apply IH in H; [exact H|].
      rewrite map_app in *. cbn [map fst] in Hnd.
      now apply NoDup_remove_1 in Hnd.
Qed.

Section WithEnvironment.
Variable getenv : str -> option str.

Lemma creation_named top c k p :
  creation getenv top c k = Ok (Some p) -> provider_name p = class_name c.
Proof.
  unfold creation. intros H.
  destruct (get (JObj top) (lit "providers") (JObj [])) as [providers|];
    cbn [bind] in H; [|discriminate H].
  destruct (get providers (class_name c) (JObj [])) as [provider_config|];
    cbn [bind] in H; [|discriminate H].
  destruct (contains_key (lit "base_url") provider_config) as [has_url|];
    cbn [bind] in H; [|discriminate H].
  destruct (if has_url then subscript provider_config (lit "base_url")
            else Ok JNull) as [url|]; cbn [bind] in H; [|discriminate H].
  destruct (construct getenv c k url) as [created|] eqn:Ec;
    cbn [bind] in H; [|discriminate H].
  injection H as <-. now apply construct_inv in Ec.
Qed.

(** The provider created for a model is the one its entry names. *)
Lemma get_provider_named top models model_id config p :
  dict_get (lit "models") top = Some (JObj models) ->
  dict_get model_id models = Some config ->
  get_provider getenv (JObj top) model_id = Ok (Some p) ->
  get config (lit "provider") JNull = Ok (JStr (provider_name p)).
Proof.
  intros Hm Hid. unfold get_provider. cbn [bind].
  assert (Hget : get (JObj top) (lit "models") (JObj []) = Ok (JObj models))
    by (cbn [get]; now rewrite Hm).
  rewrite Hget. cbn [bind contains_key]. rewrite Hid. cbn [negb].
  unfold subscript at 1. rewrite Hm. cbn [bind].
  unfold subscript at 1. rewrite Hid. cbn [bind].
  destruct (get config (lit "provider") JNull) as [named|e] eqn:Ep;
    cbn [bind]; [|discriminate].
  destruct named as [ |b|z|l|name|elements|members];
    cbn [provider_map_get bind]; try discriminate.
  destruct (PROVIDER_MAP name) as [c|] eqn:Ec; [|discriminate].
  apply PROVIDER_MAP_name in Ec. subst name.
  destruct (_ && _); [discriminate|].
  intros H. apply creation_named in H. now rewrite H.
Qed.

(** X19.  [get_models_by_provider] returns models of the configuration
    whose entry names the given provider, and raises nothing but an
    [AttributeError].  When every model id occurs once, these are all such
    models, in the order of the configuration, and a provider that
    [get_provider] creates for one of them bears the given name. *)
Theorem models_of_a_provider_get_that_provider
    (models_config : json) (name : str) :
  match get_models_by_provider models_config name with
  | Ok selected =>
      exists models,
        list_available_models models_config = Ok (JObj models)
        /\ (forall model_id config,
              dict_get model_id selected = Some config ->
              In (model_id, config) models
              /\ get config (lit "provider") JNull = Ok (JStr name))
        /\ (NoDup (map fst models) ->
            selected = filter (has_provider name) models
            /\ forall model_id config p,
                 dict_get model_id selected = Some config ->
                 get_provider getenv models_config model_id = Ok (Some p) ->
                 provider_name p = name)
  | Raise e => exists x what, e = AttributeError x what
  end.
Proof.
  unfold get_models_by_provider, list_available_models.
  destruct (get models_config (lit "models") (JObj [])) as [all_models|e]
    eqn:Eall; cbn [bind]; [|exact (get_raises _ _ _ _ Eall)].
  destruct all_models as [ |b|z|l|s|elements|models]; cbn [items bind];
    try (eexists _, _; reflexivity).
  destruct (models_by_provider name models []) as [selected|e] eqn:Esel;
    [|exact (models_by_provider_raises _ _ _ _ Esel)].
  exists models. split; [reflexivity|].
  assert (Hsound : forall model_id config,
             dict_get model_id selected = Some config ->
             In (model_id, config) models
             /\ get config (lit "provider") JNull = Ok (JStr name)).
  { intros id cfg Hid.
    destruct (models_by_provider_sound _ _ _ _ Esel id cfg Hid) as [H|H];
      [discriminate H|exact H]. }
  split; [exact Hsound|]. intros Hnd.
  split; [exact (models_by_provider_filter name models [] selected Hnd Esel)|].
  intros id cfg p Hid Hp. destruct (Hsound id cfg Hid) as [Hin Hname].
  destruct models_config as [ |b|z|l|s|elements|top]; try discriminate Eall.
  cbn [get] in Eall.
  destruct (dict_get (lit "models") top) as [x|] eqn:Em.
  - injection Eall as ->.
    pose proof (get_provider_named top models id cfg p Em
                  (In_assoc_get id cfg models Hnd Hin) Hp) as H.
    rewrite Hname in H. now injection H as ->.
  - injection Eall as <-. destruct Hin.
Qed.

End WithEnvironment.

End ModelsOfProvider.

(** ** The agreement of the judges *)

Module JudgeAgreement.

Import DictFacts SummaryStatistics ConsensusRun ConsensusOverRun.
Import Summary Agreement.

(** The lists of differences, one per criterion and all of one length. *)
Definition shaped (n : Z) (criteria_differences : list (str * list Z)) : Prop :=
  exists l1 l2 l3 l4 l5,
    criteria_differences
    = [(criteria_value TASK_PERFORMANCE, l1);
       (criteria_value RESPONSE_QUALITY, l2);
       (criteria_value LANGUAGE_QUALITY, l3);
       (criteria_value TOOL_USAGE, l4);
       (criteria_value FACTUAL_ACCURACY, l5)]
    /\ len l1 = n /\ len l2 = n /\ len l3 = n /\ len l4 = n /\ len l5 = n.

Lemma compare_criteria_shaped eval1 eval2 n criteria_differences :
  shaped n criteria_differences ->
  exists compared_criteria,
    compare_criteria eval1 eval2 all_criteria criteria_differences
    = Ok compared_criteria
    /\ shaped (n + 1) compared_criteria.
Proof.
  intros (l1 & l2 & l3 & l4 & l5 & -> & H1 & H2 & H3 & H4 & H5).
  eexists. split; [reflexivity|].
  do 5 eexists. split; [reflexivity|].
  rewrite !len_app, H1, H2, H3, H4, H5. repeat split; reflexivity.
Qed.

Lemma item_of_key {V : Type} (k : str) (d : list (str * V)) :
  In k (List.map fst d) -> exists v, item k d = Ok v.
Proof.
  intros Hin. unfold item. destruct (assoc_get k d) as [v|] eqn:E; [eauto|].
  apply assoc_get_None in E. contradiction.
Qed.

(** What the comparisons keep: as many differences of the overall score,
    and of every criterion, as comparisons. *)
Definition consistent (agreement_stats : Differences) : Prop :=
  len agreement_stats.(differences) = agreement_stats.(compared)
  /\ shaped agreement_stats.(compared) agreement_stats.(criteria_differences).

Lemma compare_with_consistent judge_evals judge1 later agreement_stats :
  In judge1 (List.map fst judge_evals) ->
  incl later (List.map fst judge_evals) ->
  consistent agreement_stats ->
  exists with_judge1,
    compare_with judge_evals judge1 later agreement_stats = Ok with_judge1
    /\ consistent with_judge1
    /\ with_judge1.(compared) = (agreement_stats.(compared) + len later)%Z.
Proof.
  intros H1. revert agreement_stats.
  induction later as [|judge2 rest IH]; intros st Hlater [Hlen Hshape].
  - exists st. cbn [compare_with]. repeat split; try assumption.
    unfold len. cbn. lia.
  - cbn [compare_with].
    destruct (item_of_key judge1 judge_evals H1) as (eval1 & ->).
    destruct (item_of_key judge2 judge_evals (Hlater judge2 (or_introl eq_refl)))
      as (eval2 & ->).
    cbn [bind].
    destruct (compare_criteria_shaped eval1 eval2 _ _ Hshape) as (cd & -> & Hcd).
    cbn [bind].
    destruct (IH {| compared := compared st + 1;
                    differences := differences st
                      ++ [PrimFloat.abs (overall_score eval1 - overall_score eval2)];
                    criteria_differences := cd |})
      as (st' & Hrun & Hcons & Hcount).
    + intros x Hx. apply Hlater. now right.
    + split; cbn [differences compared criteria_differences]; [|exact Hcd].
      rewrite len_app, Hlen. reflexivity.
    + exists st'. split; [exact Hrun|]. split; [exact Hcons|].
      rewrite Hcount. cbn [compared]. rewrite len_cons. lia.
Qed.

Lemma compare_judges_consistent judge_evals judge_models agreement_stats :
  incl judge_models (List.map fst judge_evals) ->
  consistent agreement_stats ->
  exists compared_test,
    compare_judges judge_evals judge_models agreement_stats = Ok compared_test
    /\ consistent compared_test
    /\ (2 * compared_test.(compared)
        = 2 * agreement_stats.(compared)
          + len judge_models * (len judge_models - 1))%Z.
Proof.
  revert agreement_stats.
  induction judge_models as [|judge1 later IH]; intros st Hincl Hcons.
  - exists st. cbn [compare_judges]. repeat split; try apply Hcons.
    unfold len. cbn. lia.
  - cbn [compare_judges].
    destruct (compare_with_consistent judge_evals judge1 later st)
      as (st1 & -> & Hcons1 & Hcount1);
      [apply Hincl; now left|intros x Hx; apply Hincl; now right|exact Hcons|].
    cbn [bind].
    destruct (IH st1) as (st2 & Hrun & Hcons2 & Hcount2);
      [intros x Hx; apply Hincl; now right|exact Hcons1|].
    exists st2. split; [exact Hrun|]. split; [exact Hcons2|].
    rewrite Hcount2, Hcount1, len_cons. lia.
Qed.

(** The comparisons of a test with [k] judges. *)
Definition pairs_twice (k : Z) : Z := k * (k - 1).

Lemma compare_tests_consistent test_evaluations agreement_stats :
  consistent agreement_stats ->
  exists compared_all,
    compare_tests test_evaluations agreement_stats = Ok compared_all
    /\ consistent compared_all
    /\ (2 * compared_all.(compared)
        = 2 * agreement_stats.(compared)
          + Zsum (List.map (fun g => pairs_twice (len (snd g))) test_evaluations))%Z.
Proof.
  revert agreement_stats.
  induction test_evaluations as [|[test_id judge_evals] rest IH]; intros st Hcons.
  - exists st. cbn [compare_tests]. repeat split; try apply Hcons.
    cbn. lia.
  - cbn [compare_tests].
    destruct (compare_judges_consistent judge_evals (List.map fst judge_evals) st)
      as (st1 & -> & Hcons1 & Hcount1); [apply incl_refl|exact Hcons|].
    cbn [bind].
    destruct (IH st1 Hcons1) as (st2 & Hrun & Hcons2 & Hcount2).
    exists st2. split; [exact Hrun|]. split; [exact Hcons2|].
    cbn [List.map snd]. rewrite Zsum_cons, Hcount2, Hcount1.
    unfold pairs_twice, len. rewrite length_map. lia.
Qed.

(** *** The tests and their judges, read off the evaluations *)

(** The ids of the tests evaluated, each once, in the order in which they
    are met. *)
Definition add_id (seen : list str) (test_id : str) : list str :=
  if existsb (str_eqb test_id) seen then seen else seen ++ [test_id].

Definition test_ids (judge_evaluations : list (str * list EvaluationResult))
    : list str :=
  fold_left add_id
    (List.map ev_test_case_id (flat_map snd judge_evaluations)) [].

(** The judges that evaluated a test. *)
Definition is_of (test_id : str) (e : EvaluationResult) : bool :=
  str_eqb e.(ev_test_case_id) test_id.

Definition evaluated (test_id : str) (entry : str * list EvaluationResult) : bool :=
  existsb (is_of test_id) (snd entry).

Definition judges_of (test_id : str)
    (judge_evaluations : list (str * list EvaluationResult)) :=
  filter (evaluated test_id) judge_evaluations.

Lemma add_evaluation_keys judge groups e :
  List.map fst (add_evaluation judge groups e)
  = add_id (List.map fst groups) e.(ev_test_case_id).
Proof.
  unfold add_evaluation, add_id. rewrite keys_assoc_set, existsb_keys.
  destruct (assoc_get (ev_test_case_id e) groups); reflexivity.
Qed.

Lemma add_evaluations_ids judge evaluations groups :
  List.map fst (fold_left (add_evaluation judge) evaluations groups)
  = fold_left add_id (List.map ev_test_case_id evaluations) (List.map fst groups).
Proof.
  revert groups. induction evaluations as [|e evs IH]; intros groups;
    [reflexivity|].
  cbn [fold_left List.map]. rewrite IH, add_evaluation_keys. reflexivity.
Qed.

Lemma group_by_test_ids judge_evaluations :
  List.map fst (group_by_test judge_evaluations) = test_ids judge_evaluations.
Proof.
  unfold group_by_test, test_ids.
  change (@nil str) with (List.map fst (@nil (str * list (str * EvaluationResult)))).
  generalize (@nil (str * list (str * EvaluationResult))) as groups.
  induction judge_evaluations as [|[judge evs] rest IH]; intros groups;
    [reflexivity|].
  cbn [fold_left flat_map fst snd]. rewrite IH, add_evaluations_ids.
  rewrite map_app, fold_left_app. reflexivity.
Qed.

(** The evaluations kept under a test id. *)
Definition group_of (test_id : str)
    (groups : list (str * list (str * EvaluationResult))) :=
  match assoc_get test_id groups with
  | Some d => d
  | None => []
  end.

Definition mark (judge : str) (test_id : str) (processed : list EvaluationResult)
    : list str :=
  if existsb (is_of test_id) processed then [judge] else [].

Lemma add_evaluation_judges judge (base : str -> list str) processed groups e :
  (forall t, ~ In judge (base t)) ->
  (forall t, List.map fst (group_of t groups) = base t ++ mark judge t processed) ->
  forall t, List.map fst (group_of t (add_evaluation judge groups e))
            = base t ++ mark judge t (processed ++ [e]).
Proof.
  intros Hbase Hinv t. unfold add_evaluation, group_of at 1.
  unfold mark. rewrite existsb_app. cbn [existsb]. rewrite orb_false_r.
  fold (group_of (ev_test_case_id e) groups).
  destruct (str_eqb (ev_test_case_id e) t) eqn:Et.
  - fold (is_of t e). unfold is_of at 2. rewrite Et.
    apply str_eqb_eq in Et. subst t.
    rewrite assoc_get_set_same, keys_assoc_set.
    specialize (Hinv (ev_test_case_id e)). unfold mark in Hinv.
    destruct (existsb (is_of (ev_test_case_id e)) processed); cbn [orb].
    + destruct (assoc_get judge (group_of (ev_test_case_id e) groups)) eqn:Eg;
        [exact Hinv|].
      apply assoc_get_None in Eg. exfalso. apply Eg. rewrite Hinv.
      apply in_or_app. right. now left.
    + rewrite app_nil_r in Hinv.
      destruct (assoc_get judge (group_of (ev_test_case_id e) groups)) eqn:Eg.
      * apply assoc_get_In, (in_map fst) in Eg. cbn [fst] in Eg.
        rewrite Hinv in Eg. now apply Hbase in Eg.
      * now rewrite Hinv.
  - fold (is_of t e). unfold is_of at 2. rewrite Et, orb_false_r.
    rewrite assoc_get_set_other.
    + apply Hinv.
    + intros ->. rewrite str_eqb_refl in Et. discriminate.
Qed.

Lemma add_evaluations_judges judge (base : str -> list str) evaluations :
  (forall t, ~ In judge (base t)) ->
  forall processed groups,
    (forall t, List.map fst (group_of t groups) = base t ++ mark judge t processed) ->
    forall t, List.map fst (group_of t (fold_left (add_evaluation judge)
                                          evaluations groups))
              = base t ++ mark judge t (processed ++ evaluations).
Proof.
  intros Hbase. induction evaluations as [|e evs IH]; intros processed groups Hinv t.
  - rewrite app_nil_r. apply Hinv.
  - cbn [fold_left].
    replace (processed ++ e :: evs) with ((processed ++ [e]) ++ evs)
      by (rewrite <- app_assoc; reflexivity).
    apply IH. now apply add_evaluation_judges.
Qed.

Lemma group_judges rest :
  forall done groups,
    NoDup (List.map fst (done ++ rest)) ->
    (forall t, List.map fst (group_of t groups)
               = List.map fst (judges_of t done)) ->
    forall t,
      List.map fst
        (group_of t
           (fold_left (fun test_evaluations entry =>
                         fold_left (add_evaluation (fst entry)) (snd entry)
                           test_evaluations) rest groups))
      = List.map fst (judges_of t (done ++ rest)).
Proof.
  induction rest as [|[judge evs] rest IH]; intros done groups Hnd Hinv t.
  - rewrite app_nil_r. apply Hinv.
  - cbn [fold_left fst snd].
    replace (done ++ (judge, evs) :: rest) with ((done ++ [(judge, evs)]) ++ rest)
      in * by (rewrite <- app_assoc; reflexivity).
    apply IH; [exact Hnd|]. clear t. intros t.
    unfold judges_of. rewrite filter_app, map_app. cbn [filter].
    rewrite (add_evaluations_judges judge
               (fun t => List.map fst (judges_of t done)) evs) with (processed := []).
    + cbn [app]. unfold mark, evaluated, judges_of. cbn [snd].
      destruct (existsb (is_of t) evs); reflexivity.
    + intros t' Hin. rewrite !map_app in Hnd. cbn [List.map fst] in Hnd.
      rewrite <- app_assoc in Hnd. apply NoDup_remove_2 in Hnd. apply Hnd.
      apply in_or_app. left. unfold judges_of in Hin.
      apply in_map_iff in Hin as (entry & <- & Hin).
      apply filter_In in Hin as [Hin _]. now apply in_map.
    + intros t'. unfold mark. cbn [existsb]. rewrite app_nil_r. apply Hinv.
Qed.

Lemma group_by_test_judges judge_evaluations test_id judge_evals :
  NoDup (List.map fst judge_evaluations) ->
  In (test_id, judge_evals) (group_by_test judge_evaluations) ->
  List.map fst judge_evals = List.map fst (judges_of test_id judge_evaluations).
Proof.
  intros Hnd Hin.
  pose proof (group_judges judge_evaluations [] [] Hnd (fun t => eq_refl) test_id)
    as H.
  cbn [app] in H. fold (group_by_test judge_evaluations) in H.
  destruct (group_by_test_grouped judge_evaluations) as [Hkeys _].
  unfold group_of in H. rewrite (In_assoc_get _ _ _ Hkeys Hin) in H. exact H.
Qed.

(** *** The analysis *)

Definition no_differences : Differences :=
  {| compared := 0; differences := [];
     criteria_differences :=
       fold_left (fun d criteria => assoc_set (criteria_value criteria) [] d)
         all_criteria [] |}.

Lemma no_differences_consistent : consistent no_differences.
Proof.
  split; [reflexivity|]. exists [], [], [], [], [].
  split; [reflexivity|]. repeat split; reflexivity.
Qed.

Lemma comparisons_run judge_evaluations :
  NoDup (List.map fst judge_evaluations) ->
  exists compared_all,
    compare_tests (group_by_test judge_evaluations) no_differences
    = Ok compared_all
    /\ consistent compared_all
    /\ (2 * compared_all.(compared)
        = Zsum (List.map (fun t => pairs_twice
                                     (len (judges_of t judge_evaluations)))
                  (test_ids judge_evaluations)))%Z.
Proof.
  intros Hnd.
  destruct (compare_tests_consistent (group_by_test judge_evaluations)
              no_differences no_differences_consistent)
    as (st & Hrun & Hcons & Hcount).
  exists st. split; [exact Hrun|]. split; [exact Hcons|].
  rewrite Hcount. cbn [compared no_differences]. rewrite Z.mul_0_r, Z.add_0_l.
  rewrite <- group_by_test_ids, map_map. f_equal.
  apply map_ext_in. intros [t d] Hin. cbn [fst snd]. f_equal.
  unfold len. f_equal.
  rewrite <- (length_map fst d), <- (length_map fst (judges_of t judge_evaluations)).
  f_equal. now apply group_by_test_judges.
Qed.

Lemma summarize_none (l : list Z) : summarize l = None <-> len l = 0%Z.
Proof.
  destruct l; cbn [summarize]; [split; reflexivity|].
  rewrite len_cons. unfold len. split; [discriminate|lia].
Qed.

(** X20.  With the evaluations of the judges given per judge,
    [analyze_judge_agreement] does not raise.  It compares every two
    judges that evaluated the same test, once per test: twice the number of
    comparisons is the sum, over the tests evaluated, of k (k - 1) for the
    k judges of the test.  There are as many differences of the overall
    score as comparisons; the five criteria are listed in their order, and
    a criterion keeps the empty list exactly when nothing was compared, as
    the average and the greatest difference are then absent. *)
Theorem every_two_judges_of_a_test_are_compared
    (judge_models : list str)
    (judge_evaluations : list (str * list EvaluationResult)) :
  NoDup (List.map fst judge_evaluations) ->
  exists stats,
    analyze_judge_agreement judge_models judge_evaluations = Ok stats
    /\ len stats.(score_differences) = stats.(total_comparisons)
    /\ (2 * stats.(total_comparisons)
        = Zsum (List.map (fun t => pairs_twice
                                     (len (judges_of t judge_evaluations)))
                  (test_ids judge_evaluations)))%Z
    /\ List.map fst stats.(criteria_agreement)
       = List.map criteria_value all_criteria
    /\ Forall (fun entry => snd entry = None <-> stats.(total_comparisons) = 0%Z)
         stats.(criteria_agreement)
    /\ (stats.(avg_score_difference) = None <-> stats.(total_comparisons) = 0%Z)
    /\ (stats.(max_score_difference) = None <-> stats.(total_comparisons) = 0%Z).
Proof.
  intros Hnd. unfold analyze_judge_agreement.
  destruct (comparisons_run judge_evaluations Hnd)
    as (st & Hrun & [Hlen Hshape] & Hcount).
  fold no_differences. rewrite Hrun. cbn [bind]. eexists. split; [reflexivity|].
  cbn [score_differences total_comparisons criteria_agreement
       avg_score_difference max_score_difference].
  split; [exact Hlen|]. split; [exact Hcount|].
  destruct Hshape as (l1 & l2 & l3 & l4 & l5 & -> & H1 & H2 & H3 & H4 & H5).
  split; [reflexivity|]. split.
  - cbn [List.map fst snd].
    repeat constructor; cbn [snd]; rewrite summarize_none; congruence.
  - rewrite <- Hlen. destruct (differences st); rewrite ?len_cons; unfold len;
      split; split; try reflexivity; try discriminate; lia.
Qed.

(** Two judges that evaluated the same two tests. *)
Definition verdict_of (test_id : string) (overall : float) : EvaluationResult :=
  {| ev_test_case_id := lit test_id; ev_model_id := lit "mock";
     ev_scenario_type := lit "correct"; ev_user_query := lit "Jakie laptopy?";
     ev_model_response := lit "Oto laptopy."; expected_behavior := lit "lists laptops";
     scores := []; overall_score := overall;
     ev_tool_calls_made := []; ev_tool_results := [];
     judge_model := lit "gpt-4o"; evaluation_timestamp := lit "2025-01-01";
     additional_notes := None |}.

Definition two_judges : list (str * list EvaluationResult) :=
  [(lit "judge_a", [verdict_of "t1" 4; verdict_of "t2" 3]);
   (lit "judge_b", [verdict_of "t2" 5; verdict_of "t1" 4])].

Lemma every_two_judges_of_a_test_are_compared_witness :
  exists stats,
    analyze_judge_agreement [lit "judge_a"; lit "judge_b"] two_judges = Ok stats
    /\ len stats.(score_differences) = stats.(total_comparisons)
    /\ (2 * stats.(total_comparisons)
        = Zsum (List.map (fun t => pairs_twice (len (judges_of t two_judges)))
                  (test_ids two_judges)))%Z
    /\ List.map fst stats.(criteria_agreement)
       = List.map criteria_value all_criteria
    /\ Forall (fun entry => snd entry = None <-> stats.(total_comparisons) = 0%Z)
         stats.(criteria_agreement)
    /\ (stats.(avg_score_difference) = None <-> stats.(total_comparisons) = 0%Z)
    /\ (stats.(max_score_difference) = None <-> stats.(total_comparisons) = 0%Z).
Proof.
  apply (every_two_judges_of_a_test_are_compared
           [lit "judge_a"; lit "judge_b"] two_judges).
  repeat constructor; cbn; intuition discriminate.
Defined.

(** *** The statistics of the judges *)

Definition no_evaluations : JudgeStatistics :=
  {| avg_score := Int 0; judge_total_evaluations := 0 |}.

Definition statistics_of (evaluations : list EvaluationResult) : JudgeStatistics :=
  {| avg_score := Float (Stats.mean (List.map overall_score evaluations));
     judge_total_evaluations := len evaluations |}.

Lemma listed_judges judge judge_models statistics :
  assoc_get judge
    (fold_left (fun statistics judge => assoc_set judge no_evaluations statistics)
       judge_models statistics)
  = if existsb (str_eqb judge) judge_models then Some no_evaluations
    else assoc_get judge statistics.
Proof.
  revert statistics. induction judge_models as [|j rest IH]; intros statistics;
    [reflexivity|].
  cbn [fold_left existsb]. rewrite IH.
  destruct (str_eqb judge j) eqn:E.
  - apply str_eqb_eq in E. subst j. rewrite assoc_get_set_same.
    cbn [orb]. now destruct (existsb (str_eqb judge) rest).
  - cbn [orb]. rewrite assoc_get_set_other; [reflexivity|].
    intros ->. rewrite str_eqb_refl in E. discriminate.
Qed.

Lemma evaluating_judges judge judge_evaluations statistics :
  NoDup (List.map fst judge_evaluations) ->
  assoc_get judge
    (fold_left
       (fun statistics entry =>
          match snd entry with
          | [] => statistics
          | _ :: _ => assoc_set (fst entry) (statistics_of (snd entry)) statistics
          end) judge_evaluations statistics)
  = match assoc_get judge judge_evaluations with
    | Some (e :: evs) => Some (statistics_of (e :: evs))
    | _ => assoc_get judge statistics
    end.
Proof.
  revert statistics.
  induction judge_evaluations as [|[j evs] rest IH]; intros statistics Hnd;
    [reflexivity|].
  cbn [List.map fst] in Hnd. inversion Hnd as [|? ? Hnew Hrest]; subst.
  cbn [fold_left fst snd assoc_get]. rewrite (IH _ Hrest).
  destruct (str_eqb judge j) eqn:E.
  - apply str_eqb_eq in E. subst j.
    assert (Hnone : assoc_get judge rest = None) by now apply assoc_get_None.
    rewrite Hnone. destruct evs; [reflexivity|]. apply assoc_get_set_same.
  - destruct evs; [reflexivity|].
    rewrite assoc_get_set_other; [reflexivity|].
    intros ->. rewrite str_eqb_refl in E. discriminate.
Qed.

(** X21.  In "judge_statistics" a judge with evaluations has their number
    and the mean of their overall scores, whether the panel lists the judge
    or not; a judge of the panel without evaluations (none given, or an
    empty list) keeps the int 0 for both; other judges are absent. *)
Theorem judges_are_counted_with_their_evaluations
    (judge_models : list str)
    (judge_evaluations : list (str * list EvaluationResult)) (judge : str) :
  NoDup (List.map fst judge_evaluations) ->
  exists stats,
    analyze_judge_agreement judge_models judge_evaluations = Ok stats
    /\ assoc_get judge stats.(judge_statistics)
       = match assoc_get judge judge_evaluations with
         | Some (e :: evs) => Some (statistics_of (e :: evs))
         | _ => if existsb (str_eqb judge) judge_models
                then Some no_evaluations else None
         end.
Proof.
  intros Hnd. unfold analyze_judge_agreement.
  destruct (comparisons_run judge_evaluations Hnd) as (st & Hrun & _).
  fold no_differences. rewrite Hrun. cbn [bind]. eexists. split; [reflexivity|].
  cbn [judge_statistics]. unfold judge_statistics_of.
  fold no_evaluations.
  rewrite (evaluating_judges judge judge_evaluations _ Hnd), listed_judges.
  reflexivity.
Qed.

Lemma judges_are_counted_with_their_evaluations_witness :
  exists stats,
    analyze_judge_agreement [lit "judge_a"; lit "judge_c"] two_judges = Ok stats
    /\ assoc_get (lit "judge_b") stats.(judge_statistics)
       = Some (statistics_of [verdict_of "t2" 5; verdict_of "t1" 4]).
Proof.
  apply (judges_are_counted_with_their_evaluations
           [lit "judge_a"; lit "judge_c"] two_judges (lit "judge_b")).
  repeat constructor; cbn; intuition discriminate.
Defined.

End JudgeAgreement.

(** ** The provider of a judge *)

Module JudgeProvider.

Import Factory DictFacts ProviderCreation.

Section WithEnvironment.
Variable getenv : str -> option str.

(** [MockProvider("", "")] *)
Definition mock_judge : ProviderInstance :=
  {| class := MockProvider; api_key := []; base_url := JStr [];
     provider_name := lit "mock" |}.

(** X22.  A judge whose model is not in the configuration, or is configured
    with OpenRouter or Replicate while the key of that provider is not in
    the environment or is empty there, works without notice with the mock
    provider, created with the empty key and the empty address. *)
Theorem judge_without_provider_is_the_mock
    (top models : dict) (judge_model : str) :
  dict_get (lit "models") top = Some (JObj models) ->
  dict_get judge_model models = None
  \/ (exists cfg c v,
        dict_get judge_model models = Some (JObj cfg)
        /\ dict_get (lit "provider") cfg = Some (JStr (class_name c))
        /\ key_variable c = Some v
        /\ (getenv v = None \/ getenv v = Some [])) ->
  _get_judge_provider getenv (JObj top) judge_model = Ok mock_judge.
Proof.
  intros Hm Hcase. unfold _get_judge_provider, get_provider. cbn [get bind].
  rewrite Hm. cbn [bind contains_key].
  destruct Hcase as [Hid|(cfg & c & v & Hid & Hp & Hv & Hkey)].
  - rewrite Hid. reflexivity.
  - rewrite Hid. cbn [negb]. unfold subscript at 1. rewrite Hm. cbn [bind].
    unfold subscript at 1. rewrite Hid. cbn [bind get]. rewrite Hp.
    cbn [bind provider_map_get]. rewrite PROVIDER_MAP_class, api_key_of_class.
    rewrite Hv.
    assert (Hmock : str_eqb (class_name c) (lit "mock") = false)
      by (destruct c; [reflexivity|reflexivity|discriminate Hv]).
    rewrite Hmock. destruct Hkey as [-> | ->]; reflexivity.
Qed.

End WithEnvironment.

Definition replicate_judge : dict :=
  [(lit "models",
    JObj [(lit "llama", JObj [(lit "provider", JStr (lit "replicate"))])])].

Lemma judge_without_provider_is_the_mock_witness :
  _get_judge_provider environment (JObj replicate_judge) (lit "llama")
  = Ok mock_judge.
Proof.
  apply (judge_without_provider_is_the_mock environment replicate_judge
           [(lit "llama", JObj [(lit "provider", JStr (lit "replicate"))])]
           (lit "llama")); [reflexivity|].
  right. exists [(lit "provider", JStr (lit "replicate"))], ReplicateProvider,
           (lit "REPLICATE_API_TOKEN").
  repeat split. now left.
Defined.

End JudgeProvider.
